(** * Face verification demo: the repository's own logic, embedded in Rocq

    The Python sources (utils.py, app.py, camera_utils.py, trt_inference.py)
    are orchestration code around OpenCV, NumPy, Keras and TensorRT.  The
    embedding keeps the control flow of every function as it is written and
    takes the third-party calls as operations of small interfaces
    ([NumPy], [Cv2], [Model]), so that every statement below is about the
    code of the repository and holds for any behaviour of the libraries.

    Where a library call can fail the interface says how: [cv2.resize]
    raises on the images [cv2_resize_raises] names, [cv2.imwrite] returns
    True, returns False or raises, and NumPy compares a [float32] with a
    Python float exactly or after rounding it to [float32], by its
    version.  [Utils.Raising] is [preprocess_image] with the exception of
    [cv2.resize]; [Utils.preprocess_image] is its value where that call
    returns, which is where the pipelines of utils.py and app.py are
    stated.  [model.predict] and the NumPy operations are taken to
    return. *)

From Stdlib Require Import List String Ascii Bool Arith ZArith QArith Qabs Lia.
From Stdlib Require Import Qround Qpower Lqa.
From Stdlib Require Import Strings.Byte.
Import ListNotations.
Open Scope string_scope.

(* ================================================================== *)
(** * Python values *)
(* ================================================================== *)

(** ** Floats, as far as the code looks at them

    The code only creates [float('inf')] and compares floats with [<].
    A float is a NaN, an infinity or a finite number; finite values are
    kept as exact rationals (every binary float denotes one), and the
    comparison is the IEEE one: anything involving NaN is false. *)
Module PyFloat.

Inductive t : Type :=
| nan
| neg_inf
| fin (q : Q)
| inf.

Definition Qltb (x y : Q) : bool := negb (Qle_bool y x).

(** [a < b] of Python. *)
Definition ltb (a b : t) : bool :=
  match a, b with
  | nan, _ | _, nan => false
  | _, neg_inf => false
  | neg_inf, _ => true
  | inf, _ => false
  | fin _, inf => true
  | fin x, fin y => Qltb x y
  end.

(** [a <= b] of Python. *)
Definition leb (a b : t) : bool :=
  match a, b with
  | nan, _ | _, nan => false
  | neg_inf, _ => true
  | _, inf => true
  | _, neg_inf => false
  | inf, fin _ => false
  | fin x, fin y => Qle_bool x y
  end.

(** ** Single precision

    NumPy keeps images and embeddings in [float32].  A [float32] is a
    multiple of [2^(e - 23)] in the binade [2^e <= |x| < 2^(e + 1)], with
    [e] from -126 to 127 and the numbers below [2^-126] on the grid of step
    [2^-149]; a number becomes a [float32] by rounding to the nearest one,
    the even one of two that are equally near, and to an infinity from
    [2^128] on. *)

Definition pow2 (e : Z) : Q := (2 ^ e)%Q.

(** To the nearest integer, the even one at a half. *)
Definition rne (q : Q) : Z :=
  let f := Qfloor q in
  match Qcompare (q - inject_Z f) (1 # 2) with
  | Lt => f
  | Gt => (f + 1)%Z
  | Eq => if Z.even f then f else (f + 1)%Z
  end.

(** The [e] with [2^e <= q < 2^(e + 1)], for [q > 0]. *)
Definition ilog2 (q : Q) : Z :=
  let e0 := (Z.log2 (Qnum q) - Z.log2 (Zpos (Qden q)))%Z in
  if Qle_bool (pow2 e0) q then e0 else (e0 - 1)%Z.

(** The exponent under which a number that is not negative is rounded. *)
Definition exponent32 (q : Q) : Z :=
  if Qle_bool q 0 then (-126)%Z else Z.max (ilog2 q) (-126).

Definition ulp32 (q : Q) : Q := pow2 (exponent32 q - 23).

Definition round32_pos (q : Q) : Q :=
  Qred (inject_Z (rne (q / ulp32 q)) * ulp32 q).

(** The nearest point of the [float32] grid, without the overflow. *)
Definition round32q (q : Q) : Q :=
  if Qle_bool 0 q then round32_pos q else (- round32_pos (- q))%Q.

(** From [2^128] on a [float32] is an infinity. *)
Definition overflow32 (r : Q) : t :=
  if Qle_bool (pow2 128) r then inf
  else if Qle_bool r (- pow2 128) then neg_inf
  else fin r.

(** [np.float32(x)] of a Python float. *)
Definition round32 (x : t) : t :=
  match x with
  | fin q => overflow32 (round32q q)
  | _ => x
  end.

End PyFloat.

Definition pyfloat : Type := PyFloat.t.

(** ** 32-bit integers of NumPy

    The boxes of a cascade come in an [int32] array; the product of two of
    its entries is an [np.int32], kept modulo [2^32] in the range from
    [-2^31] to [2^31 - 1]. *)
Module NpInt32.

Definition wrap (z : Z) : Z := ((z + 2 ^ 31) mod 2 ^ 32 - 2 ^ 31)%Z.

Definition mul (a b : Z) : Z := wrap (a * b).

End NpInt32.

(** ** Dictionaries

    A Python [dict] keeps its keys in insertion order and [items()] walks
    them in that order; [identify_face] breaks ties by that order.  A dict is
    therefore a list of (key, value) pairs; [set] overwrites in place or
    appends, which keeps the keys distinct. *)
Module PyDict.
Section Dict.
Context {V : Type}.

Definition t := list (string * V).

Definition empty : t := [].

Fixpoint get (d : t) (k : string) : option V :=
  match d with
  | [] => None
  | (k', v) :: rest => if String.eqb k' k then Some v else get rest k
  end.

Definition contains (d : t) (k : string) : bool :=
  match get d k with Some _ => true | None => false end.

Fixpoint set (d : t) (k : string) (v : V) : t :=
  match d with
  | [] => [(k, v)]
  | (k', v') :: rest =>
      if String.eqb k' k then (k', v) :: rest else (k', v') :: set rest k v
  end.

Definition keys (d : t) : list string := map fst d.

Definition items (d : t) : list (string * V) := d.

(** The invariant of a dict: no key twice. *)
Definition wf (d : t) : Prop := NoDup (keys d).
End Dict.
Arguments t : clear implicits.
End PyDict.

(** ** Exceptions and results

    A Python call either returns or raises; [bind] is sequencing, so an
    exception leaves the rest of the function unrun. *)
Inductive exn : Type :=
| ValueError (msg : string)
| RuntimeError (msg : string)
| FileNotFoundError (msg : string)
| NotADirectoryError (msg : string)
| IsADirectoryError (msg : string)
| UnboundLocalError (name : string)
| Exception (msg : string)
| ZeroDivisionError (msg : string)
| SystemExit (code : Z).

Inductive result (A : Type) : Type :=
| Ok (a : A)
| Raise (e : exn).
Arguments Ok {A} a.
Arguments Raise {A} e.

Definition bind {A B : Type} (m : result A) (k : A -> result B) : result B :=
  match m with
  | Ok a => k a
  | Raise e => Raise e
  end.

Notation "x <- m ;; k" := (bind m (fun x => k))
  (at level 61, m at next level, right associativity).

Definition raises {A : Type} (m : result A) : Prop :=
  exists e, m = Raise e.

(** ** Strings: the [str] methods and [os.path] functions the code calls

    File names are byte strings here and [lower] folds the ASCII letters;
    the separators and extensions the code looks for are ASCII. *)
Module PyStr.

Definition lower_ascii (c : ascii) : ascii :=
  let n := nat_of_ascii c in
  if (65 <=? n)%nat && (n <=? 90)%nat then ascii_of_nat (n + 32) else c.

(** [s.lower()] *)
Fixpoint lower (s : string) : string :=
  match s with
  | EmptyString => EmptyString
  | String c s' => String (lower_ascii c) (lower s')
  end.

(** [s.startswith(p)] *)
Definition startswith (s p : string) : bool := String.prefix p s.

(** [s.endswith(suffix)] *)
Fixpoint endswith (s suffix : string) : bool :=
  String.eqb s suffix ||
  match s with
  | EmptyString => false
  | String _ s' => endswith s' suffix
  end.

(** [s.endswith((suffix1, suffix2, ...))] *)
Definition endswith_any (s : string) (suffixes : list string) : bool :=
  existsb (endswith s) suffixes.

(** [pattern in s] *)
Fixpoint contains (s pattern : string) : bool :=
  String.prefix pattern s ||
  match s with
  | EmptyString => false
  | String _ s' => contains s' pattern
  end.

(** [s[:n]] and [s[n:]] for [0 <= n]. *)
Fixpoint take (n : nat) (s : string) : string :=
  match n, s with
  | S n', String c s' => String c (take n' s')
  | _, _ => EmptyString
  end.

Fixpoint drop (n : nat) (s : string) : string :=
  match n, s with
  | S n', String _ s' => drop n' s'
  | _, _ => s
  end.

(** [s.split(sep)] for a non-empty [sep], scanning from the left: [skip]
    counts the characters of a separator just matched that are still to be
    passed over, [cur] is the piece being collected. *)
Fixpoint split_go (sep : string) (skip : nat) (s : string) (cur : string)
  : list string :=
  match skip with
  | S k =>
      match s with
      | EmptyString => [cur]
      | String _ s' => split_go sep k s' cur
      end
  | O =>
      match s with
      | EmptyString => [cur]
      | String c s' =>
          if String.prefix sep s
          then cur :: split_go sep (String.length sep - 1) s' EmptyString
          else split_go sep O s' (cur ++ String c EmptyString)
      end
  end.

Definition split (s sep : string) : result (list string) :=
  match sep with
  | EmptyString => Raise (ValueError "empty separator")
  | _ => Ok (split_go sep 0 s EmptyString)
  end.

(** [s.rfind(c)] for a one-character [c]: the last index, or [-1]. *)
Fixpoint rfind_from (c : ascii) (s : string) (i last : Z) : Z :=
  match s with
  | EmptyString => last
  | String a s' => rfind_from c s' (i + 1) (if Ascii.eqb a c then i else last)
  end.

Definition rfind (s : string) (c : ascii) : Z := rfind_from c s 0 (-1).

Definition sep : ascii := "/"%char.
Definition extsep : ascii := "."%char.

(** The [while] loop of [genericpath._splitext]: is there a character other
    than a dot in [p[filenameIndex:dotIndex]]? *)
Fixpoint splitext_scan (p : string) (filenameIndex : nat) (steps : nat) : bool :=
  match steps with
  | O => false
  | S k =>
      if negb (String.eqb (String.substring filenameIndex 1 p)
                          (String extsep EmptyString))
      then true
      else splitext_scan p (S filenameIndex) k
  end.

(** [os.path.splitext(p)] (posixpath): the extension starts at the last dot
    of the last path component, leading dots of that component apart. *)
Definition splitext (p : string) : string * string :=
  let sepIndex := rfind p sep in
  let dotIndex := rfind p extsep in
  if (sepIndex <? dotIndex)%Z
     && splitext_scan p (Z.to_nat (sepIndex + 1))
                      (Z.to_nat (dotIndex - (sepIndex + 1)))
  then (take (Z.to_nat dotIndex) p, drop (Z.to_nat dotIndex) p)
  else (p, EmptyString).

(** [os.path.join(a, b)] (posixpath). *)
Definition join (a b : string) : string :=
  if startswith b (String sep EmptyString) then b
  else if String.eqb a EmptyString || endswith a (String sep EmptyString)
       then a ++ b
       else a ++ String sep EmptyString ++ b.

End PyStr.

(* ================================================================== *)
(** * Third-party operations *)
(* ================================================================== *)

(** An 8-bit image as OpenCV hands it out: rows of pixels, a pixel being its
    channel values.  A preprocessed image has the same layout with
    [float32] components, kept as the rationals they are. *)
Definition image := list (list (list byte)).
Definition float_image := list (list (list Q)).

(** NumPy on embedding vectors: [a - b], [np.linalg.norm] and
    [np.mean(_, axis=0)]; and how it compares a distance with a Python
    float.  The norm of [float32] embeddings is an [np.float32]; from
    NumPy 2 on a Python float that meets one is first rounded to [float32]
    ([np_weak_float32] is [true]), where NumPy 1 compares the two as Python
    floats, as every NumPy does for [float64] embeddings ([false]). *)
Class NumPy (vec : Type) := {
  np_sub : vec -> vec -> vec;
  np_linalg_norm : vec -> pyfloat;
  np_mean : list vec -> vec;
  np_weak_float32 : bool
}.

(** The feature extractor: [model.predict(batch, verbose=0)[0]] on a batch of
    one image. *)
Class Model (vec : Type) := {
  predict : float_image -> vec
}.

(** A detection [(x, y, w, h)]. *)
Definition rect : Type := nat * nat * nat * nat.

(** OpenCV: [cv2.resize(img, dsize)], [cv2.imread(path)] ([None] for a file
    that cannot be read), [cv2.cvtColor] with the two conversion codes the
    code passes, the directory [cv2.data.haarcascades], and
    [CascadeClassifier(path).detectMultiScale(gray, scaleFactor=1.1,
    minNeighbors=5, minSize=(30, 30))].  [cv2.resize] raises [cv2.error]
    instead of returning when [cv2_resize_raises] says so, as it does on an
    empty image and for a size that is not positive; [cv2_resize] is what it
    returns otherwise. *)
Class Cv2 := {
  cv2_resize : image -> Z * Z -> image;
  cv2_resize_raises : image -> Z * Z -> bool;
  cv2_imread : string -> option image;
  cv2_cvtColor_BGR2RGB : image -> image;
  cv2_cvtColor_BGR2GRAY : image -> list (list byte);
  cv2_data_haarcascades : string;
  detectMultiScale : string -> list (list byte) -> list rect
}.

(** The file system as [os.path.exists] and [os.listdir] see it. *)
Inductive fs_node : Type :=
| Missing
| RegularFile
| Directory (listing : list string).

Definition filesystem : Type := string -> fs_node.

Definition os_path_exists (fs : filesystem) (path : string) : bool :=
  match fs path with Missing => false | _ => true end.

Definition os_listdir (fs : filesystem) (path : string) : result (list string) :=
  match fs path with
  | Directory listing => Ok listing
  | RegularFile => Raise (NotADirectoryError path)
  | Missing => Raise (FileNotFoundError path)
  end.

(* ================================================================== *)
(** * utils.py *)
(* ================================================================== *)

Module Utils.

Inductive status := MATCH | REJECT.

Definition UNKNOWN : string := "UNKNOWN".

Section Identify.
Context {vec : Type} `{NumPy vec}.

(** [euclidean_distance]: [np.linalg.norm(embedding1 - embedding2)]. *)
Definition euclidean_distance (embedding1 embedding2 : vec) : pyfloat :=
  np_linalg_norm (np_sub embedding1 embedding2).

(** The [for] loop of [identify_face], from a given loop state. *)
Fixpoint identify_scan (query_embedding : vec)
         (items : list (string * vec))
         (min_distance : pyfloat) (identified_person : string)
  : pyfloat * string :=
  match items with
  | [] => (min_distance, identified_person)
  | (person_id, ref_embedding) :: rest =>
      let distance := euclidean_distance query_embedding ref_embedding in
      if PyFloat.ltb distance min_distance
      then identify_scan query_embedding rest distance person_id
      else identify_scan query_embedding rest min_distance identified_person
  end.

(** The threshold as [min_distance < threshold] sees it.  ([min_distance]
    is an [np.float32] unless no distance was below [float('inf')]; it is
    then still that Python float, which is below no threshold, rounded or
    not.) *)
Definition compared (threshold : pyfloat) : pyfloat :=
  if np_weak_float32 then PyFloat.round32 threshold else threshold.

Definition identify_face (query_embedding : vec)
           (gallery_embeddings : PyDict.t vec) (threshold : pyfloat)
  : string * pyfloat * status :=
  let '(min_distance, identified_person) :=
    identify_scan query_embedding (PyDict.items gallery_embeddings)
                  PyFloat.inf UNKNOWN in
  let status :=
    if PyFloat.ltb min_distance (compared threshold) then MATCH else REJECT in
  let identified_person :=
    match status with REJECT => UNKNOWN | MATCH => identified_person end in
  (identified_person, min_distance, status).
End Identify.

Section Images.
Context `{Cv2}.

(** [img_resized.astype('float32') / 255.0], one component: the 8-bit
    value is a [float32] as it is, and the quotient is the [float32] nearest
    to it. *)
Definition normalize (b : byte) : Q :=
  PyFloat.round32q (inject_Z (Z.of_N (Byte.to_N b)) / 255).

(** [preprocess_image] in a call whose [cv2.resize] returns, which is how
    the application below runs it. *)
Definition preprocess_image (img : option image) (img_size : Z)
  : option float_image :=
  match img with
  | None => None
  | Some img =>
      let img_resized := cv2_resize img (img_size, img_size) in
      let img_normalized := map (map (map normalize)) img_resized in
      Some img_normalized
  end.
End Images.

(** The same with the error of [cv2.resize]. *)
Module Raising.
Section Calls.
Context `{Cv2}.

Definition resize (img : image) (dsize : Z * Z) : result image :=
  if cv2_resize_raises img dsize
  then Raise (Exception "cv2.error")
  else Ok (cv2_resize img dsize).

Definition preprocess_image (img : option image) (img_size : Z)
  : result (option float_image) :=
  match img with
  | None => Ok None
  | Some img =>
      img_resized <- resize img (img_size, img_size) ;;
      let img_normalized := map (map (map normalize)) img_resized in
      Ok (Some img_normalized)
  end.
End Calls.
End Raising.

Section Faces.
Context `{Cv2}.

(** [load_image]: whatever the body of the [try] raises, the function
    returns None.  ([cv2.imread] gives None or an image that
    [cv2.cvtColor] converts.) *)
Definition load_image (img_path : string) (img_size : Z)
  : option float_image :=
  let body :=
    match cv2_imread img_path with
    | None => Ok None
    | Some img =>
        let img := cv2_cvtColor_BGR2RGB img in
        Raising.preprocess_image (Some img) img_size
    end in
  match body with
  | Ok img => img
  | Raise e => None
  end.

(** [max(first :: rest, key=key)]: a later element replaces the best one
    only when its key is strictly greater. *)
Fixpoint py_max_from {A : Type} (key : A -> Z) (best : A) (rest : list A) : A :=
  match rest with
  | [] => best
  | x :: rest' =>
      if (key best <? key x)%Z
      then py_max_from key x rest'
      else py_max_from key best rest'
  end.

(** [lambda rect: rect[2] * rect[3]], on the [int32] entries of a box. *)
Definition area (r : rect) : Z :=
  let '(_, _, w, h) := r in NpInt32.mul (Z.of_nat w) (Z.of_nat h).

(** [l[a:b]] for [0 <= a]. *)
Definition slice {A : Type} (a b : nat) (l : list A) : list A :=
  firstn (b - a) (skipn a l).

Definition detect_and_crop_face (frame : image) (face_cascade_path : option string)
  : option image * option rect :=
  let face_cascade_path :=
    match face_cascade_path with
    | None => cv2_data_haarcascades ++ "haarcascade_frontalface_default.xml"
    | Some path => path
    end in
  let gray := cv2_cvtColor_BGR2GRAY frame in
  let faces := detectMultiScale face_cascade_path gray in
  match faces with
  | [] => (None, None)
  | first :: rest =>
      let '(x, y, w, h) := py_max_from area first rest in
      let face_img := map (slice x (x + w)) (slice y (y + h) frame) in
      let face_rgb := cv2_cvtColor_BGR2RGB face_img in
      (Some face_rgb, Some (x, y, w, h))
  end.
End Faces.

Section Gallery.
Context {vec : Type} `{NumPy vec} `{Model vec} `{Cv2}.

(** The inner loop of [build_gallery_embeddings]: the embeddings of the
    images that load, in the order of [paths]. *)
Fixpoint collect_embeddings (paths : list string) (img_size : Z)
         (embeddings : list vec) : list vec :=
  match paths with
  | [] => embeddings
  | path :: rest =>
      match load_image path img_size with
      | Some img => collect_embeddings rest img_size (embeddings ++ [predict img])%list
      | None => collect_embeddings rest img_size embeddings
      end
  end.

Fixpoint build_gallery_loop (items : list (string * list string)) (img_size : Z)
         (gallery_embeddings : PyDict.t vec) : PyDict.t vec :=
  match items with
  | [] => gallery_embeddings
  | (person_id, paths) :: rest =>
      let embeddings := collect_embeddings paths img_size [] in
      match embeddings with
      | [] => build_gallery_loop rest img_size gallery_embeddings
      | _ :: _ =>
          let avg_embedding := np_mean embeddings in
          build_gallery_loop rest img_size
            (PyDict.set gallery_embeddings person_id avg_embedding)
      end
  end.

Definition build_gallery_embeddings (image_paths_dict : PyDict.t (list string))
           (img_size : Z) : PyDict.t vec :=
  build_gallery_loop (PyDict.items image_paths_dict) img_size PyDict.empty.

Definition identify_face_from_frame (face_img : option image)
           (gallery_embeddings : PyDict.t vec) (threshold : pyfloat)
           (img_size : Z) : string * pyfloat * status :=
  match preprocess_image face_img img_size with
  | None => (UNKNOWN, PyFloat.inf, REJECT)
  | Some face_processed =>
      let query_embedding := predict face_processed in
      identify_face query_embedding gallery_embeddings threshold
  end.
End Gallery.

Section Index.

Definition image_suffixes : list string := [".jpg"; ".jpeg"; ".png"].

(** The person id of one file name. *)
Definition person_id_of (filename pattern : string) : result string :=
  if PyStr.contains filename pattern
  then parts <- PyStr.split filename pattern ;; Ok (hd EmptyString parts)
  else Ok (fst (PyStr.splitext filename)).

Fixpoint index_loop (image_dir pattern : string) (filenames : list string)
         (images_by_person : PyDict.t (list string))
  : result (PyDict.t (list string)) :=
  match filenames with
  | [] => Ok images_by_person
  | filename :: rest =>
      if PyStr.endswith_any (PyStr.lower filename) image_suffixes
      then
        person_id <- person_id_of filename pattern ;;
        let full_path := PyStr.join image_dir filename in
        let images_by_person :=
          if negb (PyDict.contains images_by_person person_id)
          then PyDict.set images_by_person person_id []
          else images_by_person in
        let images :=
          match PyDict.get images_by_person person_id with
          | Some l => l
          | None => []
          end in
        index_loop image_dir pattern rest
          (PyDict.set images_by_person person_id (images ++ [full_path])%list)
      else index_loop image_dir pattern rest images_by_person
  end.

Definition index_images_by_person (fs : filesystem) (image_dir pattern : string)
  : result (PyDict.t (list string)) :=
  if negb (os_path_exists fs image_dir)
  then Ok PyDict.empty
  else
    filenames <- os_listdir fs image_dir ;;
    index_loop image_dir pattern filenames PyDict.empty.
End Index.

End Utils.

(* ================================================================== *)
(** * app.py *)
(* ================================================================== *)

Module App.

(** An opened [cv2.VideoCapture]: the index it was opened on and the call
    that created it. *)
Record capture : Type := {
  cap_index : Z;
  cap_call : nat
}.

(** The camera as the retry loop sees it: does the [k]-th
    [cv2.VideoCapture(camera_index)] of the run come back opened? *)
Definition camera : Type := Z -> nat -> bool.

(** What a run of [initialize_camera] did: the value returned or the
    exception raised, the number of [VideoCapture] calls and the number of
    one-second sleeps. *)
Record run : Type := {
  outcome : result capture;
  opens : nat;
  sleeps : nat
}.

(** [range(n)] *)
Definition py_range (n : Z) : list nat := seq 0 (Z.to_nat n).

Fixpoint initialize_loop (cam : camera) (camera_index : Z)
         (attempts : list nat) (opens sleeps : nat) : run :=
  match attempts with
  | [] => {| outcome := Raise (SystemExit 1); opens := opens; sleeps := sleeps |}
  | attempt :: rest =>
      if cam camera_index opens
      then {| outcome := Ok {| cap_index := camera_index; cap_call := opens |};
              opens := S opens; sleeps := sleeps |}
      else initialize_loop cam camera_index rest (S opens) (S sleeps)
  end.

Definition default_max_retries : Z := 5.

Definition initialize_camera (cam : camera) (camera_index : Z)
           (max_retries : option Z) : run :=
  let max_retries :=
    match max_retries with Some n => n | None => default_max_retries end in
  initialize_loop cam camera_index (py_range max_retries) 0 0.


(** ** Configuration

    The module-level constants, read from the environment when the module is
    loaded, and the paths built from [BASE_DIR] with [os.path.join]. *)
Record config : Type := {
  BASE_DIR : string;
  CAMERA_INDEX : Z;
  VERIFICATION_THRESHOLD : pyfloat;
  IMG_SIZE : Z;
  EMBEDDING_DIM : Z
}.

Definition MODEL_PATH (cfg : config) : string :=
  PyStr.join (BASE_DIR cfg) "face_embedding_model_CLEAN.h5".

Definition REFERENCE_DIR (cfg : config) : string :=
  PyStr.join (PyStr.join (PyStr.join (BASE_DIR cfg) "data_extracted") "ref")
             "short_references_final".

Definition OUTPUT_DIR (cfg : config) : string :=
  PyStr.join (BASE_DIR cfg) "output".

(** ** What is drawn and printed *)

Definition point : Type := Z * Z.
Definition color : Type := Z * Z * Z.

Definition GREEN : color := (0, 255, 0)%Z.
Definition RED : color := (0, 0, 255)%Z.
Definition WHITE : color := (255, 255, 255)%Z.

(** The formatted strings, kept as what they are made of. *)
Inductive text : Type :=
| FaceLabel (person_id : string) (distance : pyfloat)
| FpsLabel (fps : Q)
| ThresholdLabel (threshold : pyfloat).

Inductive drawing : Type :=
| Rectangle (pt1 pt2 : point) (c : color) (thickness : Z)
| PutText (t : text) (org : point) (fontScale : Q) (c : color) (thickness : Z).

(** A frame and the drawings made on it, in order. *)
Record canvas : Type := {
  pixels : image;
  drawn : list drawing
}.

Definition copy (frame : image) : canvas := {| pixels := frame; drawn := [] |}.

Definition draw (frame : canvas) (d : drawing) : canvas :=
  {| pixels := pixels frame; drawn := (drawn frame ++ [d])%list |}.

(** [utils.draw_face_bbox], with [cv2.getTextSize(label, FONT, 0.6, 2)[0]]
    as [getTextSize]. *)
Definition draw_face_bbox (getTextSize : text -> Z * Z) (frame : canvas)
           (bbox : rect) (label : text) (c : color) (thickness : Z) : canvas :=
  let '(x, y, w, h) := bbox in
  let '(x, y, w, h) := (Z.of_nat x, Z.of_nat y, Z.of_nat w, Z.of_nat h) in
  let frame := draw frame (Rectangle (x, y) (x + w, y + h)%Z c thickness) in
  let label_size := getTextSize label in
  let frame :=
    draw frame (Rectangle (x, y - snd label_size - 10)%Z
                          (x + fst label_size, y)%Z c (-1)) in
  draw frame (PutText label (x, y - 5)%Z (6 # 10) WHITE 2).

Inductive event : Type :=
| FailedGrab
| Verified (person_id : string) (distance : pyfloat)
| UnknownPerson (distance : pyfloat)
| Shown (display_frame : canvas)
| Exiting
| SnapshotSaved (snapshot_path : string) (display_frame : canvas)
| Reloading
| Reloaded.

Section Application.
Context {vec : Type} `{NumPy vec} `{Cv2}.

(** ** Loading *)

(** [load_model]; [keras_load] is [keras.models.load_model(path,
    compile=False)] followed by the three reads of the model's attributes,
    [None] when any of them raises. *)
Definition load_model (fs : filesystem) (keras_load : string -> option (Model vec))
           (model_path : string) : result (Model vec) :=
  if negb (os_path_exists fs model_path)
  then Raise (SystemExit 1)
  else
    match keras_load model_path with
    | Some model => Ok model
    | None => Raise (SystemExit 1)
    end.

Definition load_gallery (cfg : config) (fs : filesystem) (model : Model vec)
  : result (PyDict.t vec) :=
  if negb (os_path_exists fs (REFERENCE_DIR cfg))
  then Raise (SystemExit 1)
  else
    reference_images <-
      Utils.index_images_by_person fs (REFERENCE_DIR cfg) "__" ;;
    match reference_images with
    | [] => Raise (SystemExit 1)
    | _ :: _ =>
        Ok (@Utils.build_gallery_embeddings vec _ model _
              reference_images (IMG_SIZE cfg))
    end.

(** ** The verification loop *)

(** The surroundings of a run: the file system at the [k]-th call of
    [load_gallery], whether [os.makedirs(path, exist_ok=True)] returns
    ([true]) or raises an [OSError], and the camera, the keyboard, the clock
    and the calendar, each by the number of earlier calls. *)
Record world : Type := {
  fs_at : nat -> filesystem;
  makedirs : string -> bool;
  keras_load : string -> option (Model vec);
  cam : camera;
  cap_read : nat -> option image;
  waitKey : nat -> Z;
  clock : nat -> Q;
  timestamp : nat -> string;
  getTextSize : text -> Z * Z
}.

(** The local variables of [run_verification_loop], the calls made so far,
    what was printed, shown and saved, and whether the capture was
    released and the windows closed. *)
Record state : Type := {
  frame_count : Z;
  fps : Q;
  fps_start_time : Q;
  gallery_embeddings : PyDict.t vec;
  reads : nat;
  keys : nat;
  times : nat;
  stamps : nat;
  loads : nat;
  log : list event;
  released : bool;
  windows_closed : bool
}.

(** A step of the loop reads and changes the state and may raise. *)
Definition M (A : Type) : Type := state -> result A * state.

Definition ret {A : Type} (a : A) : M A := fun s => (Ok a, s).

Definition throw {A : Type} (e : exn) : M A := fun s => (Raise e, s).

Definition sbind {A B : Type} (m : M A) (k : A -> M B) : M B :=
  fun s =>
    match m s with
    | (Ok a, s') => k a s'
    | (Raise e, s') => (Raise e, s')
    end.

Notation "x <~ m ;; k" := (sbind m (fun x => k))
  (at level 61, m at next level, right associativity).

Definition gets {A : Type} (f : state -> A) : M A := fun s => (Ok (f s), s).

Definition modify (f : state -> state) : M unit := fun s => (Ok tt, f s).

Definition lift {A : Type} (r : result A) : M A := fun s => (r, s).

Definition emit (e : event) : M unit :=
  modify (fun s =>
    {| frame_count := frame_count s; fps := fps s;
       fps_start_time := fps_start_time s;
       gallery_embeddings := gallery_embeddings s;
       reads := reads s; keys := keys s; times := times s;
       stamps := stamps s; loads := loads s;
       log := (log s ++ [e])%list;
       released := released s; windows_closed := windows_closed s |}).

(** [cap.read()] *)
Definition read_frame (w : world) : M (option image) :=
  fun s =>
    (Ok (cap_read w (reads s)),
     {| frame_count := frame_count s; fps := fps s;
        fps_start_time := fps_start_time s;
        gallery_embeddings := gallery_embeddings s;
        reads := S (reads s); keys := keys s; times := times s;
        stamps := stamps s; loads := loads s; log := log s;
        released := released s; windows_closed := windows_closed s |}).

(** [time.time()] *)
Definition time_time (w : world) : M Q :=
  fun s =>
    (Ok (clock w (times s)),
     {| frame_count := frame_count s; fps := fps s;
        fps_start_time := fps_start_time s;
        gallery_embeddings := gallery_embeddings s;
        reads := reads s; keys := keys s; times := S (times s);
        stamps := stamps s; loads := loads s; log := log s;
        released := released s; windows_closed := windows_closed s |}).

(** [cv2.waitKey(1)] *)
Definition wait_key (w : world) : M Z :=
  fun s =>
    (Ok (waitKey w (keys s)),
     {| frame_count := frame_count s; fps := fps s;
        fps_start_time := fps_start_time s;
        gallery_embeddings := gallery_embeddings s;
        reads := reads s; keys := S (keys s); times := times s;
        stamps := stamps s; loads := loads s; log := log s;
        released := released s; windows_closed := windows_closed s |}).

(** [datetime.now().strftime("%Y%m%d_%H%M%S")] *)
Definition now_stamp (w : world) : M string :=
  fun s =>
    (Ok (timestamp w (stamps s)),
     {| frame_count := frame_count s; fps := fps s;
        fps_start_time := fps_start_time s;
        gallery_embeddings := gallery_embeddings s;
        reads := reads s; keys := keys s; times := times s;
        stamps := S (stamps s); loads := loads s; log := log s;
        released := released s; windows_closed := windows_closed s |}).

(** [load_gallery(model)], on the file system of the moment. *)
Definition reload_gallery (w : world) (cfg : config) (model : Model vec)
  : M (PyDict.t vec) :=
  fun s =>
    (load_gallery cfg (fs_at w (loads s)) model,
     {| frame_count := frame_count s; fps := fps s;
        fps_start_time := fps_start_time s;
        gallery_embeddings := gallery_embeddings s;
        reads := reads s; keys := keys s; times := times s;
        stamps := stamps s; loads := S (loads s); log := log s;
        released := released s; windows_closed := windows_closed s |}).

Definition set_frame_count (n : Z) : M unit :=
  modify (fun s =>
    {| frame_count := n; fps := fps s;
       fps_start_time := fps_start_time s;
       gallery_embeddings := gallery_embeddings s;
       reads := reads s; keys := keys s; times := times s;
       stamps := stamps s; loads := loads s; log := log s;
       released := released s; windows_closed := windows_closed s |}).

Definition set_fps (x : Q) : M unit :=
  modify (fun s =>
    {| frame_count := frame_count s; fps := x;
       fps_start_time := fps_start_time s;
       gallery_embeddings := gallery_embeddings s;
       reads := reads s; keys := keys s; times := times s;
       stamps := stamps s; loads := loads s; log := log s;
       released := released s; windows_closed := windows_closed s |}).

Definition set_fps_start_time (x : Q) : M unit :=
  modify (fun s =>
    {| frame_count := frame_count s; fps := fps s;
       fps_start_time := x;
       gallery_embeddings := gallery_embeddings s;
       reads := reads s; keys := keys s; times := times s;
       stamps := stamps s; loads := loads s; log := log s;
       released := released s; windows_closed := windows_closed s |}).

Definition set_gallery (g : PyDict.t vec) : M unit :=
  modify (fun s =>
    {| frame_count := frame_count s; fps := fps s;
       fps_start_time := fps_start_time s;
       gallery_embeddings := g;
       reads := reads s; keys := keys s; times := times s;
       stamps := stamps s; loads := loads s; log := log s;
       released := released s; windows_closed := windows_closed s |}).

(** [cap.release()] and [cv2.destroyAllWindows()] *)
Definition cleanup : M unit :=
  modify (fun s =>
    {| frame_count := frame_count s; fps := fps s;
       fps_start_time := fps_start_time s;
       gallery_embeddings := gallery_embeddings s;
       reads := reads s; keys := keys s; times := times s;
       stamps := stamps s; loads := loads s; log := log s;
       released := true; windows_closed := true |}).

(** [30 / elapsed] on floats: a zero divisor raises. *)
Definition divide_30 (elapsed : Q) : M Q :=
  if Qeq_bool elapsed 0
  then throw (ZeroDivisionError "float division by zero")
  else ret (30 / elapsed)%Q.

Definition ord_q : Z := 113.
Definition ord_s : Z := 115.
Definition ord_r : Z := 114.

Inductive flow : Type := Continue | Break.

(** The frame counter and, every thirtieth frame, the frame rate. *)
Definition update_fps (w : world) : M unit :=
  n <~ gets frame_count ;;
  _ <~ set_frame_count (n + 1) ;;
  if ((n + 1) mod 30 =? 0)%Z
  then
    t <~ time_time w ;;
    t0 <~ gets fps_start_time ;;
    x <~ divide_30 (t - t0) ;;
    _ <~ set_fps x ;;
    t' <~ time_time w ;;
    set_fps_start_time t'
  else ret tt.

(** Detection and identification of one frame: the display frame with the
    box of the face, if there is one, and one line printed for it. *)
Definition annotate (w : world) (cfg : config) (model : Model vec)
           (frame : image) (display_frame : canvas) : M canvas :=
  let '(cropped_face, bbox) := Utils.detect_and_crop_face frame None in
  match cropped_face, bbox with
  | Some cropped_face, Some bbox =>
      gallery <~ gets gallery_embeddings ;;
      let '(person_id, distance, status) :=
        @Utils.identify_face_from_frame vec _ model _
          (Some cropped_face) gallery
          (VERIFICATION_THRESHOLD cfg) (IMG_SIZE cfg) in
      let label := FaceLabel person_id distance in
      let c := match status with Utils.MATCH => GREEN | Utils.REJECT => RED end in
      let display_frame :=
        draw_face_bbox (getTextSize w) display_frame bbox label c 2 in
      _ <~ emit (match status with
                 | Utils.MATCH => Verified person_id distance
                 | Utils.REJECT => UnknownPerson distance
                 end) ;;
      ret display_frame
  | _, _ => ret display_frame
  end.

(** The two lines of text, the window and the keyboard. *)
Definition show_and_poll (w : world) (cfg : config) (model : Model vec)
           (display_frame : canvas) : M flow :=
  x <~ gets fps ;;
  let display_frame :=
    draw display_frame (PutText (FpsLabel x) (10, 30)%Z (7 # 10) WHITE 2) in
  let display_frame :=
    draw display_frame
         (PutText (ThresholdLabel (VERIFICATION_THRESHOLD cfg))
                  (10, 60)%Z (6 # 10) WHITE 2) in
  _ <~ emit (Shown display_frame) ;;
  k <~ wait_key w ;;
  let key := Z.land k 255 in
  if (key =? ord_q)%Z then
    _ <~ emit Exiting ;; ret Break
  else if (key =? ord_s)%Z then
    stamp <~ now_stamp w ;;
    let snapshot_path :=
      PyStr.join (OUTPUT_DIR cfg) ("snapshot_" ++ stamp ++ ".jpg") in
    _ <~ emit (SnapshotSaved snapshot_path display_frame) ;;
    ret Continue
  else if (key =? ord_r)%Z then
    _ <~ emit Reloading ;;
    g <~ reload_gallery w cfg model ;;
    _ <~ set_gallery g ;;
    _ <~ emit Reloaded ;;
    ret Continue
  else ret Continue.

(** One turn of the [while True] loop. *)
Definition loop_body (w : world) (cfg : config) (model : Model vec) : M flow :=
  ret_frame <~ read_frame w ;;
  match ret_frame with
  | None => _ <~ emit FailedGrab ;; ret Break
  | Some frame =>
      _ <~ update_fps w ;;
      display_frame <~ annotate w cfg model frame (copy frame) ;;
      show_and_poll w cfg model display_frame
  end.

(** How far a run got: still in the loop when the fuel was spent, or
    through. *)
Inductive progress : Type := Running | Done.

Fixpoint loop (w : world) (cfg : config) (model : Model vec) (fuel : nat)
  : M progress :=
  match fuel with
  | O => ret Running
  | S fuel' =>
      f <~ loop_body w cfg model ;;
      match f with
      | Break => ret Done
      | Continue => loop w cfg model fuel'
      end
  end.

(** The state at the first line of [run_verification_loop]. *)
Definition enter (gallery : PyDict.t vec) (s : state) : state :=
  {| frame_count := 0; fps := 0;
     fps_start_time := fps_start_time s;
     gallery_embeddings := gallery;
     reads := reads s; keys := keys s; times := times s;
     stamps := stamps s; loads := loads s; log := log s;
     released := released s; windows_closed := windows_closed s |}.

Definition run_verification_loop (w : world) (cfg : config) (model : Model vec)
           (gallery : PyDict.t vec) (fuel : nat) : M progress :=
  _ <~ modify (enter gallery) ;;
  t <~ time_time w ;;
  _ <~ set_fps_start_time t ;;
  p <~ loop w cfg model fuel ;;
  match p with
  | Running => ret Running
  | Done => _ <~ cleanup ;; ret Done
  end.

(** ** main *)

Definition boot : state :=
  {| frame_count := 0; fps := 0; fps_start_time := 0;
     gallery_embeddings := [];
     reads := 0; keys := 0; times := 0; stamps := 0; loads := 0;
     log := []; released := false; windows_closed := false |}.

(** What a run of [main] comes to: the exit status of the process when it
    ends ([None] while the loop is still running), the number of
    [VideoCapture] calls, and the final state. *)
Record main_run : Type := {
  exit_status : option Z;
  camera_opens : nat;
  final : state
}.

(** The exit status an exception leaves the interpreter with. *)
Definition status_of (e : exn) : Z :=
  match e with
  | SystemExit code => code
  | _ => 1
  end.

Definition main (w : world) (cfg : config) (fuel : nat) : main_run :=
  if negb (makedirs w (OUTPUT_DIR cfg))
  then {| exit_status := Some 1%Z; camera_opens := 0; final := boot |}
  else
  match load_model (fs_at w 0) (keras_load w) (MODEL_PATH cfg) with
  | Raise e => {| exit_status := Some (status_of e); camera_opens := 0; final := boot |}
  | Ok model =>
      match reload_gallery w cfg model boot with
      | (Raise e, s) =>
          {| exit_status := Some (status_of e); camera_opens := 0; final := s |}
      | (Ok gallery, s) =>
          let r := initialize_camera (cam w) (CAMERA_INDEX cfg) None in
          match outcome r with
          | Raise e =>
              {| exit_status := Some (status_of e);
                 camera_opens := opens r; final := s |}
          | Ok cap =>
              match run_verification_loop w cfg model gallery fuel s with
              | (Ok Running, s') =>
                  {| exit_status := None; camera_opens := opens r; final := s' |}
              | (Ok Done, s') =>
                  {| exit_status := Some 0%Z; camera_opens := opens r;
                     final := snd (cleanup s') |}
              | (Raise (SystemExit code), s') =>
                  {| exit_status := Some code; camera_opens := opens r;
                     final := snd (cleanup s') |}
              | (Raise _, s') =>
                  {| exit_status := Some 0%Z; camera_opens := opens r;
                     final := snd (cleanup s') |}
              end
          end
      end
  end.

End Application.
Arguments world : clear implicits.
Arguments state : clear implicits.
Arguments M : clear implicits.
Arguments main_run : clear implicits.

End App.

(* ================================================================== *)
(** * camera_utils.py *)
(* ================================================================== *)

Module CameraUtils.

(** Everything [capture_image] asks of its surroundings.  The clock, the
    camera and the keyboard are indexed by the number of earlier calls:
    [clock k] is what the [k]-th [time.time()] returns, [cap_read k] the
    frame of the [k]-th [cap.read()] ([None] when [ret] is false) and
    [waitKey k] the [k]-th [cv2.waitKey(1)].  [cv2_imwrite filename frame]
    is what [cv2.imwrite] does with the disk as it is: it returns True
    after writing the file, returns False without writing (as for a
    directory that does not exist), or raises [cv2.error] (as for a name
    without a known extension). *)
Record world : Type := {
  in_colab : bool;
  colab_capture : string -> Q -> result string;
  isOpened : Z -> bool;
  clock : nat -> Q;
  cap_read : nat -> option image;
  waitKey : nat -> Z;
  cv2_imwrite : string -> image -> result bool
}.

(** The calls made so far and the files written. *)
Record state : Type := {
  time_calls : nat;
  read_calls : nat;
  key_calls : nat;
  released : bool;
  written : list (string * image)
}.

Definition initial : state :=
  {| time_calls := 0; read_calls := 0; key_calls := 0;
     released := false; written := [] |}.

Definition tick_time (s : state) : state :=
  {| time_calls := S (time_calls s); read_calls := read_calls s;
     key_calls := key_calls s; released := released s; written := written s |}.

Definition tick_read (s : state) : state :=
  {| time_calls := time_calls s; read_calls := S (read_calls s);
     key_calls := key_calls s; released := released s; written := written s |}.

Definition tick_key (s : state) : state :=
  {| time_calls := time_calls s; read_calls := read_calls s;
     key_calls := S (key_calls s); released := released s; written := written s |}.

Definition release (s : state) : state :=
  {| time_calls := time_calls s; read_calls := read_calls s;
     key_calls := key_calls s; released := true; written := written s |}.

(** The file that a successful [cv2.imwrite] leaves. *)
Definition record_write (filename : string) (frame : image) (s : state) : state :=
  {| time_calls := time_calls s; read_calls := read_calls s;
     key_calls := key_calls s; released := released s;
     written := (written s ++ [(filename, frame)])%list |}.

(** [cv2.imwrite(filename, frame)]: the value the call returns, which the
    code does not look at. *)
Definition imwrite (w : world) (filename : string) (frame : image) (s : state)
  : result bool * state :=
  match cv2_imwrite w filename frame with
  | Ok true => (Ok true, record_write filename frame s)
  | Ok false => (Ok false, s)
  | Raise e => (Raise e, s)
  end.

Definition ord_c : Z := 99.
Definition ord_q : Z := 113.

(** The [while] loop.  [None] is a loop still running when the fuel is
    spent; otherwise the loop was left, by its condition or by [break]
    ([Ok frame]) or by the exception of the cancel key. *)
Fixpoint capture_loop (w : world) (timeout : Q) (interactive : bool)
         (start : Q) (fuel : nat) (frame : option image) (s : state)
  : option (result (option image) * state) :=
  match fuel with
  | O => None
  | S fuel' =>
      let now := clock w (time_calls s) in
      let s := tick_time s in
      if PyFloat.Qltb (now - start) timeout
      then
        let ret_tmp := cap_read w (read_calls s) in
        let s := tick_read s in
        match ret_tmp with
        | None => capture_loop w timeout interactive start fuel' frame s
        | Some tmp =>
            let frame := Some tmp in
            if interactive
            then
              let key := Z.land (waitKey w (key_calls s)) 255 in
              let s := tick_key s in
              if (key =? ord_c)%Z then Some (Ok frame, s)
              else if (key =? ord_q)%Z
                   then Some (Raise (Exception "Capture cancelled by user"), release s)
                   else capture_loop w timeout interactive start fuel' frame s
            else Some (Ok frame, s)
        end
      else Some (Ok frame, s)
  end.

Definition capture_image (w : world) (filename : string) (camera_index : Z)
           (timeout : Q) (interactive : bool) (quality : Q) (fuel : nat)
  : option (result string * state) :=
  if in_colab w
  then Some (colab_capture w filename quality, initial)
  else if negb (isOpened w camera_index)
  then Some (Raise (Exception "Could not open webcam"), initial)
  else
    let start := clock w (time_calls initial) in
    let s := tick_time initial in
    match capture_loop w timeout interactive start fuel None s with
    | None => None
    | Some (Raise e, s) => Some (Raise e, s)
    | Some (Ok frame, s) =>
        let s := release s in
        match frame with
        | None => Some (Raise (Exception "Capture failed: no frame received from webcam"), s)
        | Some frame =>
            match imwrite w filename frame s with
            | (Ok _, s) => Some (Ok filename, s)
            | (Raise e, s) => Some (Raise e, s)
            end
        end
    end.

End CameraUtils.

(* ================================================================== *)
(** * trt_inference.py *)
(* ================================================================== *)

Module TrtInference.

(** One binding of a deserialized engine: what [get_binding_name],
    [binding_is_input] and [get_binding_shape] answer for its index. *)
Record binding : Type := {
  binding_name : string;
  binding_is_input : bool;
  binding_shape : result (list Z)
}.

Record engine : Type := {
  bindings : list binding
}.

(** The surroundings of the constructor: whether the guarded import of
    [tensorrt] and [pycuda] went through ([trt is not None]), the file
    system, and [runtime.deserialize_cuda_engine] on the bytes of a file
    ([None] as TensorRT returns it for bytes it cannot deserialize). *)
Record host : Type := {
  trt_imported : bool;
  fs : filesystem;
  deserialize_cuda_engine : string -> option engine
}.

(** The fields of a constructed [TRTInfer] that the constructor computes. *)
Record TRTInfer : Type := {
  self_engine_path : string;
  self_engine : engine;
  self_bindings : list string;
  self_input_binding : option string;
  self_input_shape : option (Z * Z * Z)
}.

Definition _normalize_binding_shape (binding_shape : list Z) : option (Z * Z * Z) :=
  match binding_shape with
  | [_; c; h; w] => Some (h, w, c)
  | [c; h; w] => Some (h, w, c)
  | _ => None
  end.

(** [open(engine_path, 'rb')] on a path that exists. *)
Definition open_rb (h : host) (path : string) : result unit :=
  match fs h path with
  | RegularFile => Ok tt
  | Directory _ => Raise (IsADirectoryError path)
  | Missing => Raise (FileNotFoundError path)
  end.

(** The first loop over the bindings: the names, in order. *)
Fixpoint collect_bindings (bs : list binding) : result (list string) :=
  match bs with
  | [] => Ok []
  | b :: rest =>
      _ <- binding_shape b ;;
      names <- collect_bindings rest ;;
      Ok (binding_name b :: names)
  end.

(** The second loop: the first input binding and the local variable [bs],
    which is assigned only when the loop finds an input ([None]: never
    assigned). *)
Fixpoint detect_input (bs : list binding)
  : option string * option (option (list Z)) :=
  match bs with
  | [] => (None, None)
  | b :: rest =>
      if binding_is_input b
      then (Some (binding_name b),
            Some (match binding_shape b with
                  | Ok shape => Some shape
                  | Raise _ => None
                  end))
      else detect_input rest
  end.

Definition init (h : host) (engine_path : string)
           (input_shape : option (Z * Z * Z)) : result TRTInfer :=
  if negb (trt_imported h)
  then Raise (RuntimeError "TensorRT / PyCUDA import failed")
  else if negb (os_path_exists (fs h) engine_path)
  then Raise (FileNotFoundError "Engine file not found")
  else
    _ <- open_rb h engine_path ;;
    match deserialize_cuda_engine h engine_path with
    | None => Raise (RuntimeError "Failed to deserialize engine")
    | Some eng =>
        names <- collect_bindings (bindings eng) ;;
        let '(input_binding, bs) := detect_input (bindings eng) in
        shape <-
          match input_shape with
          | Some shape => Ok (Some shape)
          | None =>
              match bs with
              | None => Raise (UnboundLocalError "bs")
              | Some (Some shape) => Ok (_normalize_binding_shape shape)
              | Some None => Ok None
              end
          end ;;
        Ok {| self_engine_path := engine_path;
              self_engine := eng;
              self_bindings := names;
              self_input_binding := input_binding;
              self_input_shape := shape |}
    end.

End TrtInference.

(* ================================================================== *)
(** * test_setup.py: the checks of the files on disk *)
(* ================================================================== *)

Module TestSetup.

(** What the checks print is left out: a check is its verdict.
    [os.path.getsize] is only printed. *)
Definition check_file (fs : filesystem) (filepath : string) : bool :=
  if os_path_exists fs filepath then true else false.

Definition check_directory (fs : filesystem) (dirpath : string) (min_files : Z)
  : result bool :=
  if negb (os_path_exists fs dirpath)
  then Ok false
  else
    listing <- os_listdir fs dirpath ;;
    let files :=
      filter (fun f => PyStr.endswith_any (PyStr.lower f) [".jpg"; ".jpeg"; ".png"])
             listing in
    if (Z.of_nat (List.length files) >=? min_files)%Z then Ok true else Ok false.

(** The dictionary of [check_docker_files], in the order it is written. *)
Definition docker_files : PyDict.t string :=
  [ ("Dockerfile", "Dockerfile");
    ("docker-compose.yml", "Docker Compose configuration");
    ("app.py", "Main application");
    ("utils.py", "Utility functions");
    ("requirements-jetson.txt", "Jetson requirements");
    ("build_and_run_jetson.sh", "Build script");
    (".dockerignore", "Docker ignore file") ].

(** The [for] loop of [check_docker_files]: every file is checked, also
    after one was found missing. *)
Fixpoint check_each (fs : filesystem) (files : list (string * string))
         (all_exist : bool) : bool :=
  match files with
  | [] => all_exist
  | (filename, description) :: rest =>
      if negb (check_file fs filename)
      then check_each fs rest false
      else check_each fs rest all_exist
  end.

Definition check_docker_files (fs : filesystem) : bool :=
  check_each fs (PyDict.items docker_files) true.

Definition check_model_files (fs : filesystem) : bool :=
  let all_exist := true in
  let all_exist :=
    if negb (check_file fs "face_embedding_model_CLEAN.h5")
    then false else all_exist in
  let warned := negb (check_file fs "model_architecture.json") in
  all_exist.

Definition ref_dir : string := "data_extracted/ref/short_references_final".

Definition check_data_files (fs : filesystem) : result bool :=
  let all_exist := true in
  found <- check_directory fs ref_dir 2 ;;
  Ok (if negb found then false else all_exist).

End TestSetup.

(* ================================================================== *)
(** * A small concrete setting

    One-dimensional embeddings over the rationals, where the Euclidean
    distance is [|a - b|] exactly, a feature extractor that reads one
    component, and a nearest-neighbour [resize]; the statements below are
    run on it. *)
(* ================================================================== *)

Module Sample.

Definition mean (l : list Q) : Q :=
  fold_right Qplus 0 l / inject_Z (Z.of_nat (List.length l)).

#[global] Instance numpy_line : NumPy Q := {|
  np_sub := Qminus;
  np_linalg_norm := fun x => PyFloat.fin (Qabs x);
  np_mean := mean;
  np_weak_float32 := false
|}.

(** The same under NumPy 2, where a threshold is rounded to [float32]
    before a distance is compared with it. *)
Definition numpy2_line : NumPy Q := {|
  np_sub := Qminus;
  np_linalg_norm := fun x => PyFloat.fin (Qabs x);
  np_mean := mean;
  np_weak_float32 := true
|}.

(** The first component of the first pixel. *)
#[global] Instance model_line : Model Q := {|
  predict := fun img => hd 0 (hd [] (hd [] img))
|}.

Definition nearest {A : Type} (n : nat) (l : list A) (d : A) : list A :=
  map (fun i => nth (i * List.length l / n) l d) (seq 0 n).

Definition resize (img : image) (dsize : Z * Z) : image :=
  let '(w, h) := dsize in
  map (fun row => nearest (Z.to_nat w) row []) (nearest (Z.to_nat h) img []).

Definition black : image := [[[x00; x00; x00]]].
Definition grey : image := [[[x80; x80; x80]; [x80; x80; x80]]].
Definition white : image := [[[xff; xff; xff]]].

Definition imread (path : string) : option image :=
  if String.eqb path "ref/ann__1.jpg" then Some black
  else if String.eqb path "ref/ann__2.jpg" then Some white
  else if String.eqb path "ref/bob.png" then Some grey
  else None.

(** An image without rows, or without pixels in its rows. *)
Definition empty (img : image) : bool :=
  match img with
  | [] => true
  | [] :: _ => true
  | _ => false
  end.

Definition resize_raises (img : image) (dsize : Z * Z) : bool :=
  empty img || (fst dsize <=? 0)%Z || (snd dsize <=? 0)%Z.

#[global] Instance cv2_sample : Cv2 := {|
  cv2_resize := resize;
  cv2_resize_raises := resize_raises;
  cv2_imread := imread;
  cv2_cvtColor_BGR2RGB := map (map (@rev byte));
  cv2_cvtColor_BGR2GRAY := map (map (hd x00));
  cv2_data_haarcascades := "/usr/share/opencv4/haarcascades/";
  detectMultiScale := fun _ gray =>
    match gray with
    | [] => []
    | _ :: _ => [(0, 0, 1, 1); (0, 0, 2, 1); (1, 0, 1, 2)]%nat
    end
|}.



Definition gallery : PyDict.t Q := [("ann", 1 # 2); ("bob", 2 # 1)].

(** [cv2.imwrite] on a disk whose only directory is the current one: a
    name in another directory is not written, and a name that ends in
    neither .jpg nor .png has no encoder. *)
Definition imwrite (filename : string) (frame : image) : result bool :=
  if negb (PyStr.endswith_any (PyStr.lower filename) [".jpg"; ".png"])
  then Raise (Exception "cv2.error")
  else if PyStr.contains filename "/" then Ok false
  else Ok true.

(** A webcam whose first two reads fail, under a clock that advances one
    second per reading. *)
Definition webcam : CameraUtils.world := {|
  CameraUtils.in_colab := false;
  CameraUtils.colab_capture := fun filename _ => Ok filename;
  CameraUtils.isOpened := fun camera_index => (camera_index =? 0)%Z;
  CameraUtils.clock := fun k => inject_Z (Z.of_nat k);
  CameraUtils.cap_read := fun k => if (k <? 2)%nat then None else Some grey;
  CameraUtils.waitKey := fun _ => (-1)%Z;
  CameraUtils.cv2_imwrite := imwrite
|}.


(** The application as deployed, and a disk whose reference directory holds
    one image file (which [imread] above cannot read) and a text file. *)
Definition deployment : App.config := {|
  App.BASE_DIR := "/app";
  App.CAMERA_INDEX := 0;
  App.VERIFICATION_THRESHOLD := PyFloat.fin (6 # 10);
  App.IMG_SIZE := 128;
  App.EMBEDDING_DIM := 64
|}.

Definition disk : filesystem := fun path =>
  if String.eqb path "/app/data_extracted/ref/short_references_final"
  then Directory ["ann__1.jpg"; "readme.md"]
  else if String.eqb path "/app/face_embedding_model_CLEAN.h5"
  then RegularFile
  else Missing.

(** An engine whose only binding is an output, in a readable file. *)
Definition output_only : TrtInference.engine := {|
  TrtInference.bindings :=
    [ {| TrtInference.binding_name := "embedding";
         TrtInference.binding_is_input := false;
         TrtInference.binding_shape := Ok [1; 64]%Z |} ]
|}.

(** The same engine with an image input in front. *)
Definition extractor : TrtInference.engine := {|
  TrtInference.bindings :=
    {| TrtInference.binding_name := "image";
       TrtInference.binding_is_input := true;
       TrtInference.binding_shape := Ok [1; 3; 128; 128]%Z |}
    :: TrtInference.bindings output_only
|}.

Definition jetson : TrtInference.host := {|
  TrtInference.trt_imported := true;
  TrtInference.fs := fun path =>
    if String.eqb path "constant.trt" || String.eqb path "model.trt"
    then RegularFile else Missing;
  TrtInference.deserialize_cuda_engine := fun path =>
    if String.eqb path "constant.trt" then Some output_only else Some extractor
|}.

Definition reference_dir : filesystem := fun path =>
  if String.eqb path "ref"
  then Directory ["ann__1.jpg"; "notes.txt"; "bob.PNG"; "ann__2.jpeg"]
  else Missing.

(** The directory the checks are run from, with the application installed
    under /app: two reference images and no architecture file. *)
Definition workdir : filesystem := fun path =>
  if String.eqb path "data_extracted/ref/short_references_final"
     || String.eqb path "/app/data_extracted/ref/short_references_final"
  then Directory ["ann__1.jpg"; "readme.md"; "bob.PNG"]
  else if String.eqb path "model_architecture.json" then Missing
  else if String.eqb path "output" then Directory []
  else RegularFile.

(** The surroundings of the application: a disk that does not change, a
    camera that opens at the third attempt and delivers [frames] frames, a
    keyboard on which 'q' is pressed at the poll [quit_at] and nothing
    otherwise, and a clock that advances one second per reading. *)
Definition studio (fs : filesystem) (frames quit_at : nat) : App.world Q := {|
  App.fs_at := fun _ => fs;
  App.makedirs := fun _ => true;
  App.keras_load := fun path =>
    if String.eqb path "/app/face_embedding_model_CLEAN.h5"
    then Some model_line else None;
  App.cam := fun _ k => (2 <=? k)%nat;
  App.cap_read := fun k => if (k <? frames)%nat then Some grey else None;
  App.waitKey := fun k => if (k =? quit_at)%nat then 113%Z else (-1)%Z;
  App.clock := fun k => inject_Z (Z.of_nat k);
  App.timestamp := fun _ => "20240101_120000";
  App.getTextSize := fun _ => (120, 18)%Z
|}.

(** The same surroundings with somebody who deletes or replaces things: the
    disk is [disk] when the program starts and [fs_later] from then on,
    frames keep arriving, and [key] is pressed at every poll. *)
Definition operator (fs_later : filesystem) (key : Z) : App.world Q := {|
  App.fs_at := fun k => if (k =? 0)%nat then disk else fs_later;
  App.makedirs := fun _ => true;
  App.keras_load := fun path =>
    if String.eqb path "/app/face_embedding_model_CLEAN.h5"
    then Some model_line else None;
  App.cam := fun _ k => (2 <=? k)%nat;
  App.cap_read := fun _ => Some grey;
  App.waitKey := fun _ => key;
  App.clock := fun k => inject_Z (Z.of_nat k);
  App.timestamp := fun _ => "20240101_120000";
  App.getTextSize := fun _ => (120, 18)%Z
|}.

End Sample.

(* ================================================================== *)
(** * Vocabulary of the statements *)
(* ================================================================== *)

Section Vocabulary.
Import Utils.
Context {vec : Type} `{NumPy vec} `{Model vec} `{Cv2}.

(** How the person and the status of a result hang together: a REJECT
    carries "UNKNOWN", a MATCH carries a key of the gallery, and when
    "UNKNOWN" is not itself a key the status is MATCH exactly when the
    person is not "UNKNOWN". *)
Definition verdict_ok (gallery : PyDict.t vec) (r : string * pyfloat * status) : Prop :=
  let '(person, _, st) := r in
  (st = REJECT -> person = UNKNOWN) /\
  (st = MATCH -> In person (PyDict.keys gallery)) /\
  (~ In UNKNOWN (PyDict.keys gallery) -> (st = MATCH <-> person <> UNKNOWN)).

(** The embeddings of the images of [paths] that load, in order. *)
Definition loadable_embeddings (paths : list string) (img_size : Z) : list vec :=
  flat_map (fun path =>
              match load_image path img_size with
              | Some img => [predict img]
              | None => []
              end) paths.


(** [frame[y:y+h, x:x+w]] *)
Definition crop (frame : image) (bbox : rect) : image :=
  let '(x, y, w, h) := bbox in
  map (slice x (x + w)) (slice y (y + h) frame).

(** A file name [index_images_by_person] keeps. *)
Definition is_image (filename : string) : bool :=
  PyStr.endswith_any (PyStr.lower filename) image_suffixes.

(** The part of [s] before the first occurrence of [pattern] (all of [s]
    when there is none). *)
Fixpoint before_first (pattern s : string) : string :=
  match s with
  | EmptyString => EmptyString
  | String c s' =>
      if String.prefix pattern s then EmptyString
      else String c (before_first pattern s')
  end.

(** A string of dots, the empty one included. *)
Fixpoint only_dots (s : string) : bool :=
  match s with
  | EmptyString => true
  | String c s' => Ascii.eqb c PyStr.extsep && only_dots s'
  end.

(** The person a file name stands for, in the words of the description:
    what comes before the first separator if there is one, the name
    without its extension otherwise. *)
Definition person_of (filename pattern : string) : string :=
  if PyStr.contains filename pattern
  then before_first pattern filename
  else fst (PyStr.splitext filename).

(** The paths of the kept files of a listing that stand for [person_id],
    in the order of the listing. *)
Definition images_of (image_dir pattern : string) (listing : list string)
           (person_id : string) : list string :=
  map (PyStr.join image_dir)
      (filter (fun filename =>
                 is_image filename
                 && String.eqb (person_of filename pattern) person_id)
              listing).

(** The entry of a person after more paths were appended to it: untouched
    when there are none, created when it was missing. *)
Definition extended (old : option (list string)) (new : list string)
  : option (list string) :=
  match new with
  | [] => old
  | _ :: _ => Some ((match old with Some l => l | None => [] end) ++ new)%list
  end.

(** Is the [i]-th test of the capture loop, [time.time() - start < timeout],
    passed?  ([start] is the clock's first reading.) *)
Definition within (w : CameraUtils.world) (timeout : Q) (i : nat) : bool :=
  PyFloat.Qltb (CameraUtils.clock w (S i) - CameraUtils.clock w 0) timeout.

(** The first valid frame among the reads [i], ..., [i + n - 1]. *)
Fixpoint first_frame (read : nat -> option image) (i n : nat) : option image :=
  match n with
  | O => None
  | S n' =>
      match read i with
      | Some frame => Some frame
      | None => first_frame read (S i) n'
      end
  end.

(** Does one of the images of [paths] load? *)
Definition has_loadable (paths : list string) (img_size : Z) : bool :=
  existsb (fun path =>
             match load_image path img_size with
             | Some _ => true
             | None => false
             end) paths.

(** The number of paths a mapping from persons to image paths holds. *)
Definition total_paths (d : PyDict.t (list string)) : nat :=
  list_sum (map (fun entry => List.length (snd entry)) d).

(** The paths a person has in a mapping, none when the person is missing. *)
Definition entry_of (d : PyDict.t (list string)) (k : string) : list string :=
  match PyDict.get d k with Some l => l | None => [] end.


(** Every component of a preprocessed image. *)
Definition components (img : float_image) : list Q := List.concat (List.concat img).

(** An image of [rows] rows of [cols] pixels each. *)
Definition has_shape {A : Type} (img : list (list A)) (rows cols : Z) : Prop :=
  Z.of_nat (List.length img) = rows /\
  Forall (fun row => Z.of_nat (List.length row) = cols) img.
End Vocabulary.

Section ApplicationVocabulary.
Context {vec : Type} `{NumPy vec} `{Cv2}.

(** What a step of the application establishes from a state: [Q] on the
    value and the new state when it returns, [E] on the exception and the
    new state when it raises. *)
Definition wp {A : Type} (m : App.M vec A)
           (Q : A -> App.state vec -> Prop) (E : exn -> App.state vec -> Prop)
           (s : App.state vec) : Prop :=
  match m s with
  | (Ok a, s') => Q a s'
  | (Raise e, s') => E e s'
  end.

(** A person with a reference: a key of the gallery the loop was entered
    with, or the person of an image file that the reference directory held
    at one of the calls [lo], ..., [hi - 1] of [load_gallery]. *)
Definition referenced (w : App.world vec) (cfg : App.config)
           (gallery : PyDict.t vec) (lo hi : nat) (person_id : string) : Prop :=
  In person_id (PyDict.keys gallery) \/
  exists k listing filename,
    (lo <= k < hi)%nat /\
    App.fs_at w k (App.REFERENCE_DIR cfg) = Directory listing /\
    In filename listing /\ is_image filename = true /\
    person_of filename "__" = person_id.

(** Only persons with a reference are in the gallery in use and among the
    persons printed as verified, the references being those of the calls of
    [load_gallery] from [lo] on that were made. *)
Definition only_referenced (w : App.world vec) (cfg : App.config)
           (gallery : PyDict.t vec) (lo : nat) (s : App.state vec) : Prop :=
  (lo <= App.loads s)%nat /\
  (forall person_id,
      In person_id (PyDict.keys (App.gallery_embeddings s)) ->
      referenced w cfg gallery lo (App.loads s) person_id) /\
  (forall person_id distance,
      In (App.Verified person_id distance) (App.log s) ->
      referenced w cfg gallery lo (App.loads s) person_id).

(** The frames shown so far. *)
Fixpoint count_shown (log : list App.event) : nat :=
  match log with
  | [] => 0
  | App.Shown _ :: rest => S (count_shown rest)
  | _ :: rest => count_shown rest
  end.

(** The start of the current frame-rate interval is an earlier reading of the
    clock. *)
Definition clock_started (w : App.world vec) (s : App.state vec) : Prop :=
  exists j, (j < App.times s)%nat /\ App.fps_start_time s = App.clock w j.

(** The key a poll comes to: [cv2.waitKey(1) & 0xFF]. *)
Definition key_at (w : App.world vec) (k : nat) : Z := Z.land (App.waitKey w k) 255.

(** [s'] is [s] after [n] turns of the loop in which the gallery was not
    reloaded: [n] more frames read, counted and shown, [n] more polls of the
    keyboard. *)
Definition turns (n : nat) (s s' : App.state vec) : Prop :=
  App.frame_count s' = (App.frame_count s + Z.of_nat n)%Z /\
  App.reads s' = (App.reads s + n)%nat /\
  App.keys s' = (App.keys s + n)%nat /\
  count_shown (App.log s') = (count_shown (App.log s) + n)%nat /\
  App.gallery_embeddings s' = App.gallery_embeddings s /\
  App.loads s' = App.loads s /\
  App.released s' = App.released s /\
  App.windows_closed s' = App.windows_closed s.

(** The program cannot start: the output directory cannot be made, the
    model file is missing or Keras cannot load it, or the reference
    directory is not a directory with an image file in it. *)
Definition startup_fails (w : App.world vec) (cfg : App.config) : Prop :=
  App.makedirs w (App.OUTPUT_DIR cfg) = false \/
  App.fs_at w 0 (App.MODEL_PATH cfg) = Missing \/
  App.keras_load w (App.MODEL_PATH cfg) = None \/
  forall listing,
    App.fs_at w 0 (App.REFERENCE_DIR cfg) = Directory listing ->
    forall filename, In filename listing -> is_image filename = false.
End ApplicationVocabulary.

(* ================================================================== *)
(** * The order of floats *)
(* ================================================================== *)

Module PyFloatFacts.
Import PyFloat.

Lemma Qltb_lt (x y : Q) : Qltb x y = true <-> (x < y)%Q.
Proof.
  unfold Qltb. rewrite negb_true_iff.
  split; intro Hxy.
  - apply Qnot_le_lt. intro Hle. apply Qle_bool_iff in Hle. congruence.
  - destruct (Qle_bool y x) eqn:E; [|reflexivity].
    apply Qle_bool_iff in E. exfalso. exact (Qlt_not_le _ _ Hxy E).
Qed.

Lemma Qltb_ge (x y : Q) : Qltb x y = false <-> (y <= x)%Q.
Proof.
  unfold Qltb. rewrite negb_false_iff. apply Qle_bool_iff.
Qed.

Lemma ltb_inf_l (x : t) : ltb inf x = false.
Proof. destruct x; reflexivity. Qed.

Lemma ltb_irrefl (a : t) : ltb a a = false.
Proof.
  destruct a; simpl; try reflexivity. apply Qltb_ge, Qle_refl.
Qed.

Lemma ltb_not_nan (a b : t) : ltb a b = true -> a <> nan /\ b <> nan.
Proof. destruct a, b; simpl; intro; split; congruence. Qed.

Lemma ltb_trans (a b c : t) :
  ltb a b = true -> ltb b c = true -> ltb a c = true.
Proof.
  destruct a, b, c; simpl; try congruence.
  rewrite !Qltb_lt. apply Qlt_trans.
Qed.

Lemma ltb_leb_false (a b : t) : ltb a b = true -> leb b a = false.
Proof.
  destruct a, b; simpl; try congruence.
  rewrite Qltb_lt. intro Hlt.
  destruct (Qle_bool q0 q) eqn:E; [|reflexivity].
  apply Qle_bool_iff in E. exfalso. exact (Qlt_not_le _ _ Hlt E).
Qed.

(** [x] is not below [m] and [d] is: [x] is not at or below [d]. *)
Lemma not_below_bound (x m d : t) :
  ltb x m = false -> ltb d m = true -> leb x d = false.
Proof.
  destruct x, m, d; simpl; try congruence.
  - rewrite Qltb_ge, Qltb_lt. intros Hge Hlt.
    destruct (Qle_bool q q1) eqn:E; [|reflexivity].
    apply Qle_bool_iff in E. exfalso.
    apply (Qlt_not_le _ _ Hlt). eapply Qle_trans; eassumption.
Qed.

Lemma not_ltb_leb (a b : t) :
  a <> nan -> b <> nan -> ltb a b = false -> leb b a = true.
Proof.
  destruct a, b; simpl; try congruence.
  intros _ _. rewrite Qltb_ge. apply Qle_bool_iff.
Qed.

Lemma leb_false_not_ltb (a b : t) : leb a b = false -> ltb a b = false.
Proof.
  destruct a, b; simpl; try congruence.
  intro E. apply Qltb_ge.
  destruct (Qlt_le_dec q q0) as [Hlt|Hle]; [|exact Hle].
  assert (Qle_bool q q0 = true) by (apply Qle_bool_iff, Qlt_le_weak, Hlt).
  congruence.
Qed.

Lemma ltb_leb_trans (a b c : t) :
  ltb a b = true -> leb b c = true -> ltb a c = true.
Proof.
  destruct a, b, c; simpl; try congruence.
  rewrite !Qltb_lt, Qle_bool_iff. apply Qlt_le_trans.
Qed.

(** [x] is not below [d], which is a number, and [x] is below [t]: so is
    [d]. *)
Lemma below_through (x d t0 : t) :
  d <> nan -> ltb x d = false -> ltb x t0 = true -> ltb d t0 = true.
Proof.
  destruct x, d, t0; simpl; try congruence.
  intros _. rewrite Qltb_ge, !Qltb_lt. apply Qle_lt_trans.
Qed.

(** *** Rounding to single precision *)

Lemma rne_comp (q q' : Q) : (q == q')%Q -> rne q = rne q'.
Proof.
  intro E. unfold rne. rewrite (Qfloor_comp _ _ E).
  assert (E' : (q - inject_Z (Qfloor q') == q' - inject_Z (Qfloor q'))%Q)
    by (rewrite E; reflexivity).
  rewrite (Qcompare_comp _ _ E' (1 # 2) (1 # 2) (Qeq_refl _)). reflexivity.
Qed.

Lemma rne_bounds (q : Q) : (Qfloor q <= rne q <= Qfloor q + 1)%Z.
Proof.
  unfold rne. destruct (Qcompare _ _); [destruct (Z.even _)| |]; lia.
Qed.

Lemma rne_inject (z : Z) : rne (inject_Z z) = z.
Proof.
  unfold rne. rewrite Qfloor_Z.
  assert (E : (inject_Z z - inject_Z z == 0)%Q) by ring.
  rewrite (Qcompare_comp _ _ E (1 # 2) (1 # 2) (Qeq_refl _)). reflexivity.
Qed.

Lemma rne_mono (q1 q2 : Q) : (q1 <= q2)%Q -> (rne q1 <= rne q2)%Z.
Proof.
  intro Hle.
  pose proof (Qfloor_resp_le _ _ Hle) as Hf.
  pose proof (rne_bounds q1) as B1. pose proof (rne_bounds q2) as B2.
  destruct (Z.eq_dec (Qfloor q1) (Qfloor q2)) as [E|N]; [|lia].
  unfold rne. rewrite <- E.
  assert (Hr : (q1 - inject_Z (Qfloor q1) <= q2 - inject_Z (Qfloor q1))%Q) by lra.
  destruct (Qcompare_spec (q1 - inject_Z (Qfloor q1)) (1 # 2)) as [H1|H1|H1];
    destruct (Qcompare_spec (q2 - inject_Z (Qfloor q1)) (1 # 2)) as [H2|H2|H2];
    try destruct (Z.even (Qfloor q1)); try lia; try lra.
Qed.

Lemma pow2_pos (e : Z) : (0 < pow2 e)%Q.
Proof. apply Qpower_0_lt. reflexivity. Qed.

Lemma pow2_mono (e1 e2 : Z) : (e1 <= e2)%Z -> (pow2 e1 <= pow2 e2)%Q.
Proof. intro Hle. apply Qpower_le_compat_l; [exact Hle | discriminate]. Qed.

Lemma pow2_Z (e : Z) : (0 <= e)%Z -> (pow2 e == inject_Z (2 ^ e))%Q.
Proof. intro He. unfold pow2. rewrite Zpower_Qpower by exact He. reflexivity. Qed.

Lemma pow2_diff (a b : Z) :
  (0 <= a)%Z -> (0 <= b)%Z ->
  (pow2 (a - b) == inject_Z (2 ^ a) / inject_Z (2 ^ b))%Q.
Proof.
  intros Ha Hb. unfold pow2. rewrite Qpower_minus by discriminate.
  rewrite !Zpower_Qpower by assumption. reflexivity.
Qed.

(** The binade of a positive rational. *)
Lemma ilog2_spec (q : Q) :
  (0 < q)%Q -> (pow2 (ilog2 q) <= q < pow2 (ilog2 q + 1))%Q.
Proof.
  intro Hq. destruct q as [n d].
  assert (Hn : (0 < n)%Z) by (unfold Qlt in Hq; simpl in Hq; lia).
  unfold ilog2. cbn [Qnum Qden].
  set (a := Z.log2 n). set (b := Z.log2 (Z.pos d)).
  pose proof (Z.log2_spec n Hn) as [Ha1 Ha2]. fold a in Ha1, Ha2.
  pose proof (Z.log2_spec (Z.pos d) eq_refl) as [Hb1 Hb2]. fold b in Hb1, Hb2.
  assert (Ha : (0 <= a)%Z) by apply Z.log2_nonneg.
  assert (Hb : (0 <= b)%Z) by apply Z.log2_nonneg.
  assert (Hpa : (0 < 2 ^ a)%Z) by (apply Z.pow_pos_nonneg; lia).
  assert (Hpb : (0 < 2 ^ b)%Z) by (apply Z.pow_pos_nonneg; lia).
  assert (Hqd : (n # d == inject_Z n / inject_Z (Z.pos d))%Q) by apply Qmake_Qdiv.
  assert (Hd0 : (0 < inject_Z (Z.pos d))%Q) by (rewrite <- (Zlt_Qlt 0); lia).
  assert (Hb0 : (0 < inject_Z (2 ^ b))%Q) by (rewrite <- (Zlt_Qlt 0); lia).
  assert (Hb0' : (0 < inject_Z (2 ^ (b + 1)))%Q).
  { rewrite <- (Zlt_Qlt 0). apply Z.pow_pos_nonneg; lia. }
  assert (Hup : (n # d < pow2 (a - b + 1))%Q).
  { replace (a - b + 1)%Z with ((a + 1) - b)%Z by lia.
    rewrite pow2_diff by lia. rewrite Hqd.
    apply Qlt_shift_div_l; [exact Hb0|].
    unfold Qdiv. rewrite <- Qmult_assoc, (Qmult_comm (/ _)), Qmult_assoc.
    apply Qlt_shift_div_r; [exact Hd0|].
    rewrite <- !inject_Z_mult, <- Zlt_Qlt.
    unfold Z.succ in Ha2. nia. }
  assert (Hlow : (pow2 (a - b - 1) <= n # d)%Q).
  { replace (a - b - 1)%Z with (a - (b + 1))%Z by lia.
    rewrite pow2_diff by lia. rewrite Hqd.
    apply Qle_shift_div_r; [exact Hb0'|].
    unfold Qdiv. rewrite <- Qmult_assoc, (Qmult_comm (/ _)), Qmult_assoc.
    apply Qle_shift_div_l; [exact Hd0|].
    rewrite <- !inject_Z_mult, <- Zle_Qle.
    unfold Z.succ in Hb2. nia. }
  destruct (Qle_bool (pow2 (a - b)) (n # d)) eqn:Htest.
  - apply Qle_bool_iff in Htest. split; [exact Htest | exact Hup].
  - split; [exact Hlow|].
    replace (a - b - 1 + 1)%Z with (a - b)%Z by lia.
    apply Qnot_le_lt. intro Hc. apply Qle_bool_iff in Hc. congruence.
Qed.

Lemma exponent32_low (q : Q) : (-126 <= exponent32 q)%Z.
Proof. unfold exponent32. destruct (Qle_bool q 0); lia. Qed.

Lemma exponent32_above (q : Q) : (0 <= q)%Q -> (q < pow2 (exponent32 q + 1))%Q.
Proof.
  intro Hq. unfold exponent32.
  destruct (Qle_bool q 0) eqn:Hz.
  - apply Qle_bool_iff in Hz. apply Qle_lt_trans with 0%Q; [exact Hz | apply pow2_pos].
  - assert (Hpos : (0 < q)%Q).
    { apply Qnot_le_lt. intro Hc. apply Qle_bool_iff in Hc. congruence. }
    destruct (ilog2_spec q Hpos) as [_ Hup].
    eapply Qlt_le_trans; [exact Hup|]. apply pow2_mono. lia.
Qed.

Lemma exponent32_below (q : Q) :
  (-126 < exponent32 q)%Z -> (pow2 (exponent32 q) <= q)%Q.
Proof.
  unfold exponent32. destruct (Qle_bool q 0) eqn:Hz; [lia|].
  assert (Hpos : (0 < q)%Q).
  { apply Qnot_le_lt. intro Hc. apply Qle_bool_iff in Hc. congruence. }
  destruct (ilog2_spec q Hpos) as [Hlow _].
  intro Hgt. replace (Z.max (ilog2 q) (-126)) with (ilog2 q) by lia. exact Hlow.
Qed.

Lemma exponent32_mono (q1 q2 : Q) :
  (0 <= q1)%Q -> (q1 <= q2)%Q -> (exponent32 q1 <= exponent32 q2)%Z.
Proof.
  intros H0 Hle.
  destruct (Z_le_gt_dec (exponent32 q1) (exponent32 q2)) as [Hok|Hgt]; [exact Hok|].
  exfalso.
  pose proof (exponent32_low q2) as Hl2.
  assert (Hb : (pow2 (exponent32 q1) <= q1)%Q) by (apply exponent32_below; lia).
  assert (Ha : (q2 < pow2 (exponent32 q2 + 1))%Q) by (apply exponent32_above; lra).
  assert (Hm : (pow2 (exponent32 q2 + 1) <= pow2 (exponent32 q1))%Q)
    by (apply pow2_mono; lia).
  lra.
Qed.

(** Rounding on the grid of one binade is monotone and keeps the powers of
    two that lie on the grid. *)
Lemma round_at_mono (e : Z) (q1 q2 : Q) :
  (q1 <= q2)%Q ->
  (inject_Z (rne (q1 / pow2 (e - 23))) * pow2 (e - 23)
   <= inject_Z (rne (q2 / pow2 (e - 23))) * pow2 (e - 23))%Q.
Proof.
  intro Hle.
  apply Qmult_le_compat_r; [|apply Qlt_le_weak, pow2_pos].
  rewrite <- Zle_Qle. apply rne_mono.
  unfold Qdiv. apply Qmult_le_compat_r; [exact Hle|].
  apply Qlt_le_weak, Qinv_lt_0_compat, pow2_pos.
Qed.

Lemma round_at_pow2 (e k : Z) :
  (e - 23 <= k)%Z ->
  (inject_Z (rne (pow2 k / pow2 (e - 23))) * pow2 (e - 23) == pow2 k)%Q.
Proof.
  intro Hk.
  assert (E : (pow2 k / pow2 (e - 23) == inject_Z (2 ^ (k - (e - 23))))%Q).
  { rewrite <- pow2_Z by lia. unfold pow2. symmetry. apply Qpower_minus. discriminate. }
  rewrite (rne_comp _ _ E), rne_inject. rewrite <- E.
  field. apply Qnot_eq_sym, Qlt_not_eq, pow2_pos.
Qed.

Lemma round32_pos_eq (q : Q) :
  (round32_pos q
   == inject_Z (rne (q / pow2 (exponent32 q - 23))) * pow2 (exponent32 q - 23))%Q.
Proof. unfold round32_pos, ulp32. apply Qred_correct. Qed.

Lemma round32_pos_mono (q1 q2 : Q) :
  (0 <= q1)%Q -> (q1 <= q2)%Q -> (round32_pos q1 <= round32_pos q2)%Q.
Proof.
  intros H0 Hle. rewrite !round32_pos_eq.
  pose proof (exponent32_mono q1 q2 H0 Hle) as He.
  destruct (Z.eq_dec (exponent32 q1) (exponent32 q2)) as [E|N].
  - rewrite E. apply round_at_mono. exact Hle.
  - set (e1 := exponent32 q1) in *. set (e2 := exponent32 q2) in *.
    assert (H1 : (inject_Z (rne (q1 / pow2 (e1 - 23))) * pow2 (e1 - 23)
                  <= pow2 (e1 + 1))%Q).
    { rewrite <- (round_at_pow2 e1 (e1 + 1)) by lia.
      apply round_at_mono. apply Qlt_le_weak. apply exponent32_above. exact H0. }
    assert (H2 : (pow2 e2
                  <= inject_Z (rne (q2 / pow2 (e2 - 23))) * pow2 (e2 - 23))%Q).
    { rewrite <- (round_at_pow2 e2 e2) at 1 by lia.
      apply round_at_mono. apply exponent32_below.
      pose proof (exponent32_low q1) as Hl1. fold e1 in Hl1. lia. }
    assert (H3 : (pow2 (e1 + 1) <= pow2 e2)%Q) by (apply pow2_mono; lia).
    lra.
Qed.

Lemma round32_pos_nonneg (q : Q) : (0 <= q)%Q -> (0 <= round32_pos q)%Q.
Proof.
  intro H0. rewrite round32_pos_eq.
  apply Qmult_le_0_compat; [|apply Qlt_le_weak, pow2_pos].
  rewrite <- (Zle_Qle 0). rewrite <- (rne_inject 0). apply rne_mono.
  apply Qle_shift_div_l; [apply pow2_pos|].
  change (inject_Z 0) with 0%Q. rewrite Qmult_0_l. exact H0.
Qed.

(** Rounding to [float32] keeps the order. *)
Lemma round32q_mono (q1 q2 : Q) : (q1 <= q2)%Q -> (round32q q1 <= round32q q2)%Q.
Proof.
  intro Hle. unfold round32q.
  destruct (Qle_bool 0 q1) eqn:H1; destruct (Qle_bool 0 q2) eqn:H2.
  - apply Qle_bool_iff in H1. apply round32_pos_mono; assumption.
  - apply Qle_bool_iff in H1.
    assert (~ (0 <= q2)%Q) by (intro Hc; apply Qle_bool_iff in Hc; congruence). lra.
  - apply Qle_bool_iff in H2.
    assert (Hn : ~ (0 <= q1)%Q) by (intro Hc; apply Qle_bool_iff in Hc; congruence).
    pose proof (round32_pos_nonneg (- q1)%Q ltac:(lra)).
    pose proof (round32_pos_nonneg q2 H2). lra.
  - assert (Hn1 : ~ (0 <= q1)%Q) by (intro Hc; apply Qle_bool_iff in Hc; congruence).
    assert (Hn2 : ~ (0 <= q2)%Q) by (intro Hc; apply Qle_bool_iff in Hc; congruence).
    pose proof (round32_pos_mono (- q2)%Q (- q1)%Q ltac:(lra) ltac:(lra)). lra.
Qed.

Lemma overflow32_number (r : Q) : overflow32 r <> nan.
Proof.
  unfold overflow32. destruct (Qle_bool _ r); [discriminate|].
  destruct (Qle_bool r _); discriminate.
Qed.

Lemma overflow32_mono (r1 r2 : Q) :
  (r1 <= r2)%Q -> leb (overflow32 r1) (overflow32 r2) = true.
Proof.
  intro Hle. unfold overflow32.
  pose proof (pow2_pos 128) as Hp. set (P := pow2 128) in *. clearbody P.
  destruct (Qle_bool P r1) eqn:Hx1; destruct (Qle_bool P r2) eqn:Hy1;
    destruct (Qle_bool r1 (- P)) eqn:Hx2; destruct (Qle_bool r2 (- P)) eqn:Hy2;
    cbn [leb]; try reflexivity;
    repeat match goal with
           | H : Qle_bool _ _ = true |- _ => apply Qle_bool_iff in H
           | H : Qle_bool ?u ?v = false |- _ =>
               assert (~ (u <= v)%Q)
                 by (intro Hc; apply Qle_bool_iff in Hc; congruence);
               clear H
           end;
    try (exfalso; lra).
  apply Qle_bool_iff. exact Hle.
Qed.

Lemma round32_mono (a b : t) : leb a b = true -> leb (round32 a) (round32 b) = true.
Proof.
  destruct a as [| |x|], b as [| |y|]; cbn [round32 leb]; try congruence.
  - intros _. pose proof (overflow32_number (round32q y)) as Hn.
    destruct (overflow32 (round32q y)); [congruence | reflexivity..].
  - intro Hle. apply Qle_bool_iff in Hle.
    apply overflow32_mono, round32q_mono. exact Hle.
  - intros _. pose proof (overflow32_number (round32q x)) as Hn.
    destruct (overflow32 (round32q x)); [congruence | reflexivity..].
Qed.

End PyFloatFacts.

(* ================================================================== *)
(** * identify_face: nearest neighbour with a threshold *)
(* ================================================================== *)

Module IdentifyFacts.
Import Utils PyFloatFacts.

Section Scan.
Context {vec : Type} `{NumPy vec}.
Variable query : vec.

Local Abbreviation dist := (euclidean_distance query).

(** What the loop leaves behind, started with a bound [m] and a name [p]:
    either nothing was below [m] and both are unchanged, or the result is
    the first entry whose distance is the least one. *)
Lemma identify_scan_spec (items : list (string * vec)) :
  forall (m : pyfloat) (p : string) (d : pyfloat) (person : string),
    identify_scan query items m p = (d, person) ->
    (d = m /\ person = p /\
     forall k e, In (k, e) items -> PyFloat.ltb (dist e) m = false)
    \/
    (exists l1 e l2,
        items = (l1 ++ (person, e) :: l2)%list /\
        dist e = d /\
        PyFloat.ltb d m = true /\
        (forall k' e', In (k', e') l1 -> PyFloat.leb (dist e') d = false) /\
        (forall k' e', In (k', e') l2 -> PyFloat.ltb (dist e') d = false)).
Proof.
  induction items as [|[k0 e0] rest IH]; intros m p d person Hscan; simpl in Hscan.
  - inversion Hscan; subst. left. repeat split. intros k e [].
  - destruct (PyFloat.ltb (dist e0) m) eqn:Hlt.
    + apply IH in Hscan.
      destruct Hscan as [(Hd & Hp & Hall) | (l1 & e & l2 & Hrest & Hde & Hdm & Hl1 & Hl2)].
      * subst d person. right. exists [], e0, rest. simpl.
        repeat split; auto. intros k' e' [].
      * right. exists ((k0, e0) :: l1), e, l2. subst rest. simpl.
        repeat split; auto.
        -- eapply ltb_trans; eassumption.
        -- intros k' e' [Heq | Hin].
           ++ inversion Heq; subst. apply ltb_leb_false. exact Hdm.
           ++ eapply Hl1; eassumption.
    + apply IH in Hscan.
      destruct Hscan as [(Hd & Hp & Hall) | (l1 & e & l2 & Hrest & Hde & Hdm & Hl1 & Hl2)].
      * left. repeat split; auto.
        intros k e [Heq | Hin].
        -- inversion Heq; subst. exact Hlt.
        -- eapply Hall; eassumption.
      * right. exists ((k0, e0) :: l1), e, l2. subst rest. simpl.
        repeat split; auto.
        intros k' e' [Heq | Hin].
        -- inversion Heq; subst. eapply not_below_bound; eassumption.
        -- eapply Hl1; eassumption.
Qed.

(** The three components of the result, in terms of the loop. *)
Lemma identify_face_unfold (gallery : PyDict.t vec) (threshold : pyfloat) :
  forall d person,
    identify_scan query gallery PyFloat.inf UNKNOWN = (d, person) ->
    identify_face query gallery threshold =
      (if PyFloat.ltb d (compared threshold) then person else UNKNOWN,
       d,
       if PyFloat.ltb d (compared threshold) then MATCH else REJECT).
Proof.
  intros d person Hscan. unfold identify_face, PyDict.items.
  rewrite Hscan. destruct (PyFloat.ltb d (compared threshold)); reflexivity.
Qed.

(** Rounded or not, thresholds keep their order. *)
Lemma compared_mono (t1 t2 : pyfloat) :
  PyFloat.leb t1 t2 = true -> PyFloat.leb (compared t1) (compared t2) = true.
Proof.
  unfold compared. destruct np_weak_float32; [apply round32_mono | auto].
Qed.

(** A distance that is not below infinity is infinite or not a number. *)
Lemma not_below_inf (x : pyfloat) :
  PyFloat.ltb x PyFloat.inf = false -> x = PyFloat.inf \/ x = PyFloat.nan.
Proof. destruct x; simpl; intro; auto; discriminate. Qed.

End Scan.
End IdentifyFacts.

Section IdentifyFace.
Import Utils PyFloatFacts IdentifyFacts.
Context {vec : Type} `{NumPy vec}.

(** Either some entry of a list has the first property or all have the
    second, when each has one of them. *)
Lemma some_or_all {A : Type} (P Q : A -> Prop) (l : list A) :
  (forall x, In x l -> P x \/ Q x) ->
  (exists x, In x l /\ P x) \/ (forall x, In x l -> Q x).
Proof.
  induction l as [|a l IH]; intro Hall.
  - right. intros x [].
  - destruct (Hall a (or_introl eq_refl)) as [Pa | Qa].
    + left. exists a. split; [left; reflexivity | exact Pa].
    + destruct IH as [(x & Hin & Px) | Hq].
      * intros x Hx. apply Hall. right. exact Hx.
      * left. exists x. split; [right; exact Hin | exact Px].
      * right. intros x [-> | Hx]; auto.
Qed.

(** What [identify_face] returns, for every gallery: no gallery distance is
    below the returned one, which is at or below every gallery distance that
    is a number and is the distance of some entry unless it is infinity and
    every distance is NaN; the status is MATCH exactly when it is strictly
    below the threshold as NumPy compares the two; on MATCH the person is
    the first entry at that distance, on REJECT it is "UNKNOWN". *)
Lemma identify_face_characterised
      (query : vec) (gallery : PyDict.t vec) (threshold : pyfloat)
      (person : string) (d : pyfloat) (st : status) :
  identify_face query gallery threshold = (person, d, st) ->
  (forall k e, In (k, e) gallery ->
               PyFloat.ltb (euclidean_distance query e) d = false) /\
  (forall k e, In (k, e) gallery ->
               euclidean_distance query e <> PyFloat.nan ->
               PyFloat.leb d (euclidean_distance query e) = true) /\
  ((exists k e, In (k, e) gallery /\ euclidean_distance query e = d) \/
   (d = PyFloat.inf /\
    forall k e, In (k, e) gallery -> euclidean_distance query e = PyFloat.nan)) /\
  (st = MATCH <-> PyFloat.ltb d (compared threshold) = true) /\
  (st = MATCH ->
   exists l1 e l2,
     gallery = (l1 ++ (person, e) :: l2)%list /\
     euclidean_distance query e = d /\
     forall k' e', In (k', e') l1 ->
                   PyFloat.leb (euclidean_distance query e') d = false) /\
  (st = REJECT -> person = UNKNOWN).
Proof.
  intros Hid.
  destruct (identify_scan query gallery PyFloat.inf UNKNOWN) as [d0 p0] eqn:Hscan.
  rewrite (identify_face_unfold query gallery threshold d0 p0 Hscan) in Hid.
  assert (Hd : d = d0) by congruence. subst d0.
  assert (Hst : st = if PyFloat.ltb d (compared threshold) then MATCH else REJECT)
    by congruence.
  assert (Hp : person = if PyFloat.ltb d (compared threshold) then p0 else UNKNOWN)
    by congruence.
  clear Hid.
  apply identify_scan_spec in Hscan.
  destruct Hscan as [(Hd & Hp0 & Hall) | (l1 & e & l2 & Hg & Hde & Hdm & Hl1 & Hl2)].
  - (* nothing was below infinity *)
    subst d p0. rewrite ltb_inf_l in Hst, Hp. subst st person.
    repeat split; try discriminate; auto.
    + intros k e Hin Hnan.
      destruct (not_below_inf _ (Hall k e Hin)) as [-> | ?]; [reflexivity | contradiction].
    + destruct (some_or_all
                  (fun ke => euclidean_distance query (snd ke) = PyFloat.inf)
                  (fun ke => euclidean_distance query (snd ke) = PyFloat.nan)
                  gallery) as [([k e] & Hin & Hinf) | Hnan].
      * intros [k e] Hin. apply not_below_inf. eapply Hall. exact Hin.
      * left. exists k, e. split; assumption.
      * right. split; [reflexivity|]. intros k e Hin. exact (Hnan (k, e) Hin).
    + rewrite ltb_inf_l. discriminate.
  - (* the first entry at the least distance *)
    assert (Hin_e : In (p0, e) gallery).
    { rewrite Hg. apply in_or_app. right. left. reflexivity. }
    assert (Hlow : forall k x, In (k, x) gallery ->
                               PyFloat.ltb (euclidean_distance query x) d = false).
    { intros k x Hin. rewrite Hg in Hin. apply in_app_or in Hin.
      destruct Hin as [Hin | [Heq | Hin]].
      - apply leb_false_not_ltb. eapply Hl1; eassumption.
      - inversion Heq; subst x. rewrite Hde. apply ltb_irrefl.
      - eapply Hl2; eassumption. }
    repeat split.
    + exact Hlow.
    + intros k x Hin Hnan.
      apply not_ltb_leb; [exact Hnan | apply ltb_not_nan in Hdm; tauto |].
      eapply Hlow; eassumption.
    + left. exists p0, e. split; assumption.
    + intros ->. destruct (PyFloat.ltb d (compared threshold)); [reflexivity | discriminate].
    + intro E. rewrite E in Hst. exact Hst.
    + intros ->. destruct (PyFloat.ltb d (compared threshold)) eqn:E; [|discriminate].
      subst person. exists l1, e, l2. repeat split; auto.
    + intros ->. destruct (PyFloat.ltb d (compared threshold)); [discriminate | exact Hp].
Qed.

(** C1, as the code has it.  On a non-empty gallery [identify_face] scans
    the entries once and returns the least of the Euclidean distances
    [np.linalg.norm(query - embedding)] from the query to the gallery
    embeddings: no gallery distance is below the returned one, and the
    returned one is at or below every gallery distance and is the distance
    of some entry (distances being numbers; were every distance NaN, none
    would be least and the result keeps infinity).  The status is MATCH
    exactly when that distance is strictly below the threshold as NumPy
    compares the two: the threshold itself where Python floats are compared
    (NumPy 1, or float64 embeddings), the threshold rounded to float32
    where NumPy 2 meets a float32 distance.  On MATCH the returned person is
    the first gallery entry at that distance, and on REJECT it is
    "UNKNOWN". *)
Theorem identify_face_nearest_neighbour
        (query : vec) (gallery : PyDict.t vec) (threshold : pyfloat)
        (person : string) (d : pyfloat) (st : status) :
  gallery <> [] ->
  identify_face query gallery threshold = (person, d, st) ->
  (forall k e, In (k, e) gallery ->
               PyFloat.ltb (np_linalg_norm (np_sub query e)) d = false) /\
  (forall k e, In (k, e) gallery ->
               np_linalg_norm (np_sub query e) <> PyFloat.nan ->
               PyFloat.leb d (np_linalg_norm (np_sub query e)) = true) /\
  ((forall k e, In (k, e) gallery ->
                np_linalg_norm (np_sub query e) <> PyFloat.nan) ->
   exists k e, In (k, e) gallery /\ np_linalg_norm (np_sub query e) = d) /\
  ((exists k e, In (k, e) gallery /\ np_linalg_norm (np_sub query e) = d) \/
   (d = PyFloat.inf /\
    forall k e, In (k, e) gallery ->
                np_linalg_norm (np_sub query e) = PyFloat.nan)) /\
  (st = MATCH <->
   PyFloat.ltb d (if np_weak_float32 then PyFloat.round32 threshold
                  else threshold) = true) /\
  (st = MATCH ->
   exists l1 e l2,
     gallery = (l1 ++ (person, e) :: l2)%list /\
     np_linalg_norm (np_sub query e) = d /\
     forall k' e', In (k', e') l1 ->
                   PyFloat.leb (np_linalg_norm (np_sub query e')) d = false) /\
  (st = REJECT -> person = UNKNOWN).
Proof.
  intros Hne Hid.
  destruct (identify_face_characterised query gallery threshold person d st Hid)
    as (Hlow & Hle & Hattained & Hstatus & Hmatch & Hreject).
  unfold euclidean_distance in Hlow, Hle, Hattained, Hmatch.
  split; [exact Hlow|]. split; [exact Hle|]. split.
  - intro Hnumbers.
    destruct Hattained as [Hsome | [_ Hnan]]; [exact Hsome|].
    destruct gallery as [|[k e] rest]; [congruence|].
    exfalso. apply (Hnumbers k e (or_introl eq_refl)).
    apply (Hnan k e). left. reflexivity.
  - split; [exact Hattained|]. split; [exact Hstatus|].
    split; [exact Hmatch | exact Hreject].
Qed.

End IdentifyFace.

(** The query 1 against ann at 1/2 and bob at 2, threshold 0.6: ann matches
    at distance 1/2, whichever way NumPy compares. *)
Lemma identify_face_nearest_neighbour_witness :
  Utils.identify_face 1 Sample.gallery (PyFloat.fin (6 # 10))
    = ("ann", PyFloat.fin (1 # 2), Utils.MATCH) /\
  (Utils.MATCH = Utils.MATCH <->
   PyFloat.ltb (PyFloat.fin (1 # 2)) (PyFloat.fin (6 # 10)) = true) /\
  @Utils.identify_face Q Sample.numpy2_line 1 Sample.gallery (PyFloat.fin (6 # 10))
    = ("ann", PyFloat.fin (1 # 2), Utils.MATCH) /\
  (Utils.MATCH = Utils.MATCH <->
   PyFloat.ltb (PyFloat.fin (1 # 2)) (PyFloat.round32 (PyFloat.fin (6 # 10)))
   = true).
Proof.
  split; [reflexivity|]. split.
  - destruct (identify_face_nearest_neighbour
                1 Sample.gallery (PyFloat.fin (6 # 10))
                "ann" (PyFloat.fin (1 # 2)) Utils.MATCH)
      as (_ & _ & _ & _ & Hstatus & _); [discriminate | reflexivity |].
    exact Hstatus.
  - split; [vm_compute; reflexivity|].
    destruct (@identify_face_nearest_neighbour Q Sample.numpy2_line
                1 Sample.gallery (PyFloat.fin (6 # 10))
                "ann" (PyFloat.fin (1 # 2)) Utils.MATCH)
      as (_ & _ & _ & _ & Hstatus & _);
      [discriminate | vm_compute; reflexivity |].
    exact Hstatus.
Defined.

(** Under NumPy 2 a gallery embedding at distance float32(0.7) from the
    query is below the Python float 0.7 (the double nearest to 7/10) and is
    rejected all the same: the threshold is rounded to float32(0.7) first.
    So MATCH is not the same as a distance below the threshold itself. *)
Lemma identify_face_float32_counterexample :
  @Utils.identify_face Q Sample.numpy2_line
     (11744051 # 16777216) [("ann", 0)]
     (PyFloat.fin (3152519739159347 # 4503599627370496))
    = (Utils.UNKNOWN, PyFloat.fin (11744051 # 16777216), Utils.REJECT) /\
  PyFloat.ltb (PyFloat.fin (11744051 # 16777216))
              (PyFloat.fin (3152519739159347 # 4503599627370496)) = true /\
  PyFloat.round32 (PyFloat.fin (3152519739159347 # 4503599627370496))
    = PyFloat.fin (11744051 # 16777216) /\
  ~ (forall (numpy : NumPy Q) (gallery : PyDict.t Q) (query : Q)
            (threshold : pyfloat),
        gallery <> [] ->
        let '(_, d, st) := @Utils.identify_face Q numpy query gallery threshold in
        st = Utils.MATCH <-> PyFloat.ltb d threshold = true).
Proof.
  split; [vm_compute; reflexivity|]. split; [vm_compute; reflexivity|].
  split; [vm_compute; reflexivity|].
  intro Hclaim.
  specialize (Hclaim Sample.numpy2_line [("ann", 0)] (11744051 # 16777216)
                     (PyFloat.fin (3152519739159347 # 4503599627370496))
                     ltac:(discriminate)).
  vm_compute in Hclaim. destruct Hclaim as [_ Hmatch].
  specialize (Hmatch eq_refl). discriminate.
Qed.

Section IdentifyVerdict.
Import Utils PyFloatFacts IdentifyFacts.
Context {vec : Type} `{NumPy vec}.

(** C8.  On an empty gallery [identify_face] returns
    ("UNKNOWN", infinity, "REJECT") for every query and every threshold, so
    it never reports a match there. *)
Theorem identify_face_empty_gallery (query : vec) (threshold : pyfloat) :
  identify_face query PyDict.empty threshold = (UNKNOWN, PyFloat.inf, REJECT).
Proof.
  unfold identify_face, PyDict.items, PyDict.empty, identify_scan.
  rewrite ltb_inf_l. reflexivity.
Qed.

Lemma identify_face_verdict (query : vec) (gallery : PyDict.t vec)
      (threshold : pyfloat) :
  verdict_ok gallery (identify_face query gallery threshold).
Proof.
  destruct (identify_scan query gallery PyFloat.inf UNKNOWN) as [d p0] eqn:Hscan.
  rewrite (identify_face_unfold query gallery threshold d p0 Hscan).
  unfold verdict_ok.
  apply identify_scan_spec in Hscan.
  destruct Hscan as [(Hd & Hp0 & _) | (l1 & e & l2 & Hg & _)].
  - subst d. rewrite ltb_inf_l.
    split; [auto | split; [discriminate|]].
    intros _. split; [discriminate | intro Hne; now elim Hne].
  - assert (Hkey : In p0 (PyDict.keys gallery)).
    { unfold PyDict.keys. rewrite Hg, map_app. apply in_or_app. right. left. reflexivity. }
    destruct (PyFloat.ltb d (compared threshold)).
    + split; [discriminate | split; [auto|]].
      intros Hfree. split; [|reflexivity].
      intros _ Heq. apply Hfree. rewrite <- Heq. exact Hkey.
    + split; [auto | split; [discriminate|]].
      intros _. split; [discriminate | intro Hne; now elim Hne].
Qed.

End IdentifyVerdict.

Section IdentifyFromFrame.
Import Utils.
Context {vec : Type} `{NumPy vec} `{Model vec} `{Cv2}.

Lemma preprocess_image_none (face_img : option image) (img_size : Z) :
  preprocess_image face_img img_size = None <-> face_img = None.
Proof.
  destruct face_img; simpl; split; intro; congruence.
Qed.

(** C9, as the code has it.  The result of [identify_face] carries
    "UNKNOWN" whenever its status is REJECT and a key of the gallery
    whenever its status is MATCH; when "UNKNOWN" is not itself a key of the
    gallery, the status is MATCH exactly when the person is not "UNKNOWN".
    The same holds for [identify_face_from_frame], which returns
    ("UNKNOWN", infinity, "REJECT") whenever preprocessing the face image
    yields None. *)
Theorem identify_verdict_consistent
        (gallery : PyDict.t vec) (threshold : pyfloat) :
  (forall query, verdict_ok gallery (identify_face query gallery threshold)) /\
  (forall face_img img_size,
      verdict_ok gallery
        (identify_face_from_frame face_img gallery threshold img_size)) /\
  (forall face_img img_size,
      preprocess_image face_img img_size = None ->
      identify_face_from_frame face_img gallery threshold img_size
        = (UNKNOWN, PyFloat.inf, REJECT)).
Proof.
  split; [|split].
  - intro query. apply identify_face_verdict.
  - intros face_img img_size. unfold identify_face_from_frame.
    destruct (preprocess_image face_img img_size) as [face_processed|].
    + apply identify_face_verdict.
    + unfold verdict_ok.
      split; [auto | split; [discriminate|]].
      intros _. split; [discriminate | intro Hne; now elim Hne].
  - intros face_img img_size Hnone. unfold identify_face_from_frame.
    rewrite Hnone. reflexivity.
Qed.

End IdentifyFromFrame.

(** On the sample gallery, which has no person called "UNKNOWN", the query 1
    matches ann and the query 10 is rejected; a missing face image is
    rejected without a look at the gallery. *)
Lemma identify_verdict_consistent_witness :
  verdict_ok Sample.gallery (Utils.identify_face 1 Sample.gallery (PyFloat.fin (6 # 10))) /\
  verdict_ok Sample.gallery (Utils.identify_face 10 Sample.gallery (PyFloat.fin (6 # 10))) /\
  Utils.identify_face_from_frame None Sample.gallery (PyFloat.fin (6 # 10)) 128
    = (Utils.UNKNOWN, PyFloat.inf, Utils.REJECT).
Proof.
  pose proof (identify_verdict_consistent Sample.gallery (PyFloat.fin (6 # 10)))
    as (Hface & _ & Hnone).
  split; [apply Hface | split; [apply Hface|]].
  apply Hnone. reflexivity.
Defined.

(** A gallery whose only person is called "UNKNOWN": the query at distance 0
    is a MATCH, and the person returned is "UNKNOWN". *)
Lemma identify_match_unknown_counterexample :
  Utils.identify_face 1 [("UNKNOWN", 1)] (PyFloat.fin (6 # 10))
    = ("UNKNOWN", PyFloat.fin 0, Utils.MATCH) /\
  ~ (forall (gallery : PyDict.t Q) (query : Q) (threshold : pyfloat),
        let '(person, _, st) := Utils.identify_face query gallery threshold in
        st = Utils.MATCH <-> person <> Utils.UNKNOWN).
Proof.
  split; [reflexivity|].
  intro Hclaim.
  specialize (Hclaim [("UNKNOWN", 1)] 1 (PyFloat.fin (6 # 10))).
  cbv in Hclaim. destruct Hclaim as [Hmatch _].
  apply Hmatch; reflexivity.
Qed.

(* ================================================================== *)
(** * Dictionaries: lookup after update *)
(* ================================================================== *)

Module PyDictFacts.
Section Facts.
Context {V : Type}.
Implicit Types (d : PyDict.t V) (k : string) (v : V).

Lemma get_set_same d k v : PyDict.get (PyDict.set d k v) k = Some v.
Proof.
  induction d as [|[k' v'] d IH]; simpl.
  - now rewrite String.eqb_refl.
  - destruct (String.eqb k' k) eqn:E; simpl; rewrite E; auto.
Qed.

Lemma get_set_other d k k' v :
  k <> k' -> PyDict.get (PyDict.set d k v) k' = PyDict.get d k'.
Proof.
  intro Hne. induction d as [|[k0 v0] d IH]; simpl.
  - apply String.eqb_neq in Hne. now rewrite Hne.
  - destruct (String.eqb k0 k) eqn:E; simpl.
    + apply String.eqb_eq in E. subst k0.
      apply String.eqb_neq in Hne. now rewrite Hne.
    + destruct (String.eqb k0 k'); auto.
Qed.

Lemma get_none_iff d k : PyDict.get d k = None <-> ~ In k (PyDict.keys d).
Proof.
  induction d as [|[k' v'] d IH]; simpl.
  - tauto.
  - destruct (String.eqb k' k) eqn:E.
    + apply String.eqb_eq in E. split; [discriminate | intro Hn; elim Hn; auto].
    + apply String.eqb_neq in E. rewrite IH. tauto.
Qed.

Lemma get_some_in d k v : PyDict.get d k = Some v -> In (k, v) d.
Proof.
  induction d as [|[k' v'] d IH]; simpl; [discriminate|].
  destruct (String.eqb k' k) eqn:E.
  - apply String.eqb_eq in E. intro Hv. left. congruence.
  - auto.
Qed.

Lemma in_get d k v : PyDict.wf d -> In (k, v) d -> PyDict.get d k = Some v.
Proof.
  unfold PyDict.wf. induction d as [|[k' v'] d IH]; simpl; [tauto|].
  intros Hnd [Heq | Hin]; inversion Hnd; subst.
  - inversion Heq; subst. now rewrite String.eqb_refl.
  - destruct (String.eqb k' k) eqn:E; [|auto].
    apply String.eqb_eq in E. subst k'. exfalso.
    apply H1. change k with (fst (k, v)). now apply in_map.
Qed.

Lemma keys_set d k v :
  PyDict.keys (PyDict.set d k v)
  = if PyDict.contains d k then PyDict.keys d else (PyDict.keys d ++ [k])%list.
Proof.
  unfold PyDict.contains, PyDict.keys.
  induction d as [|[k' v'] d IH]; simpl; [reflexivity|].
  destruct (String.eqb k' k) eqn:E; simpl; [reflexivity|].
  rewrite IH. destruct (PyDict.get d k); reflexivity.
Qed.

Lemma wf_set d k v : PyDict.wf d -> PyDict.wf (PyDict.set d k v).
Proof.
  unfold PyDict.wf. intro Hwf. rewrite keys_set.
  destruct (PyDict.contains d k) eqn:E; [exact Hwf|].
  assert (Hnot : ~ In k (PyDict.keys d)).
  { apply get_none_iff. unfold PyDict.contains in E.
    destruct (PyDict.get d k); [discriminate | reflexivity]. }
  clear E. induction (PyDict.keys d) as [|a l IH]; simpl.
  - constructor; [intros [] | constructor].
  - inversion Hwf; subst. constructor.
    + rewrite in_app_iff. simpl. intros [Hin | [Heq | []]]; [auto|].
      subst a. apply Hnot. left. reflexivity.
    + apply IH; [assumption|]. intro Hin. apply Hnot. right. exact Hin.
Qed.
End Facts.
End PyDictFacts.

(* ================================================================== *)
(** * build_gallery_embeddings: one averaged embedding per person *)
(* ================================================================== *)

Section BuildGallery.
Import Utils PyDictFacts.
Context {vec : Type} `{NumPy vec} `{Model vec} `{Cv2}.
Variable img_size : Z.

Lemma collect_embeddings_spec (paths : list string) :
  forall acc,
    collect_embeddings paths img_size acc
    = (acc ++ loadable_embeddings paths img_size)%list.
Proof.
  induction paths as [|path rest IH]; intro acc; simpl.
  - now rewrite app_nil_r.
  - destruct (load_image path img_size) as [img|]; rewrite IH; simpl.
    + now rewrite <- app_assoc.
    + reflexivity.
Qed.

Lemma loadable_embeddings_nil (paths : list string) :
  loadable_embeddings paths img_size = [] <->
  forall path, In path paths -> load_image path img_size = None.
Proof.
  unfold loadable_embeddings. induction paths as [|path rest IH]; simpl.
  - split; [intros _ p [] | reflexivity].
  - destruct (load_image path img_size) as [img|] eqn:E; simpl.
    + split; [discriminate|]. intro Hall.
      specialize (Hall path (or_introl eq_refl)). congruence.
    + rewrite IH. split.
      * intros Hall p [<- | Hin]; auto.
      * intros Hall p Hin. apply Hall. right. exact Hin.
Qed.

(** The loop, read back through [get]: a person listed in [items] with an
    image that loads gets the mean; everybody else keeps what the gallery
    had. *)
Lemma build_gallery_loop_get (items : list (string * list string)) :
  forall (gallery : PyDict.t vec) (person_id : string),
    PyDict.wf items ->
    PyDict.get (build_gallery_loop items img_size gallery) person_id
    = match PyDict.get items person_id with
      | Some paths =>
          match loadable_embeddings paths img_size with
          | [] => PyDict.get gallery person_id
          | _ :: _ => Some (np_mean (loadable_embeddings paths img_size))
          end
      | None => PyDict.get gallery person_id
      end.
Proof.
  induction items as [|[k paths] rest IH]; intros gallery person_id Hwf.
  - reflexivity.
  - assert (Hrest : PyDict.wf rest) by (inversion Hwf; assumption).
    assert (Hk : PyDict.get rest k = None).
    { apply get_none_iff. inversion Hwf; assumption. }
    simpl. rewrite collect_embeddings_spec. simpl.
    destruct (String.eqb k person_id) eqn:E.
    + apply String.eqb_eq in E. subst person_id.
      destruct (loadable_embeddings paths img_size) as [|e es];
        rewrite IH by assumption; rewrite Hk; [reflexivity|].
      apply get_set_same.
    + apply String.eqb_neq in E.
      destruct (loadable_embeddings paths img_size) as [|e es];
        rewrite IH by assumption; [reflexivity|].
      rewrite (get_set_other gallery k person_id _ E). reflexivity.
Qed.

(** C2.  For a dictionary of image paths, the gallery built maps each
    person with at least one loadable image to [np.mean(_, axis=0)] of the
    embeddings of that person's loadable images, taken in the order of the
    paths, and has no entry for a person none of whose images load. *)
Theorem build_gallery_embeddings_mean
        (image_paths_dict : PyDict.t (list string))
        (person_id : string) (paths : list string) :
  PyDict.wf image_paths_dict ->
  In (person_id, paths) image_paths_dict ->
  ((exists path, In path paths /\ load_image path img_size <> None) ->
   PyDict.get (build_gallery_embeddings image_paths_dict img_size) person_id
   = Some (np_mean (loadable_embeddings paths img_size))) /\
  ((forall path, In path paths -> load_image path img_size = None) ->
   PyDict.get (build_gallery_embeddings image_paths_dict img_size) person_id
   = None).
Proof.
  intros Hwf Hin.
  unfold build_gallery_embeddings, PyDict.items.
  rewrite build_gallery_loop_get by exact Hwf.
  rewrite (in_get _ _ _ Hwf Hin).
  split.
  - intros (path & Hp & Hload).
    destruct (loadable_embeddings paths img_size) eqn:E; [|reflexivity].
    exfalso. apply Hload. rewrite loadable_embeddings_nil in E. auto.
  - intro Hnone. apply loadable_embeddings_nil in Hnone.
    rewrite Hnone. reflexivity.
Qed.

(** Nobody outside the dictionary gets into the gallery. *)
Lemma build_gallery_embeddings_keys
      (image_paths_dict : PyDict.t (list string)) (person_id : string) :
  PyDict.wf image_paths_dict ->
  ~ In person_id (PyDict.keys image_paths_dict) ->
  PyDict.get (build_gallery_embeddings image_paths_dict img_size) person_id = None.
Proof.
  intros Hwf Hnot. unfold build_gallery_embeddings, PyDict.items.
  rewrite build_gallery_loop_get by exact Hwf.
  apply get_none_iff in Hnot. rewrite Hnot. reflexivity.
Qed.

End BuildGallery.

(** Two images of ann (black and white: embeddings 0 and 1), one of bob that
    loads and one that does not, and carl with no readable image: ann gets
    1/2, bob 128/255, carl nothing. *)
Lemma build_gallery_embeddings_mean_witness :
  let d := [("ann", ["ref/ann__1.jpg"; "ref/ann__2.jpg"]);
            ("bob", ["ref/missing.jpg"; "ref/bob.png"]);
            ("carl", ["ref/carl.jpg"])] in
  (PyDict.get (Utils.build_gallery_embeddings d 1) "ann"
   = Some (np_mean (loadable_embeddings ["ref/ann__1.jpg"; "ref/ann__2.jpg"] 1))) /\
  Qeq (np_mean (loadable_embeddings ["ref/ann__1.jpg"; "ref/ann__2.jpg"] 1)) (1 # 2) /\
  PyDict.get (Utils.build_gallery_embeddings d 1) "carl" = None.
Proof.
  intro d.
  assert (Hwf : PyDict.wf d).
  { unfold PyDict.wf, d. simpl.
    repeat constructor; simpl; intuition discriminate. }
  split; [|split].
  - apply (build_gallery_embeddings_mean 1 d "ann" ["ref/ann__1.jpg"; "ref/ann__2.jpg"] Hwf).
    + left. reflexivity.
    + exists "ref/ann__1.jpg". split; [left; reflexivity | discriminate].
  - vm_compute. reflexivity.
  - apply (build_gallery_embeddings_mean 1 d "carl" ["ref/carl.jpg"] Hwf).
    + right. right. left. reflexivity.
    + intros path [<- | []]. reflexivity.
Defined.

(* ================================================================== *)
(** * detect_and_crop_face: the largest detection *)
(* ================================================================== *)

Section DetectAndCrop.
Import Utils.
Context `{Cv2}.




End DetectAndCrop.



(* ================================================================== *)
(** * initialize_camera: a bounded retry loop *)
(* ================================================================== *)

Section InitializeCamera.
Import App.
Variable cam : camera.
Variable camera_index : Z.

Lemma initialize_loop_spec (attempts : list nat) :
  forall opened slept,
    let r := initialize_loop cam camera_index attempts opened slept in
    (opens r <= opened + List.length attempts)%nat /\
    (forall k,
        (k < List.length attempts)%nat ->
        cam camera_index (opened + k)%nat = true ->
        (forall j, (j < k)%nat -> cam camera_index (opened + j)%nat = false) ->
        outcome r = Ok {| cap_index := camera_index; cap_call := (opened + k)%nat |} /\
        opens r = S (opened + k) /\ sleeps r = (slept + k)%nat) /\
    ((forall k, (k < List.length attempts)%nat ->
                cam camera_index (opened + k)%nat = false) ->
     outcome r = Raise (SystemExit 1) /\
     opens r = (opened + List.length attempts)%nat /\
     sleeps r = (slept + List.length attempts)%nat).
Proof.
  induction attempts as [|attempt rest IH]; intros opened slept; simpl.
  - repeat split; simpl; try lia.
  - destruct (cam camera_index opened) eqn:Hopen; simpl.
    + split; [lia|]. split.
      * intros k Hk Hcam Hbefore.
        destruct k as [|k].
        -- rewrite !Nat.add_0_r. auto.
        -- specialize (Hbefore 0%nat ltac:(lia)).
           rewrite Nat.add_0_r in Hbefore. congruence.
      * intro Hall. specialize (Hall 0%nat ltac:(lia)).
        rewrite Nat.add_0_r in Hall. congruence.
    + destruct (IH (S opened) (S slept)) as (Hle & Hfirst & Hnone).
      split; [lia|]. split.
      * intros k Hk Hcam Hbefore.
        destruct k as [|k].
        -- rewrite Nat.add_0_r in Hcam. congruence.
        -- replace (opened + S k)%nat with (S opened + k)%nat in * by lia.
           replace (slept + S k)%nat with (S slept + k)%nat by lia.
           apply Hfirst; [lia | exact Hcam |].
           intros j Hj. replace (S opened + j)%nat with (opened + S j)%nat by lia.
           apply Hbefore. lia.
      * intro Hall.
        replace (opened + S (List.length rest))%nat
          with (S opened + List.length rest)%nat by lia.
        replace (slept + S (List.length rest))%nat
          with (S slept + List.length rest)%nat by lia.
        apply Hnone. intros k Hk.
        replace (S opened + k)%nat with (opened + S k)%nat by lia.
        apply Hall. lia.
Qed.

(** C4.  [initialize_camera] opens the camera at most [max_retries] times
    (5 when the argument is left out); it returns the capture of the first
    attempt that comes back opened, having made no further attempt, and
    when all [max_retries] attempts fail it leaves with [sys.exit(1)].  The
    run is a value of the function for every camera, so the loop always
    ends. *)
Theorem initialize_camera_bounded (max_retries : option Z) :
  let n := Z.to_nat (match max_retries with
                     | Some n => n
                     | None => 5%Z
                     end) in
  let r := initialize_camera cam camera_index max_retries in
  (opens r <= n)%nat /\
  (forall k,
      (k < n)%nat ->
      cam camera_index k = true ->
      (forall j, (j < k)%nat -> cam camera_index j = false) ->
      outcome r = Ok {| cap_index := camera_index; cap_call := k |} /\
      opens r = S k) /\
  ((forall k, (k < n)%nat -> cam camera_index k = false) ->
   outcome r = Raise (SystemExit 1) /\ opens r = n).
Proof.
  intros n r.
  assert (Hlen : List.length (py_range (match max_retries with
                                        | Some n => n
                                        | None => default_max_retries
                                        end)) = n).
  { unfold py_range. rewrite length_seq. reflexivity. }
  destruct (initialize_loop_spec
              (py_range (match max_retries with
                         | Some n => n
                         | None => default_max_retries
                         end)) 0 0) as (Hle & Hfirst & Hnone).
  rewrite Hlen in Hle, Hfirst, Hnone. simpl in Hle, Hfirst, Hnone.
  fold (initialize_camera cam camera_index max_retries) in Hle, Hfirst, Hnone.
  fold r in Hle, Hfirst, Hnone.
  split; [exact Hle|]. split.
  - intros k Hk Hcam Hbefore.
    destruct (Hfirst k Hk Hcam Hbefore) as (Hout & Hopens & _). auto.
  - intro Hall. destruct (Hnone Hall) as (Hout & Hopens & _). auto.
Qed.

End InitializeCamera.

(** A camera that opens on the third call is returned after three opens; one
    that never opens costs the five default attempts and ends in exit 1. *)
Lemma initialize_camera_bounded_witness :
  (App.outcome (App.initialize_camera (fun _ k => (2 <=? k)%nat) 0 None)
   = Ok {| App.cap_index := 0; App.cap_call := 2 |} /\
   App.opens (App.initialize_camera (fun _ k => (2 <=? k)%nat) 0 None) = 3%nat) /\
  (App.outcome (App.initialize_camera (fun _ _ => false) 0 None)
   = Raise (SystemExit 1) /\
   App.opens (App.initialize_camera (fun _ _ => false) 0 None) = 5%nat).
Proof.
  split.
  - apply (proj1 (proj2 (initialize_camera_bounded
                           (fun _ k => (2 <=? k)%nat) 0%Z None)) 2%nat).
    + vm_compute. repeat constructor.
    + reflexivity.
    + intros j Hj. destruct j as [|[|j]]; [reflexivity | reflexivity | lia].
  - apply (proj2 (proj2 (initialize_camera_bounded (fun _ _ => false) 0%Z None))).
    intros k _. reflexivity.
Defined.

(* ================================================================== *)
(** * preprocess_image: resize and scale into [0, 1] *)
(* ================================================================== *)

Section Preprocess.
Import Utils PyFloatFacts.
Context `{Cv2}.

(** The quotient of an 8-bit value by 255, rounded to [float32], lies
    between the [float32] numbers 0 and 1. *)
Lemma normalize_range (b : byte) : (0 <= normalize b <= 1)%Q.
Proof.
  unfold normalize.
  pose proof (Byte.to_N_bounded b) as Hb.
  set (v := Z.of_N (Byte.to_N b)).
  assert (Hv : (0 <= v <= 255)%Z) by (unfold v; lia).
  assert (Hq : (0 <= inject_Z v / 255 <= 1)%Q).
  { split.
    - apply Qle_shift_div_l; [reflexivity|]. rewrite Qmult_0_l.
      rewrite <- (Zle_Qle 0). lia.
    - apply Qle_shift_div_r; [reflexivity|]. rewrite Qmult_1_l.
      change 255%Q with (inject_Z 255). rewrite <- Zle_Qle. lia. }
  split.
  - apply Qle_trans with (PyFloat.round32q 0);
      [apply Qle_bool_iff; vm_compute; reflexivity | apply round32q_mono, Hq].
  - apply Qle_trans with (PyFloat.round32q 1);
      [apply round32q_mono, Hq | apply Qle_bool_iff; vm_compute; reflexivity].
Qed.

Lemma normalized_components (img : image) :
  forall q, In q (components (map (map (map normalize)) img)) ->
            (0 <= q <= 1)%Q.
Proof.
  unfold components. intros q Hq.
  apply in_concat in Hq. destruct Hq as (pixel & Hpixel & Hq).
  apply in_concat in Hpixel. destruct Hpixel as (row & Hrow & Hpixel).
  apply in_map_iff in Hrow. destruct Hrow as (row0 & <- & _).
  apply in_map_iff in Hpixel. destruct Hpixel as (pixel0 & <- & _).
  apply in_map_iff in Hq. destruct Hq as (b & <- & _).
  apply normalize_range.
Qed.

Lemma has_shape_map {A B : Type} (f : list A -> list B)
      (img : list (list A)) (rows cols : Z) :
  (forall row, List.length (f row) = List.length row) ->
  has_shape img rows cols -> has_shape (map f img) rows cols.
Proof.
  intros Hf [Hrows Hcols]. split.
  - now rewrite length_map.
  - apply Forall_map. eapply Forall_impl; [|exact Hcols].
    intros row Hrow. simpl. now rewrite Hf.
Qed.

(** Where [cv2.resize] returns, the call returns what the application's
    reading of it gives. *)
Lemma preprocess_image_returns (img : option image) (img_size : Z)
      (r : option float_image) :
  Raising.preprocess_image img img_size = Ok r ->
  preprocess_image img img_size = r.
Proof.
  destruct img as [img|]; cbn [Raising.preprocess_image preprocess_image].
  - unfold Raising.resize.
    destruct (cv2_resize_raises img (img_size, img_size)); cbn [bind];
      [discriminate | congruence].
  - congruence.
Qed.

(** C6, as the code has it.  For None [preprocess_image] returns None.  For
    an 8-bit image it raises the [cv2.error] of [cv2.resize] when that call
    raises (an empty image, a size that is not positive); otherwise it
    returns [cv2.resize(img, (img_size, img_size))] with every component
    divided by 255 in [float32]: the result has the shape of the resized
    image, img_size x img_size as [cv2.resize] delivers it, and every
    component lies in [0, 1]. *)
Theorem preprocess_image_normalized (img : image) (img_size : Z) :
  Raising.preprocess_image None img_size = Ok None /\
  (cv2_resize_raises img (img_size, img_size) = true ->
   Raising.preprocess_image (Some img) img_size = Raise (Exception "cv2.error")) /\
  (cv2_resize_raises img (img_size, img_size) = false ->
   exists r,
     Raising.preprocess_image (Some img) img_size = Ok (Some r) /\
     r = map (map (map (fun b =>
                          PyFloat.round32q
                            (inject_Z (Z.of_N (Byte.to_N b)) / 255))))
             (cv2_resize img (img_size, img_size)) /\
     (has_shape (cv2_resize img (img_size, img_size)) img_size img_size ->
      has_shape r img_size img_size) /\
     forall q, In q (components r) -> (0 <= q <= 1)%Q).
Proof.
  split; [reflexivity|]. split.
  - intro Hraises. cbn [Raising.preprocess_image]. unfold Raising.resize.
    rewrite Hraises. reflexivity.
  - intro Hreturns. eexists. split; [|split; [reflexivity|split]].
    + cbn [Raising.preprocess_image]. unfold Raising.resize.
      rewrite Hreturns. reflexivity.
    + apply has_shape_map. intro row. apply length_map.
    + apply normalized_components.
Qed.

End Preprocess.

(** The nearest-neighbour [resize] of the sample setting delivers the size it
    is asked for. *)
Lemma sample_resize_shape (src : image) (n : Z) :
  (0 < n)%Z -> has_shape (Sample.resize src (n, n)) n n.
Proof.
  intro Hn. unfold has_shape, Sample.resize, Sample.nearest. split.
  - rewrite !length_map, length_seq. lia.
  - apply Forall_map, Forall_forall. intros row _.
    rewrite length_map, length_seq. lia.
Qed.

(** The 1 x 2 grey sample at size 2: a 2 x 2 image whose components are
    float32(128/255) = 8421505 / 2^24; a white pixel gives 1 and a black one
    0. *)
Lemma preprocess_image_normalized_witness :
  Utils.Raising.preprocess_image (Some Sample.grey) 2
    = Ok (Some [[[8421505 # 16777216; 8421505 # 16777216; 8421505 # 16777216];
                 [8421505 # 16777216; 8421505 # 16777216; 8421505 # 16777216]];
                [[8421505 # 16777216; 8421505 # 16777216; 8421505 # 16777216];
                 [8421505 # 16777216; 8421505 # 16777216; 8421505 # 16777216]]]) /\
  Utils.Raising.preprocess_image (Some [[[xff; x00; x01]]]) 1
    = Ok (Some [[[1; 0; 8421505 # 2147483648]]]) /\
  Utils.Raising.preprocess_image None 2 = Ok None /\
  exists r,
    Utils.Raising.preprocess_image (Some Sample.grey) 2 = Ok (Some r) /\
    has_shape r 2 2 /\
    forall q, In q (components r) -> (0 <= q <= 1)%Q.
Proof.
  split; [vm_compute; reflexivity|]. split; [vm_compute; reflexivity|].
  split; [reflexivity|].
  destruct (preprocess_image_normalized Sample.grey 2%Z)
    as (_ & _ & Hreturns).
  destruct (Hreturns eq_refl) as (r & Hr & _ & Hshape & Hrange).
  exists r. split; [exact Hr|]. split; [|exact Hrange].
  apply Hshape. apply sample_resize_shape. reflexivity.
Defined.

(** An image without rows is not None, and on it [cv2.resize] raises: so
    does [preprocess_image], at any size, where a result for every image
    that is not None was expected. *)
Lemma preprocess_image_empty_counterexample :
  Utils.Raising.preprocess_image (Some []) 128 = Raise (Exception "cv2.error") /\
  ~ (forall (cv : Cv2) (img : image) (img_size : Z),
        (0 < img_size)%Z ->
        exists r,
          @Utils.Raising.preprocess_image cv (Some img) img_size = Ok (Some r) /\
          forall q, In q (components r) -> (0 <= q <= 1)%Q).
Proof.
  split; [reflexivity|].
  intro Hclaim.
  destruct (Hclaim Sample.cv2_sample [] 128%Z eq_refl) as (r & Hr & _).
  discriminate.
Qed.

(* ================================================================== *)
(** * Strings: prefixes, first occurrences, extensions *)
(* ================================================================== *)

Module PyStrFacts.
Import PyStr.

Lemma prefix_app (p s : string) :
  String.prefix p s = true <-> exists r, s = p ++ r.
Proof.
  revert s. induction p as [|c p IH]; intro s.
  - split; [intros _; exists s; reflexivity | intros _; destruct s; reflexivity].
  - destruct s as [|c' s]; simpl.
    + split; [discriminate | intros [r Hr]; discriminate].
    + destruct (ascii_dec c c') as [->|Hne].
      * rewrite IH. split; intros [r Hr]; exists r; simpl in *; congruence.
      * split; [discriminate | intros [r Hr]; simpl in Hr; congruence].
Qed.

Lemma take_app (p e : string) : take (String.length p) (p ++ e) = p.
Proof. induction p as [|c p IH]; simpl; [destruct e; reflexivity | now rewrite IH]. Qed.

Lemma drop_app (p e : string) : drop (String.length p) (p ++ e) = e.
Proof. induction p as [|c p IH]; simpl; [destruct e; reflexivity | exact IH]. Qed.

Lemma take_drop (n : nat) (s : string) : take n s ++ drop n s = s.
Proof.
  revert s. induction n as [|n IH]; intro s; simpl; [reflexivity|].
  destruct s as [|c s]; simpl; [reflexivity | now rewrite IH].
Qed.

(** The first piece of a split is what comes before the first separator. *)
Lemma split_go_head (sep s : string) :
  sep <> EmptyString ->
  forall cur, hd EmptyString (split_go sep 0 s cur) = cur ++ before_first sep s.
Proof.
  intro Hsep. induction s as [|c s IH]; intro cur.
  - simpl. clear. induction cur; simpl; congruence.
  - cbn [split_go before_first].
    destruct (String.prefix sep (String c s)).
    + simpl. clear. induction cur; simpl; congruence.
    + rewrite IH. clear. induction cur; simpl; congruence.
Qed.

(** [before_first] does stop at the first occurrence: the separator follows
    it, and starts nowhere inside it. *)
Lemma before_first_spec (pattern s : string) :
  contains s pattern = true ->
  (exists rest, s = before_first pattern s ++ pattern ++ rest) /\
  (forall j, (j < String.length (before_first pattern s))%nat ->
             String.prefix pattern (drop j s) = false).
Proof.
  induction s as [|c s IH]; intro Hc.
  - cbn [contains] in Hc. rewrite orb_false_r in Hc. split.
    + apply prefix_app in Hc. exact Hc.
    + simpl. intros j Hj. lia.
  - cbn [contains] in Hc. cbn [before_first].
    destruct (String.prefix pattern (String c s)) eqn:Hp.
    + split; [apply prefix_app in Hp; exact Hp | simpl; intros j Hj; lia].
    + simpl in Hc. destruct (IH Hc) as [[rest Hrest] Hfirst]. split.
      * exists rest. simpl. now rewrite <- Hrest.
      * intros [|j] Hj; [exact Hp|]. simpl in Hj |- *. apply Hfirst. lia.
Qed.

(** ** [lower] and [endswith] *)

Lemma endswith_app (s suffix : string) :
  endswith s suffix = true <-> exists p, s = p ++ suffix.
Proof.
  induction s as [|c s IH]; cbn [endswith].
  - rewrite orb_false_r, String.eqb_eq. split.
    + intros <-. exists EmptyString. reflexivity.
    + intros [p Hp]. destruct p; simpl in Hp; [exact Hp | discriminate].
  - rewrite orb_true_iff, String.eqb_eq, IH. split.
    + intros [<- | [p ->]]; [exists EmptyString | exists (String c p)]; reflexivity.
    + intros [[|c' p] Hp]; simpl in Hp; [left; exact Hp|].
      right. exists p. congruence.
Qed.

Lemma lower_app_inv (s q t : string) :
  lower s = q ++ t -> exists p e, s = p ++ e /\ lower p = q /\ lower e = t.
Proof.
  revert s. induction q as [|c q IH]; intros s Hs; simpl in Hs.
  - exists EmptyString, s. auto.
  - destruct s as [|c' s]; simpl in Hs; [discriminate|].
    inversion Hs as [[Hc Hrest]].
    destruct (IH s Hrest) as (p & e & -> & Hp & He).
    exists (String c' p), e. simpl. rewrite Hp. auto.
Qed.

Lemma lower_ascii_dot (c : ascii) :
  lower_ascii c = extsep <-> c = extsep.
Proof.
  destruct c as [[] [] [] [] [] [] [] []]; vm_compute; split; congruence.
Qed.

(** ** Occurrences of one character *)

Lemma contains_char_cons (a c : ascii) (s : string) :
  contains (String a s) (String c EmptyString)
  = Ascii.eqb a c || contains s (String c EmptyString).
Proof.
  cbn [contains]. f_equal. simpl.
  destruct (ascii_dec c a) as [->|Hne].
  - rewrite Ascii.eqb_refl. destruct s; reflexivity.
  - symmetry. apply Ascii.eqb_neq. congruence.
Qed.

(** Lower-casing creates no dot. *)
Lemma lower_keeps_dotless (s : string) :
  contains (lower s) (String extsep EmptyString) = false ->
  contains s (String extsep EmptyString) = false.
Proof.
  induction s as [|c s IH]; [reflexivity|].
  cbn [lower]. rewrite !contains_char_cons, !orb_false_iff.
  intros [Hc Hs]. split; [|exact (IH Hs)].
  apply Ascii.eqb_neq. apply Ascii.eqb_neq in Hc.
  intro Heq. apply Hc. apply lower_ascii_dot. exact Heq.
Qed.

Lemma rfind_from_absent (c : ascii) (s : string) :
  contains s (String c EmptyString) = false ->
  forall i last, rfind_from c s i last = last.
Proof.
  induction s as [|a s IH]; intros Hc i last; [reflexivity|].
  rewrite contains_char_cons, orb_false_iff in Hc. destruct Hc as [Ha Hs].
  cbn [rfind_from]. rewrite Ha. apply IH. exact Hs.
Qed.

Lemma rfind_from_app (c : ascii) (s1 s2 : string) :
  forall i last,
    rfind_from c (s1 ++ s2) i last
    = rfind_from c s2 (i + Z.of_nat (String.length s1)) (rfind_from c s1 i last).
Proof.
  induction s1 as [|a s1 IH]; intros i last.
  - simpl. now rewrite Z.add_0_r.
  - cbn [append rfind_from String.length]. rewrite IH. f_equal. lia.
Qed.

(** The last dot of [p ++ "." ++ e'] with a dotless [e'] is the one
    shown. *)
Lemma rfind_last_dot (p e' : string) :
  contains e' (String extsep EmptyString) = false ->
  rfind (p ++ String extsep e') extsep = Z.of_nat (String.length p).
Proof.
  intro He. unfold rfind. rewrite rfind_from_app.
  cbn [rfind_from]. rewrite Ascii.eqb_refl.
  rewrite rfind_from_absent by exact He. lia.
Qed.

(** ** [os.path.splitext] *)

Lemma splitext_app (p : string) :
  fst (splitext p) ++ snd (splitext p) = p.
Proof.
  unfold splitext.
  destruct (_ && _); simpl; [apply take_drop|].
  clear. induction p; simpl; congruence.
Qed.

Lemma substring_one (a r : string) (c : ascii) :
  String.substring (String.length a) 1 (a ++ String c r) = String c EmptyString.
Proof.
  induction a as [|c' a IH]; simpl; [destruct r; reflexivity | exact IH].
Qed.

Lemma app_cons_assoc (a r : string) (c : ascii) :
  a ++ String c r = (a ++ String c EmptyString) ++ r.
Proof. induction a; simpl; congruence. Qed.

Lemma length_app_one (a : string) (c : ascii) :
  String.length (a ++ String c EmptyString) = S (String.length a).
Proof. induction a; simpl; congruence. Qed.

(** The loop of [splitext] over a stretch [p] of the name finds a
    character that is not a dot unless [p] is dots only. *)
Lemma splitext_scan_stem (p e : string) :
  forall a,
    splitext_scan (a ++ p ++ e) (String.length a) (String.length p)
    = negb (only_dots p).
Proof.
  induction p as [|c p IH]; intro a; [reflexivity|].
  cbn [String.length splitext_scan only_dots append].
  rewrite substring_one.
  destruct (Ascii.eqb c extsep) eqn:Hc.
  - apply Ascii.eqb_eq in Hc. subst c.
    change (String.eqb (String extsep EmptyString) (String extsep EmptyString))
      with true. cbn [negb andb].
    rewrite app_cons_assoc, <- length_app_one with (c := extsep).
    apply IH.
  - replace (String.eqb (String c EmptyString) (String extsep EmptyString))
      with false; [reflexivity|].
    symmetry. apply String.eqb_neq. apply Ascii.eqb_neq in Hc. congruence.
Qed.

End PyStrFacts.

(* ================================================================== *)
(** * index_images_by_person: files grouped by person *)
(* ================================================================== *)

Section IndexImages.
Import Utils PyStr PyStrFacts PyDictFacts.

(** A kept name is a stem followed by one of the three extensions, in any
    case; [splitext] cuts it there, unless the stem is dots only. *)
Lemma splitext_image (filename : string) :
  is_image filename = true ->
  contains filename (String sep EmptyString) = false ->
  exists stem ext,
    filename = stem ++ ext /\
    In (lower ext) image_suffixes /\
    splitext filename
    = if only_dots stem then (filename, EmptyString) else (stem, ext).
Proof.
  intros Himg Hsep. unfold is_image, endswith_any in Himg.
  apply existsb_exists in Himg. destruct Himg as (sfx & Hsfx & Hend).
  apply endswith_app in Hend. destruct Hend as [q Hq].
  apply lower_app_inv in Hq. destruct Hq as (stem & ext & Hf & _ & Hext).
  exists stem, ext. split; [exact Hf|]. split; [rewrite Hext; exact Hsfx|].
  assert (Hdot : exists e', ext = String extsep e' /\
                            contains e' (String extsep EmptyString) = false).
  { destruct ext as [|c e']; [subst sfx; simpl in Hsfx; intuition discriminate|].
    exists e'. cbn [lower] in Hext.
    assert (Hc : lower_ascii c = extsep /\
                 contains (lower e') (String extsep EmptyString) = false).
    { subst sfx. simpl in Hsfx.
      destruct Hsfx as [H|[H|[H|[]]]]; inversion H as [[Hc He]];
        split; reflexivity. }
    destruct Hc as [Hc He]. apply (proj1 (lower_ascii_dot c)) in Hc. subst c.
    split; [reflexivity | apply lower_keeps_dotless; exact He]. }
  destruct Hdot as (e' & -> & He'). subst filename.
  assert (Hsep_idx : rfind (stem ++ String extsep e') sep = (-1)%Z)
    by (unfold rfind; apply rfind_from_absent; exact Hsep).
  unfold splitext.
  rewrite Hsep_idx, rfind_last_dot by exact He'.
  replace (Z.to_nat (-1 + 1)) with (String.length EmptyString) by reflexivity.
  replace (Z.to_nat (Z.of_nat (String.length stem) - (-1 + 1)))
    with (String.length stem) by lia.
  pose proof (splitext_scan_stem stem (String extsep e') EmptyString) as Hscan.
  change (EmptyString ++ stem ++ String extsep e')
    with (stem ++ String extsep e') in Hscan.
  rewrite Hscan.
  rewrite Nat2Z.id, take_app, drop_app.
  replace (-1 <? Z.of_nat (String.length stem))%Z with true
    by (symmetry; apply Z.ltb_lt; lia).
  destruct (only_dots stem); reflexivity.
Qed.

(** With a separator that is not empty, the code computes the person of
    the description and raises nothing. *)
Lemma person_id_of_spec (filename pattern : string) :
  pattern <> EmptyString ->
  person_id_of filename pattern = Ok (person_of filename pattern).
Proof.
  intro Hpat. unfold person_id_of, person_of.
  destruct (contains filename pattern); [|reflexivity].
  unfold split. destruct pattern as [|c pattern]; [congruence|].
  cbn [bind]. rewrite split_go_head by discriminate. reflexivity.
Qed.

Lemma index_loop_spec (image_dir pattern : string) (filenames : list string) :
  pattern <> EmptyString ->
  forall images_by_person,
  exists result,
    index_loop image_dir pattern filenames images_by_person = Ok result /\
    (PyDict.wf images_by_person -> PyDict.wf result) /\
    forall person_id,
      PyDict.get result person_id
      = extended (PyDict.get images_by_person person_id)
                 (images_of image_dir pattern filenames person_id).
Proof.
  intro Hpat. induction filenames as [|filename rest IH]; intro d.
  - exists d. repeat split; auto.
  - cbn [index_loop]. unfold images_of. cbn [filter]. fold (is_image filename).
    destruct (is_image filename) eqn:Himg; cbn [andb].
    + rewrite person_id_of_spec by exact Hpat. cbn [bind].
      set (person := person_of filename pattern).
      set (d1 := if negb (PyDict.contains d person)
                 then PyDict.set d person [] else d).
      set (images := match PyDict.get d1 person with Some l => l | None => [] end).
      assert (Himages : images = match PyDict.get d person with
                                 | Some l => l | None => [] end).
      { unfold images, d1, PyDict.contains.
        destruct (PyDict.get d person) eqn:E; simpl; [now rewrite E|].
        now rewrite get_set_same. }
      destruct (IH (PyDict.set d1 person (images ++ [PyStr.join image_dir filename])%list))
        as (result & Hloop & Hwf & Hget).
      exists result. split; [exact Hloop|]. split.
      * intro Hd. apply Hwf, wf_set. unfold d1.
        destruct (negb (PyDict.contains d person)); [apply wf_set|]; exact Hd.
      * intro person_id. rewrite Hget. unfold images_of.
        destruct (String.eqb person person_id) eqn:E.
        -- apply String.eqb_eq in E. subst person_id.
           rewrite get_set_same, Himages. cbn [map]. unfold extended.
           destruct (map _ _); [reflexivity|].
           now rewrite <- app_assoc.
        -- apply String.eqb_neq in E. rewrite get_set_other by exact E.
           f_equal. unfold d1.
           destruct (negb (PyDict.contains d person)); [|reflexivity].
           apply get_set_other. exact E.
    + destruct (IH d) as (result & Hloop & Hwf & Hget).
      exists result. auto.
Qed.

End IndexImages.

Section IndexImagesByPerson.
Import Utils PyStr PyStrFacts PyDictFacts.

(** C5.  For a directory that does not exist [index_images_by_person]
    returns the empty mapping.  For a directory listing it returns a
    mapping in which a person has exactly the paths of the files whose
    lower-cased name ends with .jpg, .jpeg or .png and that stand for that
    person, in listing order, and no entry when there is no such file; so a
    file is included if and only if its name ends that way, under one
    person only.  That person is the part of the name before the first
    "__" when "__" occurs in the name; otherwise it is the first component
    of [os.path.splitext], the name without its .jpg, .jpeg or .png
    extension (a name whose stem is dots only, such as ".jpg", has no
    extension for [splitext] and is kept whole). *)
Theorem index_images_by_person_groups (fs : filesystem) (image_dir : string) :
  (fs image_dir = Missing ->
   index_images_by_person fs image_dir "__" = Ok PyDict.empty) /\
  (forall listing,
      fs image_dir = Directory listing ->
      exists d,
        index_images_by_person fs image_dir "__" = Ok d /\
        PyDict.wf d /\
        (forall person_id,
            PyDict.get d person_id
            = match images_of image_dir "__" listing person_id with
              | [] => None
              | path :: paths => Some (path :: paths)
              end) /\
        (forall person_id paths path,
            PyDict.get d person_id = Some paths ->
            (In path paths <->
             exists filename,
               In filename listing /\
               is_image filename = true /\
               person_of filename "__" = person_id /\
               path = PyStr.join image_dir filename))) /\
  (forall filename,
      contains filename "__" = true ->
      exists rest,
        filename = person_of filename "__" ++ "__" ++ rest /\
        forall j, (j < String.length (person_of filename "__"))%nat ->
                  String.prefix "__" (drop j filename) = false) /\
  (forall filename,
      contains filename "__" = false ->
      is_image filename = true ->
      contains filename "/" = false ->
      exists stem ext,
        filename = stem ++ ext /\
        In (lower ext) image_suffixes /\
        person_of filename "__" = if only_dots stem then filename else stem).
Proof.
  split; [|split; [|split]].
  - intro Hfs. unfold index_images_by_person, os_path_exists.
    rewrite Hfs. reflexivity.
  - intros listing Hfs.
    unfold index_images_by_person, os_path_exists, os_listdir.
    rewrite Hfs. cbn [negb bind].
    destruct (index_loop_spec image_dir "__" listing ltac:(discriminate) PyDict.empty)
      as (d & Hloop & Hwf & Hget).
    exists d. split; [exact Hloop|]. split; [apply Hwf; constructor|].
    assert (Hentry : forall person_id,
               PyDict.get d person_id
               = match images_of image_dir "__" listing person_id with
                 | [] => None
                 | path :: paths => Some (path :: paths)
                 end).
    { intro person_id. rewrite Hget. unfold extended. simpl.
      destruct (images_of image_dir "__" listing person_id); reflexivity. }
    split; [exact Hentry|].
    intros person_id paths path Hpaths. rewrite Hentry in Hpaths.
    assert (Heq : paths = images_of image_dir "__" listing person_id).
    { destruct (images_of image_dir "__" listing person_id); congruence. }
    subst paths. clear Hpaths. unfold images_of.
    rewrite in_map_iff. split.
    + intros (filename & Hpath & Hin). apply filter_In in Hin.
      destruct Hin as [Hin Hsel]. apply andb_true_iff in Hsel.
      destruct Hsel as [Himg Hperson]. apply String.eqb_eq in Hperson.
      exists filename. auto.
    + intros (filename & Hin & Himg & Hperson & Hpath).
      exists filename. split; [auto|]. apply filter_In. split; [exact Hin|].
      rewrite Himg. apply String.eqb_eq in Hperson. exact Hperson.
  - intros filename Hc. unfold person_of. rewrite Hc.
    destruct (before_first_spec "__" filename Hc) as [[rest Hrest] Hfirst].
    exists rest. split; assumption.
  - intros filename Hc Himg Hsep. unfold person_of. rewrite Hc.
    destruct (splitext_image filename Himg Hsep) as (stem & ext & Hf & Hext & Hsplit).
    exists stem, ext. split; [exact Hf|]. split; [exact Hext|].
    rewrite Hsplit. destruct (only_dots stem); reflexivity.
Qed.

End IndexImagesByPerson.

(** The sample directory holds ann__1.jpg, notes.txt, bob.PNG and
    ann__2.jpeg: ann gets her two files, bob his one, and notes.txt is left
    out. *)
Lemma index_images_by_person_groups_witness :
  Utils.index_images_by_person Sample.reference_dir "ref" "__"
    = Ok [("ann", ["ref/ann__1.jpg"; "ref/ann__2.jpeg"]); ("bob", ["ref/bob.PNG"])] /\
  Utils.index_images_by_person Sample.reference_dir "nowhere" "__" = Ok PyDict.empty /\
  (exists rest,
      "ann__1.jpg" = person_of "ann__1.jpg" "__" ++ "__" ++ rest /\
      forall j, (j < String.length (person_of "ann__1.jpg" "__"))%nat ->
                String.prefix "__" (PyStr.drop j "ann__1.jpg") = false) /\
  (exists stem ext,
      "bob.PNG" = stem ++ ext /\
      In (PyStr.lower ext) Utils.image_suffixes /\
      person_of "bob.PNG" "__" = if only_dots stem then "bob.PNG" else stem).
Proof.
  pose proof (index_images_by_person_groups Sample.reference_dir "nowhere") as Hnowhere.
  pose proof (index_images_by_person_groups Sample.reference_dir "ref") as Href.
  split; [reflexivity|]. split; [|split].
  - apply (proj1 Hnowhere). reflexivity.
  - apply (proj1 (proj2 (proj2 Href)) "ann__1.jpg"). reflexivity.
  - apply (proj2 (proj2 (proj2 Href)) "bob.PNG"); reflexivity.
Defined.

(* ================================================================== *)
(** * capture_image: one frame within the timeout *)
(* ================================================================== *)

Section CaptureImage.
Import CameraUtils.
Variable w : world.
Variable timeout : Q.

Lemma first_frame_some (read : nat -> option image) (n : nat) :
  forall i frame,
    first_frame read i n = Some frame <->
    exists k, (k < n)%nat /\ read (i + k)%nat = Some frame /\
              forall j, (j < k)%nat -> read (i + j)%nat = None.
Proof.
  induction n as [|n IH]; intros i frame; simpl.
  - split; [discriminate | intros (k & Hk & _); lia].
  - destruct (read i) as [f|] eqn:Hread.
    + split.
      * intro Hf. exists 0%nat. rewrite Nat.add_0_r.
        split; [lia|]. split; [congruence|]. intros j Hj. lia.
      * intros (k & Hk & Hframe & Hbefore).
        destruct k as [|k]; [rewrite Nat.add_0_r in Hframe; congruence|].
        specialize (Hbefore 0%nat ltac:(lia)).
        rewrite Nat.add_0_r in Hbefore. congruence.
    + rewrite IH. split.
      * intros (k & Hk & Hframe & Hbefore). exists (S k).
        split; [lia|]. rewrite Nat.add_succ_r. split; [exact Hframe|].
        intros [|j] Hj; [now rewrite Nat.add_0_r|].
        rewrite Nat.add_succ_r. apply Hbefore. lia.
      * intros (k & Hk & Hframe & Hbefore).
        destruct k as [|k]; [rewrite Nat.add_0_r in Hframe; congruence|].
        exists k. split; [lia|]. rewrite Nat.add_succ_r in Hframe.
        split; [exact Hframe|]. intros j Hj.
        specialize (Hbefore (S j) ltac:(lia)).
        now rewrite Nat.add_succ_r in Hbefore.
Qed.

Lemma first_frame_none (read : nat -> option image) (n : nat) :
  forall i,
    first_frame read i n = None <->
    forall k, (k < n)%nat -> read (i + k)%nat = None.
Proof.
  induction n as [|n IH]; intro i; simpl.
  - split; [intros _ k Hk; lia | reflexivity].
  - destruct (read i) as [f|] eqn:Hread.
    + split; [discriminate|]. intro Hall.
      specialize (Hall 0%nat ltac:(lia)). rewrite Nat.add_0_r in Hall. congruence.
    + rewrite IH. split.
      * intros Hall [|k] Hk; [now rewrite Nat.add_0_r|].
        rewrite Nat.add_succ_r. apply Hall. lia.
      * intros Hall k Hk. specialize (Hall (S k) ltac:(lia)).
        now rewrite Nat.add_succ_r in Hall.
Qed.

(** The loop without the preview window, entered for the [i]-th time with
    no frame yet, when the deadline is met at test [N]: it ends with the
    first valid frame of the reads before [N] and writes nothing. *)
Lemma capture_loop_spec (N : nat) :
  within w timeout N = false ->
  (forall i, (i < N)%nat -> within w timeout i = true) ->
  forall fuel i s,
    time_calls s = S i -> read_calls s = i ->
    (i <= N)%nat -> (N - i < fuel)%nat ->
    exists s',
      capture_loop w timeout false (clock w 0) fuel None s
      = Some (Ok (first_frame (cap_read w) i (N - i)), s') /\
      written s' = written s.
Proof.
  intros Hmet Hbefore. induction fuel as [|fuel IH]; intros i s Ht Hr Hi Hfuel; [lia|].
  cbn [capture_loop]. rewrite Ht.
  change (PyFloat.Qltb (clock w (S i) - clock w 0) timeout) with (within w timeout i).
  destruct (Nat.eq_dec i N) as [->|Hne].
  - rewrite Hmet, Nat.sub_diag. eexists. split; reflexivity.
  - rewrite Hbefore by lia.
    replace (N - i)%nat with (S (N - S i)) by lia.
    cbn [tick_time read_calls first_frame]. rewrite Hr.
    destruct (cap_read w i) as [tmp|].
    + eexists. split; reflexivity.
    + destruct (IH (S i) (tick_read (tick_time s))) as (s' & Hloop & Hw);
        [simpl; congruence | simpl; congruence | lia | lia |].
      exists s'. split; [exact Hloop | exact Hw].
Qed.

End CaptureImage.

Section CaptureImageLocal.
Import CameraUtils.
Variable w : world.

(** Outside Colab and without the preview window, under a clock that meets
    the deadline at its [N]-th test, [capture_image] ends.  With the camera
    open and a valid frame read before the deadline it releases the camera
    and hands the first such frame to [cv2.imwrite]; it raises when the
    camera does not open, when no read before the deadline is valid, and
    when [cv2.imwrite] raises, and in no other case. *)
Lemma capture_image_local_outcomes
      (filename : string) (camera_index : Z) (timeout quality : Q)
      (N fuel : nat) :
  in_colab w = false ->
  within w timeout N = false ->
  (forall i, (i < N)%nat -> within w timeout i = true) ->
  (N < fuel)%nat ->
  exists r s,
    capture_image w filename camera_index timeout false quality fuel = Some (r, s) /\
    (forall frame,
        isOpened w camera_index = true ->
        (exists k, (k < N)%nat /\ cap_read w k = Some frame /\
                   forall j, (j < k)%nat -> cap_read w j = None) ->
        r = match cv2_imwrite w filename frame with
            | Ok _ => Ok filename
            | Raise e => Raise e
            end /\
        written s = match cv2_imwrite w filename frame with
                    | Ok true => [(filename, frame)]
                    | _ => []
                    end /\
        released s = true) /\
    (forall v, r = Ok v -> v = filename) /\
    (raises r <->
     isOpened w camera_index = false \/
     (forall k, (k < N)%nat -> cap_read w k = None) \/
     exists frame, first_frame (cap_read w) 0 N = Some frame /\
                   raises (cv2_imwrite w filename frame)).
Proof.
  intros Hlocal Hmet Hbefore Hfuel. unfold capture_image. rewrite Hlocal.
  destruct (isOpened w camera_index) eqn:Hopen; cbn [negb].
  - destruct (capture_loop_spec w timeout N Hmet Hbefore fuel 0 (tick_time initial))
      as (s' & Hloop & Hw); [reflexivity | reflexivity | lia | lia |].
    cbn [time_calls initial]. rewrite Hloop, Nat.sub_0_r.
    destruct (first_frame (cap_read w) 0 N) as [frame0|] eqn:Hfirst.
    + unfold imwrite.
      destruct (cv2_imwrite w filename frame0) as [[|]|e] eqn:Hwrite;
        (eexists _, _; split; [reflexivity|]; split; [|split]).
      * intros frame _ Hread.
        apply (first_frame_some (cap_read w) N 0 frame) in Hread.
        assert (frame = frame0) as -> by congruence. rewrite Hwrite.
        split; [reflexivity|]. split; [|reflexivity].
        simpl. rewrite Hw. reflexivity.
      * intros v Hv. congruence.
      * split.
        -- intros [e He]. discriminate.
        -- intros [Hclosed | [Hnone | (frame & Hframe & e & He)]]; [discriminate| |].
           ++ apply (first_frame_none (cap_read w) N 0) in Hnone. congruence.
           ++ congruence.
      * intros frame _ Hread.
        apply (first_frame_some (cap_read w) N 0 frame) in Hread.
        assert (frame = frame0) as -> by congruence. rewrite Hwrite.
        split; [reflexivity|]. split; [|reflexivity].
        simpl. rewrite Hw. reflexivity.
      * intros v Hv. congruence.
      * split.
        -- intros [e He]. discriminate.
        -- intros [Hclosed | [Hnone | (frame & Hframe & e & He)]]; [discriminate| |].
           ++ apply (first_frame_none (cap_read w) N 0) in Hnone. congruence.
           ++ congruence.
      * intros frame _ Hread.
        apply (first_frame_some (cap_read w) N 0 frame) in Hread.
        assert (frame = frame0) as -> by congruence. rewrite Hwrite.
        split; [reflexivity|]. split; [|reflexivity].
        simpl. rewrite Hw. reflexivity.
      * intros v Hv. discriminate.
      * split.
        -- intros _. right. right. exists frame0. split; [reflexivity|].
           exists e. exact Hwrite.
        -- intros _. eexists. reflexivity.
    + eexists _, _. split; [reflexivity|]. split; [|split].
      * intros frame _ Hread.
        apply (first_frame_some (cap_read w) N 0 frame) in Hread. congruence.
      * intros v Hv. discriminate.
      * split.
        -- intros _. right. left. apply (first_frame_none (cap_read w) N 0). exact Hfirst.
        -- intros _. eexists. reflexivity.
  - eexists _, _. split; [reflexivity|]. split; [|split].
    + intros frame Hclosed. discriminate.
    + intros v Hv. discriminate.
    + split; [intros _; left; reflexivity | intros _; eexists; reflexivity].
Qed.

(** C10, where the code departs from it.  Outside Colab and without the
    preview window, under a clock that meets the deadline at its [N]-th
    test, with the camera open and [frame] the first valid frame read
    before the deadline: [capture_image] ends with the camera released,
    and what it returns follows [cv2.imwrite], whose result the code does
    not look at.  When [cv2.imwrite] returns False (the directory of
    [filename] does not exist) the call returns [filename] although no
    file was written; when [cv2.imwrite] raises (the name has no known
    extension) the call raises although the camera opened and a valid
    frame arrived in time; only when [cv2.imwrite] returns True is the
    frame in the file [filename] that is returned. *)
Theorem capture_image_unwritten
        (filename : string) (camera_index : Z) (timeout quality : Q)
        (N fuel k : nat) (frame : image) :
  in_colab w = false ->
  within w timeout N = false ->
  (forall i, (i < N)%nat -> within w timeout i = true) ->
  (N < fuel)%nat ->
  isOpened w camera_index = true ->
  (k < N)%nat ->
  cap_read w k = Some frame ->
  (forall j, (j < k)%nat -> cap_read w j = None) ->
  exists s,
    capture_image w filename camera_index timeout false quality fuel
    = Some (match cv2_imwrite w filename frame with
            | Ok _ => Ok filename
            | Raise e => Raise e
            end, s) /\
    written s = match cv2_imwrite w filename frame with
                | Ok true => [(filename, frame)]
                | Ok false => []
                | Raise _ => []
                end /\
    released s = true.
Proof.
  intros Hlocal Hmet Hbefore Hfuel Hopen Hk Hread Hnone.
  destruct (capture_image_local_outcomes filename camera_index timeout quality
              N fuel Hlocal Hmet Hbefore Hfuel) as (r & s & Hrun & Hframe & _).
  destruct (Hframe frame Hopen) as (Hr & Hw & Hrel).
  { exists k. split; [exact Hk|]. split; [exact Hread | exact Hnone]. }
  exists s. rewrite Hrun, Hr. split; [reflexivity|]. split; [|exact Hrel].
  rewrite Hw. destruct (cv2_imwrite w filename frame) as [[|]|e]; reflexivity.
Qed.

End CaptureImageLocal.

(** The sample webcam with a timeout of five seconds: the tests pass four
    times and the third read yields the frame.  Asked for
    nodir/photo.jpg, a directory that does not exist, the call returns
    that name with no file written; asked for photo it raises
    [cv2.error]; asked for photo.jpg it writes the frame there. *)
Lemma capture_image_unwritten_witness :
  CameraUtils.capture_image Sample.webcam "nodir/photo.jpg" 0 5 false (8 # 10) 10
    = Some (Ok "nodir/photo.jpg",
            {| CameraUtils.time_calls := 4; CameraUtils.read_calls := 3;
               CameraUtils.key_calls := 0; CameraUtils.released := true;
               CameraUtils.written := [] |}) /\
  CameraUtils.capture_image Sample.webcam "photo" 0 5 false (8 # 10) 10
    = Some (Raise (Exception "cv2.error"),
            {| CameraUtils.time_calls := 4; CameraUtils.read_calls := 3;
               CameraUtils.key_calls := 0; CameraUtils.released := true;
               CameraUtils.written := [] |}) /\
  CameraUtils.capture_image Sample.webcam "photo.jpg" 0 5 false (8 # 10) 10
    = Some (Ok "photo.jpg",
            {| CameraUtils.time_calls := 4; CameraUtils.read_calls := 3;
               CameraUtils.key_calls := 0; CameraUtils.released := true;
               CameraUtils.written := [("photo.jpg", Sample.grey)] |}) /\
  exists s,
    CameraUtils.capture_image Sample.webcam "nodir/photo.jpg" 0 5 false (8 # 10) 10
    = Some (match CameraUtils.cv2_imwrite Sample.webcam "nodir/photo.jpg" Sample.grey with
            | Ok _ => Ok "nodir/photo.jpg"
            | Raise e => Raise e
            end, s) /\
    CameraUtils.written s
    = match CameraUtils.cv2_imwrite Sample.webcam "nodir/photo.jpg" Sample.grey with
      | Ok true => [("nodir/photo.jpg", Sample.grey)]
      | Ok false => []
      | Raise _ => []
      end /\
    CameraUtils.released s = true.
Proof.
  split; [reflexivity|]. split; [reflexivity|]. split; [reflexivity|].
  apply (capture_image_unwritten Sample.webcam "nodir/photo.jpg" 0%Z 5 (8 # 10)
           4 10 2 Sample.grey).
  - reflexivity.
  - reflexivity.
  - intros i Hi.
    destruct i as [|[|[|[|i]]]]; [reflexivity | reflexivity | reflexivity | reflexivity | lia].
  - lia.
  - reflexivity.
  - lia.
  - reflexivity.
  - intros j Hj. destruct j as [|[|j]]; [reflexivity | reflexivity | lia].
Defined.

(* ================================================================== *)
(** * TRTInfer: what the constructor raises *)
(* ================================================================== *)

Section TrtInit.
Import TrtInference.
Variable h : host.
Variable engine_path : string.

(** The three refusals of the constructor. *)
Lemma init_refusals (input_shape : option (Z * Z * Z)) :
  (trt_imported h = false ->
   init h engine_path input_shape
   = Raise (RuntimeError "TensorRT / PyCUDA import failed")) /\
  (trt_imported h = true -> fs h engine_path = Missing ->
   init h engine_path input_shape
   = Raise (FileNotFoundError "Engine file not found")) /\
  (trt_imported h = true -> fs h engine_path = RegularFile ->
   deserialize_cuda_engine h engine_path = None ->
   init h engine_path input_shape
   = Raise (RuntimeError "Failed to deserialize engine")).
Proof.
  unfold init, os_path_exists, open_rb. repeat split.
  - intros ->. reflexivity.
  - intros -> ->. reflexivity.
  - intros -> -> ->. reflexivity.
Qed.

Lemma detect_input_none (bs : list binding) :
  (forall b, In b bs -> binding_is_input b = false) ->
  detect_input bs = (None, None).
Proof.
  induction bs as [|b bs IH]; intro Hall; [reflexivity|].
  simpl. rewrite (Hall b (or_introl eq_refl)).
  apply IH. intros b' Hb'. apply Hall. right. exact Hb'.
Qed.

Lemma detect_input_some (bs : list binding) :
  (exists b, In b bs /\ binding_is_input b = true) ->
  exists name shape, detect_input bs = (Some name, Some shape).
Proof.
  induction bs as [|b bs IH]; intros (b0 & Hin & Hinput); [destruct Hin|].
  simpl. destruct (binding_is_input b) eqn:E; [eauto|].
  apply IH. destruct Hin as [-> | Hin]; [congruence | eauto].
Qed.

(** With TensorRT imported, a readable engine file that deserializes and
    bindings that report their shapes, the constructor succeeds as soon as
    an input shape is passed or the engine has an input binding. *)
Lemma init_succeeds (input_shape : option (Z * Z * Z)) (eng : engine)
      (names : list string) :
  trt_imported h = true ->
  fs h engine_path = RegularFile ->
  deserialize_cuda_engine h engine_path = Some eng ->
  collect_bindings (bindings eng) = Ok names ->
  input_shape <> None \/
  (exists b, In b (bindings eng) /\ binding_is_input b = true) ->
  exists obj, init h engine_path input_shape = Ok obj.
Proof.
  intros Htrt Hfs Heng Hnames Hshape.
  unfold init, os_path_exists, open_rb. rewrite Htrt, Hfs, Heng, Hnames.
  cbn [negb bind].
  destruct (detect_input (bindings eng)) as [input_binding bs] eqn:Hdetect.
  destruct input_shape as [shape|]; [eexists; reflexivity|].
  destruct Hshape as [Hshape | Hinput]; [congruence|].
  apply detect_input_some in Hinput. destruct Hinput as (name & shape & Hsome).
  rewrite Hsome in Hdetect. inversion Hdetect; subst.
  destruct shape; eexists; reflexivity.
Qed.

(** C7, where the code departs from it.  With TensorRT imported, the
    engine file present and readable and the engine deserialized, the
    constructor still raises when no input shape is passed and the engine
    has no input binding: the local variable [bs] is read without ever
    having been assigned. *)
Theorem init_unbound_bs (eng : engine) (names : list string) :
  trt_imported h = true ->
  fs h engine_path = RegularFile ->
  deserialize_cuda_engine h engine_path = Some eng ->
  collect_bindings (bindings eng) = Ok names ->
  (forall b, In b (bindings eng) -> binding_is_input b = false) ->
  init h engine_path None = Raise (UnboundLocalError "bs").
Proof.
  intros Htrt Hfs Heng Hnames Hnone.
  unfold init, os_path_exists, open_rb. rewrite Htrt, Hfs, Heng, Hnames.
  cbn [negb bind]. rewrite (detect_input_none _ Hnone). reflexivity.
Qed.

End TrtInit.

(** The output-only engine of the sample host: construction raises
    UnboundLocalError; the engine with an input constructs. *)
Lemma init_unbound_bs_witness :
  TrtInference.init Sample.jetson "constant.trt" None
    = Raise (UnboundLocalError "bs") /\
  TrtInference.init Sample.jetson "model.trt" None
    = Ok {| TrtInference.self_engine_path := "model.trt";
            TrtInference.self_engine := Sample.extractor;
            TrtInference.self_bindings := ["image"; "embedding"];
            TrtInference.self_input_binding := Some "image";
            TrtInference.self_input_shape := Some (128, 128, 3)%Z |}.
Proof.
  split; [|reflexivity].
  apply (init_unbound_bs Sample.jetson "constant.trt" Sample.output_only ["embedding"]).
  - reflexivity.
  - reflexivity.
  - reflexivity.
  - reflexivity.
  - intros b [<- | []]. reflexivity.
Defined.

(* ================================================================== *)
(** * identify_face: the verdict and the threshold *)
(* ================================================================== *)

Section IdentifyThreshold.
Import Utils PyFloatFacts IdentifyFacts.
Context {vec : Type} `{NumPy vec}.

(** The distance the loop ends with is infinity or below it: never NaN. *)
Lemma identify_scan_number (query : vec) (gallery : PyDict.t vec)
      (d : pyfloat) (person : string) :
  identify_scan query gallery PyFloat.inf UNKNOWN = (d, person) ->
  d <> PyFloat.nan.
Proof.
  intro Hscan. apply identify_scan_spec in Hscan.
  destruct Hscan as [(-> & _) | (l1 & e & l2 & _ & _ & Hlt & _)].
  - discriminate.
  - apply ltb_not_nan in Hlt. tauto.
Qed.

(** X1.  [identify_face] reports MATCH exactly when some gallery embedding
    lies strictly within the threshold of the query, distance and threshold
    being compared as NumPy compares them (the threshold rounded to float32
    where NumPy 2 meets a float32 distance); the verdict therefore does not
    depend on the order of the gallery. *)
Theorem identify_face_match_iff
        (query : vec) (gallery : PyDict.t vec) (threshold : pyfloat) :
  snd (identify_face query gallery threshold) = MATCH <->
  exists k e, In (k, e) gallery /\
              PyFloat.ltb (np_linalg_norm (np_sub query e))
                          (if np_weak_float32 then PyFloat.round32 threshold
                           else threshold) = true.
Proof.
  change (if np_weak_float32 then PyFloat.round32 threshold else threshold)
    with (compared threshold).
  change (fun e => np_linalg_norm (np_sub query e)) with (euclidean_distance query).
  destruct (identify_scan query gallery PyFloat.inf UNKNOWN) as [d p0] eqn:Hscan.
  rewrite (identify_face_unfold query gallery threshold d p0 Hscan). cbn [snd].
  pose proof (identify_scan_number query gallery d p0 Hscan) as Hnum.
  apply identify_scan_spec in Hscan.
  split.
  - intro Hmatch.
    destruct (PyFloat.ltb d (compared threshold)) eqn:Hlt; [|discriminate].
    destruct Hscan as [(-> & _) | (l1 & e & l2 & Hg & Hde & _)].
    + rewrite ltb_inf_l in Hlt. discriminate.
    + exists p0, e. split; [|unfold euclidean_distance in Hde; now rewrite Hde].
      rewrite Hg. apply in_or_app. right. left. reflexivity.
  - intros (k & e & Hin & Hclose).
    change (np_linalg_norm (np_sub query e)) with (euclidean_distance query e)
      in Hclose.
    assert (Hlow : PyFloat.ltb (euclidean_distance query e) d = false).
    { destruct Hscan as [(-> & _ & Hall) | (l1 & e0 & l2 & Hg & Hde & _ & Hl1 & Hl2)].
      - eapply Hall. exact Hin.
      - rewrite Hg in Hin. apply in_app_or in Hin.
        destruct Hin as [Hin | [Heq | Hin]].
        + apply leb_false_not_ltb. eapply Hl1. exact Hin.
        + inversion Heq; subst. apply ltb_irrefl.
        + eapply Hl2. exact Hin. }
    rewrite (below_through _ d (compared threshold) Hnum Hlow Hclose). reflexivity.
Qed.

(** X2.  The distance returned does not depend on the threshold, and raising
    the threshold keeps a match: a query that matches a person under one
    threshold matches the same person at the same distance under every
    threshold at or above it. *)
Theorem identify_face_threshold_monotone
        (query : vec) (gallery : PyDict.t vec) (t1 t2 : pyfloat)
        (person : string) (d : pyfloat) :
  PyFloat.leb t1 t2 = true ->
  identify_face query gallery t1 = (person, d, MATCH) ->
  identify_face query gallery t2 = (person, d, MATCH) /\
  forall t3, snd (fst (identify_face query gallery t3)) = d.
Proof.
  intros Hle Hid.
  destruct (identify_scan query gallery PyFloat.inf UNKNOWN) as [d0 p0] eqn:Hscan.
  rewrite (identify_face_unfold query gallery t1 d0 p0 Hscan) in Hid.
  destruct (PyFloat.ltb d0 (compared t1)) eqn:Hlt; [|discriminate].
  inversion Hid; subst. split.
  - rewrite (identify_face_unfold query gallery t2 d person Hscan).
    rewrite (ltb_leb_trans _ _ _ Hlt (compared_mono t1 t2 Hle)). reflexivity.
  - intro t3. rewrite (identify_face_unfold query gallery t3 d person Hscan).
    reflexivity.
Qed.

End IdentifyThreshold.

(** Ann matches at threshold 0.6, and still does at threshold 1. *)
Lemma identify_face_threshold_monotone_witness :
  Utils.identify_face 1 Sample.gallery (PyFloat.fin 1)
    = ("ann", PyFloat.fin (1 # 2), Utils.MATCH) /\
  forall t3, snd (fst (Utils.identify_face 1 Sample.gallery t3)) = PyFloat.fin (1 # 2).
Proof.
  apply (identify_face_threshold_monotone
           1 Sample.gallery (PyFloat.fin (6 # 10)) (PyFloat.fin 1)
           "ann" (PyFloat.fin (1 # 2)));
    reflexivity.
Defined.

(* ================================================================== *)
(** * build_gallery_embeddings and load_image: who gets into the gallery *)
(* ================================================================== *)

Section GalleryKeys.
Import Utils PyDictFacts.
Context {vec : Type} `{NumPy vec} `{Model vec} `{Cv2}.
Variable img_size : Z.

Lemma has_loadable_false (paths : list string) :
  has_loadable paths img_size = false <-> loadable_embeddings paths img_size = [].
Proof.
  unfold has_loadable, loadable_embeddings.
  induction paths as [|path rest IH]; simpl; [tauto|].
  destruct (load_image path img_size); simpl; [split; discriminate | exact IH].
Qed.

Lemma build_gallery_loop_wf (items : list (string * list string)) :
  forall gallery : PyDict.t vec,
    PyDict.wf gallery -> PyDict.wf (build_gallery_loop items img_size gallery).
Proof.
  induction items as [|[k paths] rest IH]; intros gallery Hwf; simpl; [exact Hwf|].
  destruct (collect_embeddings paths img_size []); apply IH; [exact Hwf|].
  apply wf_set. exact Hwf.
Qed.

Lemma build_gallery_loop_keys (items : list (string * list string)) :
  forall gallery : PyDict.t vec,
    NoDup (PyDict.keys gallery ++ PyDict.keys items) ->
    PyDict.keys (build_gallery_loop items img_size gallery)
    = (PyDict.keys gallery
       ++ PyDict.keys (filter (fun entry => has_loadable (snd entry) img_size) items))%list.
Proof.
  induction items as [|[k paths] rest IH]; intros gallery Hnd; simpl.
  - now rewrite app_nil_r.
  - rewrite collect_embeddings_spec. simpl.
    assert (Hk : ~ In k (PyDict.keys gallery)).
    { intro Hin. apply NoDup_remove_2 in Hnd. apply Hnd.
      apply in_or_app. left. exact Hin. }
    destruct (has_loadable paths img_size) eqn:Hload.
    + destruct (loadable_embeddings paths img_size) as [|e es] eqn:Hemb.
      * apply has_loadable_false in Hemb. congruence.
      * rewrite IH.
        -- rewrite keys_set. unfold PyDict.contains.
           apply get_none_iff in Hk. rewrite Hk.
           simpl. now rewrite <- app_assoc.
        -- rewrite keys_set. unfold PyDict.contains.
           apply get_none_iff in Hk. rewrite Hk.
           rewrite <- app_assoc. exact Hnd.
    + apply has_loadable_false in Hload. rewrite Hload.
      apply IH. simpl in Hnd. apply NoDup_remove_1 in Hnd. exact Hnd.
Qed.

(** X3.  The gallery built from a dictionary of image paths has exactly the
    persons with at least one image that loads, in the order of the
    dictionary, each once. *)
Theorem build_gallery_embeddings_keys_order
        (image_paths_dict : PyDict.t (list string)) :
  PyDict.wf image_paths_dict ->
  PyDict.keys (build_gallery_embeddings image_paths_dict img_size)
  = PyDict.keys (filter (fun entry => has_loadable (snd entry) img_size)
                        image_paths_dict) /\
  PyDict.wf (build_gallery_embeddings image_paths_dict img_size).
Proof.
  intro Hwf. unfold build_gallery_embeddings, PyDict.items, PyDict.empty. split.
  - rewrite build_gallery_loop_keys; [reflexivity | exact Hwf].
  - apply build_gallery_loop_wf. constructor.
Qed.

(** X4.  [load_image] returns None exactly when [cv2.imread] does or
    [cv2.resize] raises on the image read (the error ends in the [except]
    clause; a size that is not positive is such a case); otherwise it
    returns the image read, converted to RGB, resized and divided by 255 in
    [float32], every component of which lies in [0, 1]. *)
Theorem load_image_normalized (img_path : string) :
  (load_image img_path img_size = None <->
   cv2_imread img_path = None \/
   exists raw,
     cv2_imread img_path = Some raw /\
     cv2_resize_raises (cv2_cvtColor_BGR2RGB raw) (img_size, img_size) = true) /\
  forall img,
    load_image img_path img_size = Some img ->
    (exists raw,
        cv2_imread img_path = Some raw /\
        cv2_resize_raises (cv2_cvtColor_BGR2RGB raw) (img_size, img_size) = false /\
        img = map (map (map (fun b =>
                               PyFloat.round32q
                                 (inject_Z (Z.of_N (Byte.to_N b)) / 255))))
                  (cv2_resize (cv2_cvtColor_BGR2RGB raw) (img_size, img_size))) /\
    forall q, In q (components img) -> (0 <= q <= 1)%Q.
Proof.
  unfold load_image. destruct (cv2_imread img_path) as [raw|].
  - cbn [Raising.preprocess_image]. unfold Raising.resize.
    destruct (cv2_resize_raises (cv2_cvtColor_BGR2RGB raw) (img_size, img_size))
      eqn:Hraises; cbn [bind].
    + split.
      * split; [intros _; right; exists raw; split; [reflexivity | exact Hraises]
               | reflexivity].
      * intros img Himg. discriminate.
    + split.
      * split; [discriminate|].
        intros [Hnone | (raw' & Hraw & Hraises')]; [discriminate|].
        injection Hraw as <-. congruence.
      * intros img Himg. injection Himg as <-. split.
        -- exists raw. repeat split. exact Hraises.
        -- apply normalized_components.
  - split; [split; [intros _; left; reflexivity | reflexivity]|].
    intros img Himg. discriminate.
Qed.

End GalleryKeys.

(** Ann and bob have an image that loads, carl has none: the gallery holds
    ann and bob, in that order. *)
Lemma build_gallery_embeddings_keys_order_witness :
  PyDict.keys (Utils.build_gallery_embeddings
                 [("ann", ["ref/ann__1.jpg"; "ref/ann__2.jpg"]);
                  ("carl", ["ref/carl.jpg"]);
                  ("bob", ["ref/missing.jpg"; "ref/bob.png"])] 1)
  = ["ann"; "bob"].
Proof.
  refine (proj1 (build_gallery_embeddings_keys_order 1
                   [("ann", ["ref/ann__1.jpg"; "ref/ann__2.jpg"]);
                    ("carl", ["ref/carl.jpg"]);
                    ("bob", ["ref/missing.jpg"; "ref/bob.png"])] _)).
  unfold PyDict.wf. simpl.
  repeat constructor; simpl; intuition discriminate.
Defined.

(* ================================================================== *)
(** * detect_and_crop_face: the size of the crop *)
(* ================================================================== *)

Section CropSize.
Import Utils.
Context `{Cv2}.

Lemma length_slice {A : Type} (a n : nat) (l : list A) :
  List.length (slice a (a + n) l) = Nat.min n (List.length l - a).
Proof.
  unfold slice. rewrite length_firstn, length_skipn. f_equal. lia.
Qed.

Lemma slice_incl {A : Type} (a b : nat) (l : list A) :
  forall x, In x (slice a b l) -> In x l.
Proof.
  unfold slice. intros x Hx.
  rewrite <- (firstn_skipn a l). apply in_or_app. right.
  rewrite <- (firstn_skipn (b - a) (skipn a l)). apply in_or_app. left. exact Hx.
Qed.

(** X5.  The face handed back is the RGB conversion of the frame cut to the
    returned box; the cut never exceeds the box (at most h rows of at most w
    pixels), and when the box lies inside the frame it has exactly h rows of
    w pixels. *)
Theorem detect_and_crop_face_crop_size
        (frame : image) (face_cascade_path : option string)
        (face : image) (x y w h : nat) :
  detect_and_crop_face frame face_cascade_path = (Some face, Some (x, y, w, h)) ->
  face = cv2_cvtColor_BGR2RGB (crop frame (x, y, w, h)) /\
  (List.length (crop frame (x, y, w, h)) <= h)%nat /\
  Forall (fun row => (List.length row <= w)%nat) (crop frame (x, y, w, h)) /\
  ((y + h <= List.length frame)%nat ->
   Forall (fun row => (x + w <= List.length row)%nat) frame ->
   has_shape (crop frame (x, y, w, h)) (Z.of_nat h) (Z.of_nat w)).
Proof.
  unfold detect_and_crop_face. intro Hdetect.
  destruct (detectMultiScale _ _) as [|first rest]; [discriminate|].
  destruct (py_max_from area first rest) as [[[x0 y0] w0] h0].
  inversion Hdetect; subst. clear Hdetect.
  unfold crop. split; [reflexivity|]. split; [|split].
  - rewrite length_map, length_slice. lia.
  - apply Forall_map, Forall_forall. intros row _.
    rewrite length_slice. lia.
  - intros Hrows Hcols. unfold has_shape. split.
    + rewrite length_map, length_slice. lia.
    + apply Forall_map, Forall_forall. intros row Hrow.
      apply slice_incl in Hrow.
      rewrite Forall_forall in Hcols. specialize (Hcols row Hrow).
      rewrite length_slice. lia.
Qed.

End CropSize.

(** On the 1 x 2 sample frame the box (0, 0, 2, 1) lies inside the frame and
    the cut is 1 row of 2 pixels. *)
Lemma detect_and_crop_face_crop_size_witness :
  has_shape (crop Sample.grey (0, 0, 2, 1)%nat) 1 2.
Proof.
  apply (detect_and_crop_face_crop_size Sample.grey None
           [[[x80; x80; x80]; [x80; x80; x80]]] 0 0 2 1).
  - reflexivity.
  - simpl. lia.
  - repeat constructor.
Defined.

(* ================================================================== *)
(** * index_images_by_person: other separators *)
(* ================================================================== *)

Section IndexPatterns.
Import Utils PyStr PyStrFacts PyDictFacts.

Lemma contains_empty (s : string) : contains s EmptyString = true.
Proof. destruct s; reflexivity. Qed.

(** With the empty separator the loop stops at the first kept file, in
    [split]. *)
Lemma index_loop_empty_pattern (image_dir : string) (filenames : list string) :
  forall images_by_person,
    index_loop image_dir EmptyString filenames images_by_person
    = if existsb is_image filenames
      then Raise (ValueError "empty separator")
      else Ok images_by_person.
Proof.
  induction filenames as [|filename rest IH]; intro d; [reflexivity|].
  cbn [index_loop existsb]. fold (is_image filename).
  destruct (is_image filename); cbn [orb].
  - unfold person_id_of. rewrite contains_empty. reflexivity.
  - apply IH.
Qed.

(** X6.  With the empty string as separator, [index_images_by_person] on a
    directory raises ValueError (from [str.split]) exactly when the listing
    holds a .jpg, .jpeg or .png file, and returns the empty mapping when it
    holds none. *)
Theorem index_images_by_person_empty_pattern
        (fs : filesystem) (image_dir : string) (listing : list string) :
  fs image_dir = Directory listing ->
  (index_images_by_person fs image_dir EmptyString
   = Raise (ValueError "empty separator") <->
   exists filename, In filename listing /\ is_image filename = true) /\
  ((forall filename, In filename listing -> is_image filename = false) ->
   index_images_by_person fs image_dir EmptyString = Ok PyDict.empty).
Proof.
  intro Hfs. unfold index_images_by_person, os_path_exists, os_listdir.
  rewrite Hfs. cbn [negb bind]. rewrite index_loop_empty_pattern.
  destruct (existsb is_image listing) eqn:Hany.
  - apply existsb_exists in Hany. split.
    + split; [intros _; exact Hany | reflexivity].
    + intro Hnone. destruct Hany as (filename & Hin & Himg).
      rewrite (Hnone filename Hin) in Himg. discriminate.
  - split.
    + split; [discriminate|]. intros Hsome.
      apply existsb_exists in Hsome. congruence.
    + reflexivity.
Qed.

Lemma total_paths_append (d : PyDict.t (list string)) (k path : string) :
  total_paths (PyDict.set d k (entry_of d k ++ [path])%list) = S (total_paths d).
Proof.
  unfold total_paths, entry_of, list_sum.
  induction d as [|[k' v'] d IH]; [reflexivity|].
  cbn [PyDict.get PyDict.set]. destruct (String.eqb k' k); cbn -[PyDict.set PyDict.get].
  - rewrite length_app. simpl. lia.
  - rewrite IH. lia.
Qed.

Lemma total_paths_new_entry (d : PyDict.t (list string)) (k : string) :
  total_paths (PyDict.set d k []) = (total_paths d - List.length (entry_of d k))%nat.
Proof.
  unfold total_paths, entry_of, list_sum.
  induction d as [|[k' v'] d IH]; [reflexivity|].
  cbn [PyDict.get PyDict.set]. destruct (String.eqb k' k); cbn -[PyDict.set PyDict.get].
  - lia.
  - rewrite IH.
    assert (List.length (match PyDict.get d k with Some l => l | None => [] end)
            <= fold_right Nat.add 0 (map (fun entry => List.length (snd entry)) d))%nat.
    { clear. induction d as [|[k0 v0] d IH]; simpl; [lia|].
      destruct (String.eqb k0 k); simpl; lia. }
    lia.
Qed.

Lemma index_loop_total (image_dir pattern : string) (filenames : list string) :
  forall images_by_person result,
    index_loop image_dir pattern filenames images_by_person = Ok result ->
    total_paths result
    = (total_paths images_by_person + List.length (filter is_image filenames))%nat.
Proof.
  induction filenames as [|filename rest IH]; intros d result Hloop.
  - inversion Hloop. simpl. lia.
  - cbn [index_loop filter] in *. fold (is_image filename) in *.
    destruct (is_image filename).
    + destruct (person_id_of filename pattern) as [person|e]; [|discriminate].
      cbn [bind] in Hloop. apply IH in Hloop. rewrite Hloop. cbn [List.length].
      unfold PyDict.contains.
      destruct (PyDict.get d person) as [l|] eqn:Hget; cbn [negb].
      * fold (entry_of d person). rewrite total_paths_append. lia.
      * fold (entry_of (PyDict.set d person []) person).
        rewrite total_paths_append, total_paths_new_entry.
        unfold entry_of. rewrite Hget. simpl. lia.
    + apply IH in Hloop. exact Hloop.
Qed.

(** X7.  For every separator that is not empty, [index_images_by_person] on a
    directory raises nothing and returns a mapping with distinct keys whose
    persons are exactly those of the kept files, none of them with an empty
    list, and which holds as many paths as the listing has kept files. *)
Theorem index_images_by_person_partition
        (fs : filesystem) (image_dir pattern : string) (listing : list string) :
  pattern <> EmptyString ->
  fs image_dir = Directory listing ->
  exists d,
    index_images_by_person fs image_dir pattern = Ok d /\
    PyDict.wf d /\
    (forall person_id,
        In person_id (PyDict.keys d) <->
        exists filename,
          In filename listing /\ is_image filename = true /\
          person_of filename pattern = person_id) /\
    (forall person_id paths, PyDict.get d person_id = Some paths -> paths <> []) /\
    total_paths d = List.length (filter is_image listing).
Proof.
  intros Hpat Hfs. unfold index_images_by_person, os_path_exists, os_listdir.
  rewrite Hfs. cbn [negb bind].
  destruct (index_loop_spec image_dir pattern listing Hpat PyDict.empty)
    as (d & Hloop & Hwf & Hget).
  exists d. split; [exact Hloop|]. split; [apply Hwf; constructor|].
  assert (Hentry : forall person_id,
             PyDict.get d person_id
             = match images_of image_dir pattern listing person_id with
               | [] => None
               | path :: paths => Some (path :: paths)
               end).
  { intro person_id. rewrite Hget. unfold extended. simpl.
    destruct (images_of image_dir pattern listing person_id); reflexivity. }
  split; [|split].
  - intro person_id. split.
    + intro Hkey.
      destruct (PyDict.get d person_id) as [paths|] eqn:Hsome.
      * rewrite Hentry in Hsome. unfold images_of in Hsome.
        destruct (filter _ listing) as [|filename others] eqn:Hfilter;
          [discriminate|].
        assert (Hin : In filename (filter
                  (fun filename => is_image filename
                                   && String.eqb (person_of filename pattern) person_id)
                  listing)) by (rewrite Hfilter; left; reflexivity).
        apply filter_In in Hin. destruct Hin as [Hin Hsel].
        apply andb_true_iff in Hsel. destruct Hsel as [Himg Hperson].
        apply String.eqb_eq in Hperson. exists filename. auto.
      * apply get_none_iff in Hsome. contradiction.
    + intros (filename & Hin & Himg & Hperson).
      destruct (in_dec string_dec person_id (PyDict.keys d)) as [Hkey|Hkey];
        [exact Hkey|].
      apply get_none_iff in Hkey. rewrite Hentry in Hkey. unfold images_of in Hkey.
      assert (Hsel : In filename (filter
                  (fun filename => is_image filename
                                   && String.eqb (person_of filename pattern) person_id)
                  listing)).
      { apply filter_In. split; [exact Hin|]. rewrite Himg.
        apply String.eqb_eq in Hperson. exact Hperson. }
      destruct (filter _ listing); [destruct Hsel | discriminate].
  - intros person_id paths Hpaths. rewrite Hentry in Hpaths.
    destruct (images_of image_dir pattern listing person_id); congruence.
  - apply index_loop_total in Hloop. exact Hloop.
Qed.

End IndexPatterns.

(** The sample directory read with the separator "_": ann and bob, three
    paths for the three kept files. *)
Lemma index_images_by_person_partition_witness :
  exists d,
    Utils.index_images_by_person Sample.reference_dir "ref" "_" = Ok d /\
    PyDict.keys d = ["ann"; "bob"] /\
    total_paths d = 3%nat.
Proof.
  destruct (index_images_by_person_partition Sample.reference_dir "ref" "_"
              ["ann__1.jpg"; "notes.txt"; "bob.PNG"; "ann__2.jpeg"])
    as (d & Hd & _ & _ & _ & Htotal).
  - discriminate.
  - reflexivity.
  - exists d. split; [exact Hd|]. split; [|exact Htotal].
    vm_compute in Hd. inversion Hd. reflexivity.
Defined.

(** A listing with one image file, read with the empty separator, raises. *)
Lemma index_images_by_person_empty_pattern_witness :
  Utils.index_images_by_person Sample.reference_dir "ref" ""
  = Raise (ValueError "empty separator").
Proof.
  apply (proj1 (index_images_by_person_empty_pattern Sample.reference_dir "ref"
                  ["ann__1.jpg"; "notes.txt"; "bob.PNG"; "ann__2.jpeg"] eq_refl)).
  exists "ann__1.jpg". split; [left; reflexivity | reflexivity].
Defined.

(* ================================================================== *)
(** * initialize_camera: the pauses *)
(* ================================================================== *)

Section InitializeCameraPauses.
Import App.
Variable cam : camera.
Variable camera_index : Z.

Lemma initialize_loop_pauses (attempts : list nat) :
  forall opened slept,
    let r := initialize_loop cam camera_index attempts opened slept in
    match outcome r with
    | Ok cap =>
        opens r = S (cap_call cap) /\
        (sleeps r + opened = slept + cap_call cap)%nat /\
        cam camera_index (cap_call cap) = true /\
        cap_index cap = camera_index
    | Raise e =>
        e = SystemExit 1 /\
        opens r = (opened + List.length attempts)%nat /\
        sleeps r = (slept + List.length attempts)%nat
    end.
Proof.
  induction attempts as [|attempt rest IH]; intros opened slept; simpl.
  - repeat split; lia.
  - destruct (cam camera_index opened) eqn:Hopen; simpl.
    + repeat split; auto; lia.
    + specialize (IH (S opened) (S slept)). simpl in IH.
      destruct (outcome (initialize_loop cam camera_index rest (S opened) (S slept)))
        as [cap|e].
      * destruct IH as (Ho & Hs & Hc & Hi). repeat split; auto; lia.
      * destruct IH as (He & Ho & Hs). repeat split; auto; lia.
Qed.

(** X8.  [initialize_camera] sleeps one second after every attempt that
    fails, the last one included: a capture returned by the [k]-th call was
    preceded by [k] sleeps and is opened on the index asked for, and a run
    that gives up has slept [max_retries] times before [sys.exit(1)].  With
    [max_retries] at or below zero the camera is not touched at all. *)
Theorem initialize_camera_pauses (max_retries : option Z) :
  let n := Z.to_nat (match max_retries with
                     | Some n => n
                     | None => 5%Z
                     end) in
  let r := initialize_camera cam camera_index max_retries in
  match outcome r with
  | Ok cap =>
      opens r = S (sleeps r) /\ cap_call cap = sleeps r /\
      cam camera_index (cap_call cap) = true /\ cap_index cap = camera_index
  | Raise e =>
      e = SystemExit 1 /\ opens r = n /\ sleeps r = n
  end /\
  forall m, (m <= 0)%Z ->
            initialize_camera cam camera_index (Some m)
            = {| outcome := Raise (SystemExit 1); opens := 0; sleeps := 0 |}.
Proof.
  intros n r. split.
  - pose proof (initialize_loop_pauses
                  (py_range (match max_retries with
                             | Some n => n
                             | None => default_max_retries
                             end)) 0 0) as Hloop.
    simpl in Hloop.
    fold (initialize_camera cam camera_index max_retries) in Hloop. fold r in Hloop.
    destruct (outcome r) as [cap|e].
    + destruct Hloop as (Ho & Hs & Hc & Hi). repeat split; auto; lia.
    + destruct Hloop as (He & Ho & Hs).
      unfold py_range in Ho, Hs. rewrite length_seq in Ho, Hs.
      repeat split; auto.
  - intros m Hm. unfold initialize_camera, py_range.
    replace (Z.to_nat m) with 0%nat by lia. reflexivity.
Qed.

End InitializeCameraPauses.

(** A camera that opens on the third call: two sleeps, three opens; and
    [max_retries = 0] does nothing but exit. *)
Lemma initialize_camera_pauses_witness :
  App.sleeps (App.initialize_camera (fun _ k => (2 <=? k)%nat) 0 None) = 2%nat /\
  App.initialize_camera (fun _ k => (2 <=? k)%nat) 0 (Some 0%Z)
  = {| App.outcome := Raise (SystemExit 1); App.opens := 0; App.sleeps := 0 |}.
Proof.
  split; [reflexivity|].
  apply (proj2 (initialize_camera_pauses (fun _ k => (2 <=? k)%nat) 0%Z None) 0%Z).
  lia.
Defined.

(* ================================================================== *)
(** * capture_image: the preview window, and what is left behind *)
(* ================================================================== *)

Section CaptureImageEffects.
Import CameraUtils.
Variable w : world.
Variable timeout : Q.



(** ** The preview window *)







End CaptureImageEffects.




(* ================================================================== *)
(** * TRTInfer: when construction succeeds, and what it leaves *)
(* ================================================================== *)

Section TrtInitResult.
Import TrtInference.
Variable h : host.
Variable engine_path : string.


Lemma detect_input_find (bs : list binding) :
  detect_input bs
  = (option_map binding_name (find binding_is_input bs),
     option_map (fun b => match binding_shape b with
                          | Ok shape => Some shape
                          | Raise _ => None
                          end)
                (find binding_is_input bs)).
Proof.
  induction bs as [|b bs IH]; simpl; [reflexivity|].
  destruct (binding_is_input b); [reflexivity | exact IH].
Qed.

(** X12.  Constructing a TRTInfer succeeds exactly when TensorRT and PyCUDA
    were imported, the engine path is a readable file that deserializes to
    an engine all of whose bindings report a shape, and either an input
    shape is passed or the engine has an input binding. *)
Theorem init_ok_iff (input_shape : option (Z * Z * Z)) :
  (exists obj, init h engine_path input_shape = Ok obj) <->
  trt_imported h = true /\
  fs h engine_path = RegularFile /\
  exists eng names,
    deserialize_cuda_engine h engine_path = Some eng /\
    collect_bindings (bindings eng) = Ok names /\
    (input_shape <> None \/
     exists b, In b (bindings eng) /\ binding_is_input b = true).
Proof.
  split.
  - intros [obj Hinit]. unfold init, os_path_exists, open_rb in Hinit.
    destruct (trt_imported h); [|discriminate]. split; [reflexivity|].
    destruct (fs h engine_path); try discriminate. split; [reflexivity|].
    cbn [negb bind] in Hinit.
    destruct (deserialize_cuda_engine h engine_path) as [eng|]; [|discriminate].
    destruct (collect_bindings (bindings eng)) as [names|e] eqn:Hnames; [|discriminate].
    exists eng, names. split; [reflexivity|]. split; [exact Hnames|].
    cbn [bind] in Hinit. rewrite detect_input_find in Hinit.
    destruct input_shape as [shape|]; [left; discriminate|]. right.
    destruct (find binding_is_input (bindings eng)) as [b|] eqn:Hfind.
    + apply find_some in Hfind. exists b. exact Hfind.
    + simpl in Hinit. discriminate.
  - intros (Htrt & Hfs & eng & names & Heng & Hnames & Hshape).
    exact (init_succeeds h engine_path input_shape eng names
                         Htrt Hfs Heng Hnames Hshape).
Qed.


End TrtInitResult.


(** On the sample host model.trt constructs and a missing path does not. *)
Lemma init_ok_iff_witness :
  (exists obj, TrtInference.init Sample.jetson "model.trt" None = Ok obj) /\
  ~ (exists obj, TrtInference.init Sample.jetson "nowhere.trt" None = Ok obj).
Proof.
  split.
  - apply (proj2 (init_ok_iff Sample.jetson "model.trt" None)).
    split; [reflexivity|]. split; [reflexivity|].
    exists Sample.extractor, ["image"; "embedding"].
    split; [reflexivity|]. split; [reflexivity|]. right.
    eexists. split; [left; reflexivity | reflexivity].
  - intro Hok.
    apply (proj1 (init_ok_iff Sample.jetson "nowhere.trt" None)) in Hok.
    destruct Hok as (_ & Hfs & _). discriminate.
Defined.

(* ================================================================== *)
(** * load_gallery: from the reference directory to the gallery *)
(* ================================================================== *)

Section LoadGallery.
Import Utils PyDictFacts.
Context {vec : Type} `{NumPy vec} `{Cv2}.
Variable cfg : App.config.
Variable model : Model vec.

(** The index of a directory, read through [get]. *)
Lemma index_directory (fs : filesystem) (image_dir : string) (listing : list string) :
  fs image_dir = Directory listing ->
  exists d,
    index_images_by_person fs image_dir "__" = Ok d /\
    PyDict.wf d /\
    forall person_id,
      PyDict.get d person_id
      = match images_of image_dir "__" listing person_id with
        | [] => None
        | path :: paths => Some (path :: paths)
        end.
Proof.
  intro Hfs. unfold index_images_by_person, os_path_exists, os_listdir.
  rewrite Hfs. cbn [negb bind].
  destruct (index_loop_spec image_dir "__" listing ltac:(discriminate) PyDict.empty)
    as (d & Hloop & Hwf & Hget).
  exists d. split; [exact Hloop|]. split; [apply Hwf; constructor|].
  intro person_id. rewrite Hget. unfold extended. simpl.
  destruct (images_of image_dir "__" listing person_id); reflexivity.
Qed.

(** The index is empty exactly when the listing has no kept file. *)
Lemma index_directory_empty (image_dir : string) (listing : list string)
      (d : PyDict.t (list string)) :
  (forall person_id,
      PyDict.get d person_id
      = match images_of image_dir "__" listing person_id with
        | [] => None
        | path :: paths => Some (path :: paths)
        end) ->
  d = [] <-> forall filename, In filename listing -> is_image filename = false.
Proof.
  intro Hget. split.
  - intros -> filename Hin.
    destruct (is_image filename) eqn:Himg; [|reflexivity].
    specialize (Hget (person_of filename "__")). simpl in Hget.
    unfold images_of in Hget.
    assert (Hsel : In filename
                      (filter (fun f => is_image f
                                        && String.eqb (person_of f "__")
                                                      (person_of filename "__"))
                              listing)).
    { apply filter_In. split; [exact Hin|].
      rewrite Himg, String.eqb_refl. reflexivity. }
    destruct (filter _ listing); [destruct Hsel | discriminate].
  - intro Hnone. destruct d as [|[k v] d]; [reflexivity|].
    specialize (Hget k). simpl in Hget. rewrite String.eqb_refl in Hget.
    unfold images_of in Hget.
    destruct (filter _ listing) as [|filename others] eqn:Hfilter; [discriminate|].
    assert (Hin : In filename (filename :: others)) by (left; reflexivity).
    rewrite <- Hfilter in Hin. apply filter_In in Hin.
    destruct Hin as [Hin Hsel]. rewrite (Hnone filename Hin) in Hsel. discriminate.
Qed.


Lemma has_loadable_exists (paths : list string) (img_size : Z) :
  has_loadable paths img_size = true <->
  exists path, In path paths /\ load_image path img_size <> None.
Proof.
  unfold has_loadable. rewrite existsb_exists. split.
  - intros (path & Hin & Hload). exists path. split; [exact Hin|].
    destruct (load_image path img_size); [discriminate | discriminate].
  - intros (path & Hin & Hload). exists path. split; [exact Hin|].
    destruct (load_image path img_size); [reflexivity | congruence].
Qed.

(** What [load_gallery] does with a reference directory that exists. *)
Lemma load_gallery_directory (fs : filesystem) (listing : list string) :
  fs (App.REFERENCE_DIR cfg) = Directory listing ->
  ((forall filename, In filename listing -> is_image filename = false) ->
   App.load_gallery cfg fs model = Raise (SystemExit 1)) /\
  ((exists filename, In filename listing /\ is_image filename = true) ->
   exists gallery,
     App.load_gallery cfg fs model = Ok gallery /\
     PyDict.wf gallery /\
     forall person_id,
       In person_id (PyDict.keys gallery) <->
       exists filename,
         In filename listing /\ is_image filename = true /\
         person_of filename "__" = person_id /\
         load_image (PyStr.join (App.REFERENCE_DIR cfg) filename)
                    (App.IMG_SIZE cfg) <> None).
Proof.
  intro Hfs.
  destruct (index_directory fs _ listing Hfs) as (d & Hindex & Hwf & Hget).
  pose proof (index_directory_empty _ listing d Hget) as Hempty.
  unfold App.load_gallery, os_path_exists. rewrite Hfs, Hindex. cbn [negb bind].
  split.
  + intro Hnone. apply Hempty in Hnone. subst d. reflexivity.
  + intros (filename0 & Hin0 & Himg0).
    destruct d as [|entry d'] eqn:Hd.
    { assert (Hnone : forall f, In f listing -> is_image f = false)
        by (apply Hempty; reflexivity).
      rewrite (Hnone filename0 Hin0) in Himg0. discriminate. }
    rewrite <- Hd in *. clear Hd entry d'.
    eexists. split; [reflexivity|]. split.
    * apply build_gallery_loop_wf. constructor.
    * intro person_id.
      unfold build_gallery_embeddings, PyDict.items, PyDict.empty.
      rewrite build_gallery_loop_keys by exact Hwf. cbn [PyDict.keys map app].
      change (map fst ?l) with (PyDict.keys l).
      unfold PyDict.keys. rewrite in_map_iff. split.
      -- intros ([k paths] & Hk & Hentry). simpl in Hk. subst k.
         apply filter_In in Hentry. destruct Hentry as [Hentry Hload].
         cbn [snd] in Hload.
         apply in_get in Hentry; [|exact Hwf]. rewrite Hget in Hentry.
         assert (Hpaths : paths = images_of (App.REFERENCE_DIR cfg) "__" listing person_id)
           by (destruct (images_of _ "__" listing person_id); congruence).
         apply has_loadable_exists in Hload.
         destruct Hload as (path & Hpath & Hreads).
         rewrite Hpaths in Hpath. unfold images_of in Hpath.
         apply in_map_iff in Hpath. destruct Hpath as (filename & <- & Hsel).
         apply filter_In in Hsel. destruct Hsel as [Hin Hsel].
         apply andb_true_iff in Hsel. destruct Hsel as [Himg Hperson].
         apply String.eqb_eq in Hperson. exists filename. auto.
      -- intros (filename & Hin & Himg & Hperson & Hreads).
         assert (Hsel : In (PyStr.join (App.REFERENCE_DIR cfg) filename)
                           (images_of (App.REFERENCE_DIR cfg) "__" listing person_id)).
         { unfold images_of. apply in_map. apply filter_In. split; [exact Hin|].
           rewrite Himg. apply String.eqb_eq in Hperson. exact Hperson. }
         specialize (Hget person_id).
         destruct (images_of (App.REFERENCE_DIR cfg) "__" listing person_id)
           as [|path paths] eqn:Himages; [destruct Hsel|].
         exists (person_id, path :: paths). split; [reflexivity|].
         apply filter_In. split; [apply get_some_in; exact Hget|].
         cbn [snd]. apply has_loadable_exists.
         exists (PyStr.join (App.REFERENCE_DIR cfg) filename). auto.
Qed.

(** X14.  [load_gallery] leaves with [sys.exit(1)] when the reference
    directory does not exist or holds no .jpg, .jpeg or .png file; otherwise
    it returns a gallery whose persons are exactly those with a kept file
    that [load_image] can read.  Files that are kept but cannot be read do
    not make it exit. *)
Theorem load_gallery_outcomes (fs : filesystem) :
  (fs (App.REFERENCE_DIR cfg) = Missing ->
   App.load_gallery cfg fs model = Raise (SystemExit 1)) /\
  (forall listing,
      fs (App.REFERENCE_DIR cfg) = Directory listing ->
      ((forall filename, In filename listing -> is_image filename = false) ->
       App.load_gallery cfg fs model = Raise (SystemExit 1)) /\
      ((exists filename, In filename listing /\ is_image filename = true) ->
       exists gallery,
         App.load_gallery cfg fs model = Ok gallery /\
         PyDict.wf gallery /\
         forall person_id,
           In person_id (PyDict.keys gallery) <->
           exists filename,
             In filename listing /\ is_image filename = true /\
             person_of filename "__" = person_id /\
             load_image (PyStr.join (App.REFERENCE_DIR cfg) filename)
                        (App.IMG_SIZE cfg) <> None)).
Proof.
  split.
  - intro Hfs. unfold App.load_gallery, os_path_exists. rewrite Hfs. reflexivity.
  - intros listing Hfs. exact (load_gallery_directory fs listing Hfs).
Qed.


End LoadGallery.


Lemma load_gallery_outcomes_witness :
  App.load_gallery Sample.deployment (fun _ => Missing) Sample.model_line
  = Raise (SystemExit 1) /\
  App.load_gallery Sample.deployment
                   (fun _ => Directory ["readme.md"]) Sample.model_line
  = Raise (SystemExit 1).
Proof.
  split.
  - apply (proj1 (load_gallery_outcomes Sample.deployment Sample.model_line
                                        (fun _ => Missing))).
    reflexivity.
  - apply (proj2 (load_gallery_outcomes Sample.deployment Sample.model_line
                                        (fun _ => Directory ["readme.md"]))
                 ["readme.md"] eq_refl).
    intros filename [<- | []]. reflexivity.
Defined.

(* ================================================================== *)
(** * run_verification_loop: who is verified *)
(* ================================================================== *)

Section LoopSafety.
Import App.
Context {vec : Type} `{NumPy vec} `{Cv2}.
Variable w : world vec.
Variable cfg : config.
Variable model : Model vec.
Variable gallery0 : PyDict.t vec.
Variable lo : nat.

Local Abbreviation Inv := (only_referenced w cfg gallery0 lo).

Lemma wp_bind {A B : Type} (m : M vec A) (k : A -> M vec B)
      (Q : B -> state vec -> Prop) (E : exn -> state vec -> Prop) (s : state vec) :
  wp (sbind m k) Q E s <-> wp m (fun a => wp (k a) Q E) E s.
Proof.
  unfold wp, sbind. destruct (m s) as [[a|e] s']; reflexivity.
Qed.

Lemma wp_conseq {A : Type} (m : M vec A)
      (Q Q' : A -> state vec -> Prop) (E E' : exn -> state vec -> Prop)
      (s : state vec) :
  (forall a s', Q a s' -> Q' a s') ->
  (forall e s', E e s' -> E' e s') ->
  wp m Q E s -> wp m Q' E' s.
Proof.
  unfold wp. intros HQ HE. destruct (m s) as [[a|e] s']; auto.
Qed.

(** A reference stays one when more calls are made. *)
Lemma referenced_mono (hi hi' : nat) (person_id : string) :
  (hi <= hi')%nat ->
  referenced w cfg gallery0 lo hi person_id ->
  referenced w cfg gallery0 lo hi' person_id.
Proof.
  intros Hle [Hkey | (k & listing & filename & Hk & Hrest)]; [left; exact Hkey|].
  right. exists k, listing, filename. split; [lia | exact Hrest].
Qed.

(** A state with the same gallery and the same log, after as many calls of
    [load_gallery] or more, is as good. *)
Lemma only_referenced_same (s s' : state vec) :
  gallery_embeddings s' = gallery_embeddings s ->
  log s' = log s ->
  (loads s <= loads s')%nat ->
  Inv s -> Inv s'.
Proof.
  unfold only_referenced. intros -> -> Hle (Hlo & Hkeys & Hlog).
  split; [lia|]. split.
  - intros p Hp. eapply referenced_mono; [exact Hle | apply Hkeys; exact Hp].
  - intros p d Hp. eapply referenced_mono; [exact Hle | eapply Hlog; exact Hp].
Qed.

Lemma only_referenced_emit (e : event) (s : state vec) :
  (forall person_id distance,
      e = Verified person_id distance ->
      referenced w cfg gallery0 lo (loads s) person_id) ->
  Inv s -> Inv (snd (emit e s)).
Proof.
  intros He (Hlo & Hkeys & Hlog). split; [exact Hlo|]. split; [exact Hkeys|].
  intros person_id distance Hin. cbn in Hin.
  apply in_app_or in Hin. destruct Hin as [Hin | [Heq | []]].
  - eapply Hlog. exact Hin.
  - eapply He. exact Heq.
Qed.

Lemma update_fps_referenced (s : state vec) :
  Inv s -> wp (update_fps w) (fun _ => Inv) (fun _ => Inv) s.
Proof.
  intro HI. unfold wp, update_fps, sbind, gets, set_frame_count, modify. cbn.
  destruct ((frame_count s + 1) mod 30 =? 0)%Z; cbn; [|exact HI].
  unfold divide_30.
  destruct (Qeq_bool _ 0); cbn; exact HI.
Qed.

(** A MATCH names a key of the gallery. *)
Lemma identify_face_from_frame_key (face : option image) (gallery : PyDict.t vec)
      (threshold : pyfloat) (img_size : Z) (person : string) (d : pyfloat) :
  @Utils.identify_face_from_frame vec _ model _ face gallery threshold img_size
  = (person, d, Utils.MATCH) ->
  In person (PyDict.keys gallery).
Proof.
  unfold Utils.identify_face_from_frame.
  destruct (Utils.preprocess_image face img_size) as [processed|]; [|discriminate].
  intro Hid.
  pose proof (identify_face_verdict (predict processed) gallery threshold) as Hv.
  rewrite Hid in Hv. apply Hv. reflexivity.
Qed.

Lemma annotate_referenced (frame : image) (display_frame : canvas) (s : state vec) :
  Inv s ->
  wp (annotate w cfg model frame display_frame) (fun _ => Inv) (fun _ => Inv) s.
Proof.
  intro HI. unfold annotate.
  destruct (Utils.detect_and_crop_face frame None) as [[face|] [bbox|]];
    try exact HI.
  unfold wp, sbind, gets. cbn -[Utils.identify_face_from_frame].
  destruct (Utils.identify_face_from_frame (Some face) (gallery_embeddings s)
              (VERIFICATION_THRESHOLD cfg) (IMG_SIZE cfg))
    as [[person distance] status] eqn:Hid.
  destruct status; cbn.
  - change (Inv (snd (emit (Verified person distance) s))).
    apply only_referenced_emit; [|exact HI].
    intros p d Heq. inversion Heq; subst.
    apply (proj1 (proj2 HI)). eapply identify_face_from_frame_key. exact Hid.
  - change (Inv (snd (emit (UnknownPerson distance) s))).
    apply only_referenced_emit; [|exact HI].
    intros p d Heq. discriminate.
Qed.

(** The persons of a gallery that [load_gallery] built have a file. *)
Lemma load_gallery_referenced (k hi : nat) (g : PyDict.t vec) (person_id : string) :
  (lo <= k < hi)%nat ->
  load_gallery cfg (fs_at w k) model = Ok g ->
  In person_id (PyDict.keys g) ->
  referenced w cfg gallery0 lo hi person_id.
Proof.
  intros Hk Hload Hkey. right.
  destruct (fs_at w k (REFERENCE_DIR cfg)) as [| |listing] eqn:Hfs.
  - unfold load_gallery, os_path_exists in Hload. rewrite Hfs in Hload. discriminate.
  - unfold load_gallery, Utils.index_images_by_person, os_path_exists, os_listdir
      in Hload.
    rewrite Hfs in Hload. discriminate.
  - destruct (load_gallery_directory cfg model (fs_at w k) listing Hfs)
      as [Hnone Hsome].
    destruct (existsb is_image listing) eqn:Hexists.
    + apply existsb_exists in Hexists.
      destruct (Hsome Hexists) as (g' & Hload' & _ & Hkeys).
      rewrite Hload in Hload'. injection Hload' as <-.
      apply Hkeys in Hkey. destruct Hkey as (filename & Hin & Himg & Hperson & _).
      exists k, listing, filename. auto.
    + rewrite Hnone in Hload; [discriminate|].
      intros filename Hin. destruct (is_image filename) eqn:Himg; [|reflexivity].
      assert (Hex : existsb is_image listing = true)
        by (apply existsb_exists; exists filename; auto).
      congruence.
Qed.

Lemma show_and_poll_referenced (display_frame : canvas) (s : state vec) :
  Inv s ->
  wp (show_and_poll w cfg model display_frame) (fun _ => Inv) (fun _ => Inv) s.
Proof.
  intros HI. unfold wp, show_and_poll, sbind, gets, wait_key. cbn -[load_gallery].
  assert (HI1 : Inv (snd (emit (Shown
            (draw (draw display_frame
                        (PutText (FpsLabel (fps s)) (10, 30)%Z (7 # 10) WHITE 2))
                  (PutText (ThresholdLabel (VERIFICATION_THRESHOLD cfg))
                           (10, 60)%Z (6 # 10) WHITE 2))) s)))
    by (apply only_referenced_emit; [discriminate | exact HI]).
  destruct (Z.land (waitKey w (keys s)) 255 =? ord_q)%Z.
  { cbn. destruct HI1 as (Hlo & Hk & Hl). split; [exact Hlo|]. split; [exact Hk|].
    intros p d Hin. cbn in Hin. apply in_app_or in Hin.
    destruct Hin as [Hin | [Heq | []]]; [eapply Hl; exact Hin | discriminate]. }
  destruct (Z.land (waitKey w (keys s)) 255 =? ord_s)%Z.
  { cbn. destruct HI1 as (Hlo & Hk & Hl). split; [exact Hlo|]. split; [exact Hk|].
    intros p d Hin. cbn in Hin. apply in_app_or in Hin.
    destruct Hin as [Hin | [Heq | []]]; [eapply Hl; exact Hin | discriminate]. }
  destruct (Z.land (waitKey w (keys s)) 255 =? ord_r)%Z; [|exact HI1].
  unfold reload_gallery. cbn -[load_gallery].
  destruct HI1 as (Hlo & Hk & Hl). cbn in Hlo, Hk, Hl.
  assert (Hold : forall p d,
             In (Verified p d)
                ((log s ++ [Shown
                   (draw (draw display_frame
                        (PutText (FpsLabel (fps s)) (10, 30)%Z (7 # 10) WHITE 2))
                      (PutText (ThresholdLabel (VERIFICATION_THRESHOLD cfg))
                               (10, 60)%Z (6 # 10) WHITE 2))]) ++ [Reloading])%list ->
             referenced w cfg gallery0 lo (S (loads s)) p).
  { intros p d Hin.
    apply in_app_or in Hin. destruct Hin as [Hin | [Heq | []]]; [|discriminate].
    apply (referenced_mono (loads s)); [lia|]. eapply Hl. exact Hin. }
  destruct (load_gallery cfg (fs_at w (loads s)) model) as [g|e] eqn:Hload;
    cbn -[load_gallery].
  - split; [cbn; lia|]. split; cbn [loads gallery_embeddings log].
    + intros p Hp. apply (load_gallery_referenced (loads s) _ g); [lia | exact Hload | exact Hp].
    + intros p d Hin.
      apply in_app_or in Hin. destruct Hin as [Hin | [Heq | []]]; [|discriminate].
      eapply Hold. exact Hin.
  - split; [cbn; lia|]. split; cbn [loads gallery_embeddings log].
    + intros p Hp. apply (referenced_mono (loads s)); [lia|]. apply Hk. exact Hp.
    + exact Hold.
Qed.

Lemma loop_body_referenced (s : state vec) :
  Inv s -> wp (loop_body w cfg model) (fun _ => Inv) (fun _ => Inv) s.
Proof.
  intro HI. unfold loop_body. apply wp_bind.
  unfold wp at 1, read_frame.
  set (s1 := {| frame_count := frame_count s; fps := fps s;
                fps_start_time := fps_start_time s;
                gallery_embeddings := gallery_embeddings s;
                reads := S (reads s); keys := keys s; times := times s;
                stamps := stamps s; loads := loads s; log := log s;
                released := released s; windows_closed := windows_closed s |}).
  assert (HI1 : Inv s1) by exact HI.
  destruct (cap_read w (reads s)) as [frame|].
  - apply wp_bind.
    apply (wp_conseq _ (fun _ => Inv) _ (fun _ => Inv));
      [| auto | apply update_fps_referenced; exact HI1].
    intros _ s2 HI2. apply wp_bind.
    apply (wp_conseq _ (fun _ => Inv) _ (fun _ => Inv));
      [| auto | apply annotate_referenced; exact HI2].
    intros display_frame s3 HI3. apply show_and_poll_referenced. exact HI3.
  - unfold wp, sbind. cbn.
    change (Inv (snd (emit FailedGrab s1))).
    apply only_referenced_emit; [discriminate | exact HI1].
Qed.

Lemma loop_referenced (fuel : nat) (s : state vec) :
  Inv s -> wp (loop w cfg model fuel) (fun _ => Inv) (fun _ => Inv) s.
Proof.
  revert s. induction fuel as [|fuel IH]; intros s HI; [exact HI|].
  cbn [loop]. apply wp_bind.
  apply (wp_conseq _ (fun _ => Inv) _ (fun _ => Inv));
    [| auto | apply loop_body_referenced; exact HI].
  intros [|] s' HI'; [apply IH; exact HI' | exact HI'].
Qed.

Lemma run_verification_loop_referenced (fuel : nat) (s : state vec) :
  lo = loads s ->
  (forall p d, In (Verified p d) (log s) -> In p (PyDict.keys gallery0)) ->
  Inv (snd (run_verification_loop w cfg model gallery0 fuel s)).
Proof.
  intros Hlo Hlog.
  assert (Hwp : wp (run_verification_loop w cfg model gallery0 fuel)
                   (fun _ => Inv) (fun _ => Inv) s).
  { unfold run_verification_loop.
    apply wp_bind. unfold wp at 1, modify.
    apply wp_bind. unfold wp at 1, time_time.
    apply wp_bind. unfold wp at 1, set_fps_start_time, modify.
    apply wp_bind.
    apply (wp_conseq _ (fun _ => Inv) _ (fun _ => Inv)); [| auto |].
    - intros [|] s' HI'; [exact HI'|].
      unfold wp, sbind, cleanup, modify, ret. cbn. exact HI'.
    - apply loop_referenced. split; [cbn; lia|]. split; cbn.
      + intros p Hp. left. exact Hp.
      + intros p d Hp. left. eapply Hlog. exact Hp. }
  unfold wp in Hwp.
  destruct (run_verification_loop w cfg model gallery0 fuel s) as [[p|e] s'];
    exact Hwp.
Qed.

End LoopSafety.

(** X16.  Whatever the camera, the keyboard, the clock and the disk do, and
    however long the loop has run, [run_verification_loop] prints
    "verified" only for persons with a reference: a key of the gallery it
    was called with, or the person of an image file that the reference
    directory held at one of the reloads made during the run. *)
Theorem run_verification_loop_verifies_referenced
        {vec : Type} `{NumPy vec} `{Cv2}
        (w : App.world vec) (cfg : App.config) (model : Model vec)
        (gallery0 : PyDict.t vec) (fuel : nat) (s : App.state vec)
        (person_id : string) (distance : pyfloat) :
  (forall p d, In (App.Verified p d) (App.log s) -> In p (PyDict.keys gallery0)) ->
  In (App.Verified person_id distance)
     (App.log (snd (App.run_verification_loop w cfg model gallery0 fuel s))) ->
  referenced w cfg gallery0
             (App.loads s)
             (App.loads (snd (App.run_verification_loop w cfg model gallery0 fuel s)))
             person_id.
Proof.
  intros Hlog Hin.
  destruct (run_verification_loop_referenced w cfg model gallery0 (App.loads s)
                                             fuel s eq_refl Hlog)
    as (_ & _ & Hverified).
  eapply Hverified. exact Hin.
Qed.

Lemma run_verification_loop_verifies_referenced_witness :
  referenced (Sample.studio Sample.disk 2 5) Sample.deployment Sample.gallery
             (App.loads (App.boot : App.state Q))
             (App.loads (snd (App.run_verification_loop
                                (Sample.studio Sample.disk 2 5) Sample.deployment
                                Sample.model_line Sample.gallery 3 App.boot)))
             "ann".
Proof.
  eapply (run_verification_loop_verifies_referenced
            (Sample.studio Sample.disk 2 5) Sample.deployment Sample.model_line
            Sample.gallery 3 App.boot "ann").
  - intros p d [].
  - vm_compute. left. reflexivity.
Defined.

(* ================================================================== *)
(** * run_verification_loop: how it ends *)
(* ================================================================== *)

Section LoopEnd.
Import App.
Context {vec : Type} `{NumPy vec} `{Cv2}.
Variable w : world vec.
Variable cfg : config.
Variable model : Model vec.

Hypothesis clock_increasing :
  forall i j, (i < j)%nat -> (clock w i < clock w j)%Q.

Lemma count_shown_app (l l' : list event) :
  count_shown (l ++ l') = (count_shown l + count_shown l')%nat.
Proof.
  induction l as [|e l IH]; [reflexivity|].
  destruct e; cbn; rewrite IH; reflexivity.
Qed.

(** Under an increasing clock the frame rate is computed without a division
    by zero. *)
Lemma update_fps_runs (s : state vec) :
  clock_started w s ->
  exists s',
    update_fps w s = (Ok tt, s') /\
    clock_started w s' /\
    frame_count s' = (frame_count s + 1)%Z /\
    reads s' = reads s /\ keys s' = keys s /\ log s' = log s /\
    gallery_embeddings s' = gallery_embeddings s /\ loads s' = loads s /\
    released s' = released s /\ windows_closed s' = windows_closed s.
Proof.
  intros (j & Hj & Hstart).
  unfold update_fps, sbind, gets, set_frame_count, modify.
  cbn [frame_count].
  destruct ((frame_count s + 1) mod 30 =? 0)%Z.
  - unfold time_time, divide_30. cbn [times fps_start_time].
    destruct (Qeq_bool (clock w (times s) - fps_start_time s) 0) eqn:Hzero.
    + exfalso. apply Qeq_bool_iff in Hzero. rewrite Hstart in Hzero.
      pose proof (clock_increasing j (times s) Hj) as Hlt.
      apply (Qlt_irrefl (clock w j)).
      assert (Heq : (clock w (times s) == clock w j)%Q).
      { rewrite <- (Qplus_0_l (clock w j)). rewrite <- Hzero. ring. }
      rewrite <- Heq at 2. exact Hlt.
    + unfold ret, set_fps, set_fps_start_time, modify. cbn.
      eexists. split; [reflexivity|]. cbn.
      split; [exists (S (times s)); split; [cbn; lia | reflexivity]|].
      repeat split; reflexivity.
  - unfold ret. eexists. split; [reflexivity|]. cbn.
    split; [exists j; split; [exact Hj | exact Hstart]|].
    repeat split; reflexivity.
Qed.

(** Detection and identification print at most one line and show nothing. *)
Lemma annotate_runs (frame : image) (display_frame : canvas) (s : state vec) :
  exists display_frame' s',
    annotate w cfg model frame display_frame s = (Ok display_frame', s') /\
    count_shown (log s') = count_shown (log s) /\
    frame_count s' = frame_count s /\ fps_start_time s' = fps_start_time s /\
    times s' = times s /\
    reads s' = reads s /\ keys s' = keys s /\
    gallery_embeddings s' = gallery_embeddings s /\ loads s' = loads s /\
    released s' = released s /\ windows_closed s' = windows_closed s.
Proof.
  unfold annotate.
  destruct (Utils.detect_and_crop_face frame None) as [[face|] [bbox|]];
    try (exists display_frame, s; repeat split; reflexivity).
  unfold sbind, gets. cbn -[Utils.identify_face_from_frame].
  destruct (Utils.identify_face_from_frame (Some face) (gallery_embeddings s)
              (VERIFICATION_THRESHOLD cfg) (IMG_SIZE cfg))
    as [[person distance] status].
  destruct status; cbn; do 2 eexists; (split; [reflexivity|]); cbn;
    rewrite count_shown_app; cbn; repeat split; lia.
Qed.

(** A turn in which a frame arrives and neither 'q' nor 'r' is pressed. *)
Lemma loop_body_continue (s : state vec) :
  clock_started w s ->
  cap_read w (reads s) <> None ->
  key_at w (keys s) <> ord_q ->
  key_at w (keys s) <> ord_r ->
  exists s',
    loop_body w cfg model s = (Ok Continue, s') /\
    clock_started w s' /\ turns 1 s s'.
Proof.
  intros Hstart Hread Hq Hr.
  unfold loop_body, sbind at 1, read_frame. cbv beta iota.
  destruct (cap_read w (reads s)) as [frame|]; [clear Hread | congruence].
  match goal with
  | |- context [sbind (update_fps w) _ ?s1] =>
      destruct (update_fps_runs s1) as (s2 & Hupd & Hstart2 & Hfc & Hrd & Hky & Hlg & Hg & Hld & Hrel & Hwin);
        [exact Hstart|]
  end.
  unfold sbind at 1. rewrite Hupd. cbv beta iota.
  destruct (annotate_runs frame (copy frame) s2)
    as (display_frame & s3 & Hann & Hshown3 & Hfc3 & Ht03 & Htm3 & Hrd3 & Hky3
        & Hg3 & Hld3 & Hrel3 & Hwin3).
  unfold sbind at 1. rewrite Hann. cbv beta iota.
  cbn in Hfc, Hrd, Hky, Hlg, Hg, Hld, Hrel, Hwin. rewrite Hlg in Hshown3.
  unfold show_and_poll, sbind, gets, wait_key, emit, modify. cbn [keys].
  unfold key_at in Hq, Hr. rewrite <- Hky, <- Hky3 in Hq, Hr.
  apply Z.eqb_neq in Hq, Hr. rewrite Hq, Hr.
  assert (Hstart3 : forall s4 : state vec,
             times s4 = times s3 -> fps_start_time s4 = fps_start_time s3 ->
             clock_started w s4).
  { intros s4 Htm Ht0. destruct Hstart2 as (j & Hj & Hj0).
    exists j. split; [lia | congruence]. }
  destruct (Z.land (waitKey w (keys s3)) 255 =? ord_s)%Z.
  - unfold now_stamp, ret. cbn.
    eexists. split; [reflexivity|]. split.
    + apply Hstart3; reflexivity.
    + unfold turns. cbn. rewrite !count_shown_app. cbn.
      repeat split; try lia; congruence.
  - unfold ret. eexists. split; [reflexivity|]. split.
    + apply Hstart3; reflexivity.
    + unfold turns. cbn. rewrite !count_shown_app. cbn.
      repeat split; try lia; congruence.
Qed.

Lemma turns_trans (n m : nat) (s s' s'' : state vec) :
  turns n s s' -> turns m s' s'' -> turns (n + m) s s''.
Proof.
  unfold turns. intros (A1 & A2 & A3 & A4 & A5 & A6 & A7 & A8)
                       (B1 & B2 & B3 & B4 & B5 & B6 & B7 & B8).
  repeat split; try lia; congruence.
Qed.

(** [n] such turns in a row. *)
Lemma loop_turns (n : nat) : forall (s : state vec) (fuel : nat),
  clock_started w s ->
  (forall i, (i < n)%nat ->
             cap_read w (reads s + i) <> None /\
             key_at w (keys s + i) <> ord_q /\
             key_at w (keys s + i) <> ord_r) ->
  exists s',
    loop w cfg model (n + fuel) s = loop w cfg model fuel s' /\
    clock_started w s' /\ turns n s s'.
Proof.
  induction n as [|n IH]; intros s fuel Hstart Hquiet.
  - exists s. split; [reflexivity|]. split; [exact Hstart|].
    unfold turns. repeat split; lia.
  - destruct (Hquiet 0%nat ltac:(lia)) as (Hread & Hq & Hr).
    rewrite !Nat.add_0_r in *.
    destruct (loop_body_continue s Hstart Hread Hq Hr) as (s1 & Hbody & Hstart1 & Hturn).
    destruct (IH s1 fuel Hstart1) as (s' & Hloop & Hstart' & Hturns).
    { intros i Hi. destruct Hturn as (_ & Hrd & Hky & _).
      rewrite Hrd, Hky.
      replace (reads s + 1 + i)%nat with (reads s + S i)%nat by lia.
      replace (keys s + 1 + i)%nat with (keys s + S i)%nat by lia.
      apply Hquiet. lia. }
    exists s'. split; [|split; [exact Hstart'|]].
    + cbn [Nat.add loop]. unfold sbind at 1. rewrite Hbody. exact Hloop.
    + change (S n) with (1 + n)%nat. eapply turns_trans; eassumption.
Qed.

(** The turn in which 'q' is pressed. *)
Lemma loop_body_quit (s : state vec) :
  clock_started w s ->
  cap_read w (reads s) <> None ->
  key_at w (keys s) = ord_q ->
  exists s',
    loop_body w cfg model s = (Ok Break, s') /\
    turns 1 s s' /\ exists l, log s' = (l ++ [Exiting])%list.
Proof.
  intros Hstart Hread Hq.
  unfold loop_body, sbind at 1, read_frame. cbv beta iota.
  destruct (cap_read w (reads s)) as [frame|]; [clear Hread | congruence].
  match goal with
  | |- context [sbind (update_fps w) _ ?s1] =>
      destruct (update_fps_runs s1) as (s2 & Hupd & Hstart2 & Hfc & Hrd & Hky & Hlg & Hg & Hld & Hrel & Hwin);
        [exact Hstart|]
  end.
  unfold sbind at 1. rewrite Hupd. cbv beta iota.
  destruct (annotate_runs frame (copy frame) s2)
    as (display_frame & s3 & Hann & Hshown3 & Hfc3 & Ht03 & Htm3 & Hrd3 & Hky3
        & Hg3 & Hld3 & Hrel3 & Hwin3).
  unfold sbind at 1. rewrite Hann. cbv beta iota.
  cbn in Hfc, Hrd, Hky, Hlg, Hg, Hld, Hrel, Hwin. rewrite Hlg in Hshown3.
  unfold show_and_poll, sbind, gets, wait_key, emit, modify. cbn [keys].
  unfold key_at in Hq. rewrite <- Hky, <- Hky3 in Hq.
  apply Z.eqb_eq in Hq. rewrite Hq. unfold ret.
  eexists. split; [reflexivity|]. split.
  - unfold turns. cbn. rewrite !count_shown_app. cbn.
    repeat split; try lia; congruence.
  - cbn. eexists. reflexivity.
Qed.

(** The turn in which the read fails. *)
Lemma loop_body_failed_grab (s : state vec) :
  cap_read w (reads s) = None ->
  exists s',
    loop_body w cfg model s = (Ok Break, s') /\
    frame_count s' = frame_count s /\ reads s' = S (reads s) /\
    keys s' = keys s /\ gallery_embeddings s' = gallery_embeddings s /\
    log s' = (log s ++ [FailedGrab])%list.
Proof.
  intro Hlost. unfold loop_body, sbind at 1, read_frame. cbv beta iota.
  rewrite Hlost. eexists. split; [reflexivity|]. cbn.
  repeat split; reflexivity.
Qed.

(** The state in which the loop is entered. *)
Lemma enter_started (gallery : PyDict.t vec) (s : state vec) :
  exists s0,
    (forall fuel,
        run_verification_loop w cfg model gallery fuel s
        = sbind (loop w cfg model fuel)
                (fun p => match p with
                          | Running => ret Running
                          | Done => sbind cleanup (fun _ => ret Done)
                          end) s0) /\
    clock_started w s0 /\
    frame_count s0 = 0%Z /\ gallery_embeddings s0 = gallery /\
    reads s0 = reads s /\ keys s0 = keys s /\ log s0 = log s.
Proof.
  eexists. split; [intro fuel; reflexivity|]. cbn.
  split; [exists (times s); split; [cbn; lia | reflexivity]|].
  repeat split; reflexivity.
Qed.

(** X17.  When the camera stops delivering: under a clock that moves
    forward, if the first [n] reads give a frame, neither 'q' nor 'r' is
    pressed in those turns and the next read fails, [run_verification_loop]
    returns, having counted and shown [n] frames, with "Failed to grab
    frame" as its last line, the gallery it was given, the capture released
    and the windows closed. *)
Theorem run_verification_loop_camera_lost (gallery : PyDict.t vec)
        (n fuel : nat) (s : state vec) :
  (forall i, (i < n)%nat ->
             cap_read w (reads s + i) <> None /\
             key_at w (keys s + i) <> ord_q /\
             key_at w (keys s + i) <> ord_r) ->
  cap_read w (reads s + n) = None ->
  (n < fuel)%nat ->
  exists s',
    run_verification_loop w cfg model gallery fuel s = (Ok Done, s') /\
    released s' = true /\ windows_closed s' = true /\
    gallery_embeddings s' = gallery /\
    frame_count s' = Z.of_nat n /\
    reads s' = (reads s + S n)%nat /\ keys s' = (keys s + n)%nat /\
    count_shown (log s') = (count_shown (log s) + n)%nat /\
    exists l, log s' = (l ++ [FailedGrab])%list.
Proof.
  intros Hquiet Hlost Hfuel.
  destruct (enter_started gallery s)
    as (s0 & Hrun & Hstart0 & Hfc0 & Hg0 & Hrd0 & Hky0 & Hlg0).
  rewrite Hrun. clear Hrun.
  replace fuel with (n + S (fuel - S n))%nat by lia.
  destruct (loop_turns n s0 (S (fuel - S n)) Hstart0)
    as (s1 & Hloop & _ & Hfc1 & Hrd1 & Hky1 & Hsh1 & Hg1 & _).
  { rewrite Hrd0, Hky0. exact Hquiet. }
  rewrite Hlg0 in Hsh1.
  unfold sbind at 1. rewrite Hloop. cbn [loop].
  destruct (loop_body_failed_grab s1)
    as (s2 & Hbody & Hfc2 & Hrd2 & Hky2 & Hg2 & Hlg2).
  { rewrite Hrd1, Hrd0. exact Hlost. }
  unfold sbind at 1. rewrite Hbody.
  unfold sbind, ret, cleanup, modify. cbn.
  eexists. split; [reflexivity|]. cbn.
  assert (Hsh2 : count_shown (log s2) = count_shown (log s1))
    by (rewrite Hlg2, count_shown_app; cbn; lia).
  repeat (split; [solve [lia | congruence]|]).
  exists (log s1). exact Hlg2.
Qed.

(** X18.  When 'q' is pressed: under a clock that moves forward, if frames
    keep arriving, neither 'q' nor 'r' is pressed in the first [n] turns and
    'q' is pressed in the next one, [run_verification_loop] returns after
    that turn, whose frame is still identified, counted and shown, with the
    capture released and the windows closed. *)
Theorem run_verification_loop_quit (gallery : PyDict.t vec)
        (n fuel : nat) (s : state vec) :
  (forall i, (i < n)%nat ->
             cap_read w (reads s + i) <> None /\
             key_at w (keys s + i) <> ord_q /\
             key_at w (keys s + i) <> ord_r) ->
  cap_read w (reads s + n) <> None ->
  key_at w (keys s + n) = ord_q ->
  (n < fuel)%nat ->
  exists s',
    run_verification_loop w cfg model gallery fuel s = (Ok Done, s') /\
    released s' = true /\ windows_closed s' = true /\
    gallery_embeddings s' = gallery /\
    frame_count s' = Z.of_nat (S n) /\
    reads s' = (reads s + S n)%nat /\ keys s' = (keys s + S n)%nat /\
    count_shown (log s') = (count_shown (log s) + S n)%nat /\
    exists l, log s' = (l ++ [Exiting])%list.
Proof.
  intros Hquiet Hread Hq Hfuel.
  destruct (enter_started gallery s)
    as (s0 & Hrun & Hstart0 & Hfc0 & Hg0 & Hrd0 & Hky0 & Hlg0).
  rewrite Hrun. clear Hrun.
  replace fuel with (n + S (fuel - S n))%nat by lia.
  destruct (loop_turns n s0 (S (fuel - S n)) Hstart0)
    as (s1 & Hloop & Hstart1 & Hfc1 & Hrd1 & Hky1 & Hsh1 & Hg1 & _).
  { rewrite Hrd0, Hky0. exact Hquiet. }
  rewrite Hlg0 in Hsh1.
  unfold sbind at 1. rewrite Hloop. cbn [loop].
  destruct (loop_body_quit s1 Hstart1)
    as (s2 & Hbody & (Hfc2 & Hrd2 & Hky2 & Hsh2 & Hg2 & _) & l & Hlast).
  { rewrite Hrd1, Hrd0. exact Hread. }
  { rewrite Hky1, Hky0. exact Hq. }
  unfold sbind at 1. rewrite Hbody.
  unfold sbind, ret, cleanup, modify. cbn.
  eexists. split; [reflexivity|]. cbn.
  repeat (split; [solve [lia | congruence]|]).
  exists l. exact Hlast.
Qed.

End LoopEnd.

Lemma run_verification_loop_camera_lost_witness :
  exists s',
    App.run_verification_loop (Sample.studio Sample.disk 2 5) Sample.deployment
                              Sample.model_line Sample.gallery 3 App.boot
    = (Ok App.Done, s') /\
    App.released s' = true /\ App.frame_count s' = 2%Z.
Proof.
  destruct (run_verification_loop_camera_lost
              (Sample.studio Sample.disk 2 5) Sample.deployment Sample.model_line
              ltac:(intros i j Hij;
                    change (inject_Z (Z.of_nat i) < inject_Z (Z.of_nat j))%Q;
                    rewrite <- Zlt_Qlt; lia)
              Sample.gallery 2 3 App.boot)
    as (s' & Hrun & Hrel & _ & _ & Hfc & _).
  - intros i Hi.
    assert (Hcases : i = 0%nat \/ i = 1%nat) by lia.
    destruct Hcases as [-> | ->]; repeat split; discriminate.
  - reflexivity.
  - lia.
  - exists s'. auto.
Defined.

Lemma run_verification_loop_quit_witness :
  exists s',
    App.run_verification_loop (Sample.studio Sample.disk 9 1) Sample.deployment
                              Sample.model_line Sample.gallery 3 App.boot
    = (Ok App.Done, s') /\
    App.released s' = true /\ App.frame_count s' = 2%Z.
Proof.
  destruct (run_verification_loop_quit
              (Sample.studio Sample.disk 9 1) Sample.deployment Sample.model_line
              ltac:(intros i j Hij;
                    change (inject_Z (Z.of_nat i) < inject_Z (Z.of_nat j))%Q;
                    rewrite <- Zlt_Qlt; lia)
              Sample.gallery 1 3 App.boot)
    as (s' & Hrun & Hrel & _ & _ & Hfc & _).
  - intros i Hi.
    assert (Hcases : i = 0%nat) by lia.
    subst i. repeat split; discriminate.
  - discriminate.
  - reflexivity.
  - lia.
  - exists s'. auto.
Defined.

(* ================================================================== *)
(** * main: start, run and clean up *)
(* ================================================================== *)

Section Main.
Import App.
Context {vec : Type} `{NumPy vec} `{Cv2}.
Variable w : world vec.
Variable cfg : config.

Lemma load_model_raises (fs : filesystem) (load : string -> option (Model vec))
      (path : string) :
  (exists e, load_model fs load path = Raise e) <->
  fs path = Missing \/ load path = None.
Proof.
  unfold load_model, os_path_exists. split.
  - intros (e & He). destruct (fs path); auto;
      destruct (load path); auto; discriminate.
  - intros [Hfs | Hload].
    + rewrite Hfs. eexists. reflexivity.
    + rewrite Hload. destruct (fs path); eexists; reflexivity.
Qed.

Lemma load_model_status (fs : filesystem) (load : string -> option (Model vec))
      (path : string) (e : exn) :
  load_model fs load path = Raise e -> e = SystemExit 1.
Proof.
  unfold load_model. destruct (negb (os_path_exists fs path)); [congruence|].
  destruct (load path); congruence.
Qed.

(** [load_gallery] raises exactly when the reference directory is not a
    directory with an image file; an uncaught exception of its makes the
    interpreter leave with status 1. *)
Lemma load_gallery_raises (model : Model vec) (fs : filesystem) :
  (exists e, load_gallery cfg fs model = Raise e) <->
  (forall listing,
      fs (REFERENCE_DIR cfg) = Directory listing ->
      forall filename, In filename listing -> is_image filename = false).
Proof.
  split.
  - intros (e & He) listing Hfs filename Hin.
    destruct (is_image filename) eqn:Himg; [|reflexivity].
    destruct (proj2 (load_gallery_directory cfg model fs listing Hfs))
      as (g & Hg & _); [exists filename; auto | congruence].
  - intro Hnone.
    destruct (fs (REFERENCE_DIR cfg)) as [| |listing] eqn:Hfs.
    + unfold load_gallery, os_path_exists. rewrite Hfs. eexists. reflexivity.
    + unfold load_gallery, Utils.index_images_by_person, os_path_exists, os_listdir.
      rewrite Hfs. eexists. reflexivity.
    + rewrite (proj1 (load_gallery_directory cfg model fs listing Hfs)
                     (Hnone listing eq_refl)).
      eexists. reflexivity.
Qed.

Lemma load_gallery_status (model : Model vec) (fs : filesystem) (e : exn) :
  load_gallery cfg fs model = Raise e -> status_of e = 1%Z.
Proof.
  destruct (fs (REFERENCE_DIR cfg)) as [| |listing] eqn:Hfs.
  - unfold load_gallery, os_path_exists. rewrite Hfs. intros [= <-]. reflexivity.
  - unfold load_gallery, Utils.index_images_by_person, os_path_exists, os_listdir.
    rewrite Hfs. intros [= <-]. reflexivity.
  - intro He.
    destruct (existsb is_image listing) eqn:Hexists.
    + apply existsb_exists in Hexists.
      destruct (proj2 (load_gallery_directory cfg model fs listing Hfs) Hexists)
        as (g & Hg & _).
      congruence.
    + rewrite (proj1 (load_gallery_directory cfg model fs listing Hfs)) in He.
      * injection He as <-. reflexivity.
      * intros filename Hin. destruct (is_image filename) eqn:Himg; [|reflexivity].
        assert (Hex : existsb is_image listing = true)
          by (apply existsb_exists; exists filename; auto).
        congruence.
Qed.

(** With the default of five attempts the camera is opened between one and
    five times, and a failure is [sys.exit(1)]. *)
Lemma initialize_camera_default (c : camera) (camera_index : Z) :
  let r := initialize_camera c camera_index None in
  (1 <= opens r <= 5)%nat /\
  (forall e, outcome r = Raise e -> e = SystemExit 1).
Proof.
  unfold initialize_camera, default_max_retries, py_range.
  change (Z.to_nat 5) with 5%nat. cbn [seq initialize_loop].
  repeat (destruct (c camera_index _); cbn [opens outcome];
          [split; [lia | discriminate]|]).
  split; [lia | congruence].
Qed.

(** Every exception that leaves the loop would, uncaught, end the process
    with status 1. *)
Lemma loop_status (model : Model vec) (fuel : nat) (s : state vec) :
  wp (loop w cfg model fuel) (fun _ _ => True) (fun e _ => status_of e = 1%Z) s.
Proof.
  revert s. induction fuel as [|fuel IH]; intro s; [exact I|].
  cbn [loop]. apply wp_bind.
  apply (wp_conseq _ (fun f s' => True) _ (fun e _ => status_of e = 1%Z));
    [| auto |].
  { intros [|] s' _; [apply IH | exact I]. }
  unfold loop_body. apply wp_bind. unfold wp at 1, read_frame.
  destruct (cap_read w (reads s)) as [frame|]; [|exact I].
  apply wp_bind.
  apply (wp_conseq _ (fun _ _ => True) _ (fun e _ => status_of e = 1%Z));
    [| auto |].
  - intros _ s2 _. apply wp_bind.
    apply (wp_conseq _ (fun _ _ => True) _ (fun e _ => status_of e = 1%Z));
      [| auto |].
    + intros display_frame s3 _.
      unfold wp, show_and_poll, sbind, gets, wait_key. cbn -[load_gallery].
      destruct (Z.land (waitKey w (keys s3)) 255 =? ord_q)%Z; [exact I|].
      destruct (Z.land (waitKey w (keys s3)) 255 =? ord_s)%Z; [exact I|].
      destruct (Z.land (waitKey w (keys s3)) 255 =? ord_r)%Z; [|exact I].
      unfold reload_gallery. cbn -[load_gallery].
      destruct (load_gallery cfg (fs_at w (loads s3)) model) as [g|e] eqn:Hload;
        [exact I|].
      eapply load_gallery_status. exact Hload.
    + unfold wp, annotate.
      destruct (Utils.detect_and_crop_face frame None) as [[face|] [bbox|]];
        try exact I.
      unfold sbind, gets. cbn -[Utils.identify_face_from_frame].
      destruct (Utils.identify_face_from_frame _ _ _ _) as [[person distance] status].
      destruct status; exact I.
  - unfold wp, update_fps, sbind, gets, set_frame_count, modify, time_time,
      divide_30, set_fps, set_fps_start_time, ret, throw.
    cbn -[Qeq_bool Qminus Qdiv].
    destruct ((frame_count s + 1) mod 30 =? 0)%Z; [|exact I].
    destruct (Qeq_bool _ 0); [reflexivity | exact I].
Qed.

(** X19.  Where [model.predict] and the NumPy calls return while the
    gallery is built (a [predict] that raises there, utils.py line 141,
    also ends [main] before the camera, with a traceback; the embedding
    takes these calls to return): [main] leaves before it touches the
    camera exactly when the start fails: the output directory cannot be
    made, the model file is missing, Keras cannot load it, or the
    reference directory is not a directory with an image file.  The
    process then ends with status 1, having shown and printed nothing of
    the loop. *)
Theorem main_startup (fuel : nat) :
  (camera_opens (main w cfg fuel) = 0%nat <-> startup_fails w cfg) /\
  (startup_fails w cfg ->
   exit_status (main w cfg fuel) = Some 1%Z /\
   log (final (main w cfg fuel)) = [] /\
   released (final (main w cfg fuel)) = false).
Proof.
  unfold main, startup_fails.
  destruct (makedirs w (OUTPUT_DIR cfg)) eqn:Hmk; cbn [negb];
    [|cbn; repeat split; auto].
  assert (Hdrop : forall X : Prop, (true = false \/ X) <-> X)
    by (intro X; split; [intros [Hd | Hx]; [discriminate | exact Hx] | auto]).
  rewrite !Hdrop. clear Hdrop.
  destruct (load_model (fs_at w 0) (keras_load w) (MODEL_PATH cfg))
    as [model|e] eqn:Hmodel.
  - assert (Hfs : fs_at w 0 (MODEL_PATH cfg) <> Missing /\
                  keras_load w (MODEL_PATH cfg) <> None).
    { split; intro Hbad;
        assert (Hraise : exists e, load_model (fs_at w 0) (keras_load w)
                                              (MODEL_PATH cfg) = Raise e)
        by (apply load_model_raises; auto);
        destruct Hraise as (e & He); congruence. }
    unfold reload_gallery. cbn [loads boot].
    destruct (load_gallery cfg (fs_at w 0) model) as [gallery|e] eqn:Hgallery.
    + assert (Hok : ~ (forall listing,
                          fs_at w 0 (REFERENCE_DIR cfg) = Directory listing ->
                          forall filename, In filename listing ->
                                           is_image filename = false)).
      { intro Hnone. apply (load_gallery_raises model) in Hnone.
        destruct Hnone as (e & He). congruence. }
      pose proof (initialize_camera_default (cam w) (CAMERA_INDEX cfg))
        as [Hopens _].
      cbv zeta in Hopens. cbv zeta.
      remember (initialize_camera (cam w) (CAMERA_INDEX cfg) None) as r eqn:Hr.
      clear Hr. split.
      * split.
        -- intro Hzero. exfalso.
           destruct (outcome r); [|cbn in Hzero; lia].
           destruct (run_verification_loop w cfg model gallery fuel _)
             as [[[|]|[]] s']; cbn in Hzero; lia.
        -- intros [Hbad | [Hbad | Hbad]]; [destruct Hfs; contradiction
                                          | destruct Hfs; contradiction
                                          | contradiction].
      * intros [Hbad | [Hbad | Hbad]]; [destruct Hfs; contradiction
                                       | destruct Hfs; contradiction
                                       | contradiction].
    + cbn. rewrite (load_gallery_status model _ e Hgallery).
      assert (Hnone : forall listing,
                        fs_at w 0 (REFERENCE_DIR cfg) = Directory listing ->
                        forall filename, In filename listing ->
                                         is_image filename = false)
        by (apply (load_gallery_raises model); exists e; exact Hgallery).
      repeat split; auto.
  - cbn. rewrite (load_model_status _ _ _ e Hmodel). cbn.
    assert (Hbad : fs_at w 0 (MODEL_PATH cfg) = Missing \/
                   keras_load w (MODEL_PATH cfg) = None)
      by (apply load_model_raises; exists e; exact Hmodel).
    repeat split; auto. intros _. tauto.
Qed.

(** X20.  A run of [main] that has ended has status 0 or 1.  It ends with
    status 0 only after the capture was released and the windows were
    closed, whatever exception stopped the loop; and when the capture was
    not released, the program failed before the loop, with status 1 and
    nothing shown. *)
Theorem main_exit (fuel : nat) (code : Z) :
  exit_status (main w cfg fuel) = Some code ->
  (code = 0 \/ code = 1)%Z /\
  (code = 0%Z ->
   released (final (main w cfg fuel)) = true /\
   windows_closed (final (main w cfg fuel)) = true) /\
  (released (final (main w cfg fuel)) = false ->
   code = 1%Z /\ log (final (main w cfg fuel)) = []).
Proof.
  unfold main.
  destruct (makedirs w (OUTPUT_DIR cfg)) eqn:Hmk; cbn [negb];
    [|cbn; intros [= <-]; repeat split; auto; discriminate].
  destruct (load_model (fs_at w 0) (keras_load w) (MODEL_PATH cfg))
    as [model|e] eqn:Hmodel.
  - unfold reload_gallery. cbn [loads boot].
    destruct (load_gallery cfg (fs_at w 0) model) as [gallery|e] eqn:Hgallery.
    + pose proof (initialize_camera_default (cam w) (CAMERA_INDEX cfg))
        as [_ Hfail].
      cbv zeta in Hfail. cbv zeta.
      remember (initialize_camera (cam w) (CAMERA_INDEX cfg) None) as r eqn:Hr.
      clear Hr. destruct (outcome r) as [cap|e].
      * match goal with
        | |- context [run_verification_loop w cfg model gallery fuel ?s0] =>
            assert (Hst : wp (run_verification_loop w cfg model gallery fuel)
                             (fun _ _ => True) (fun e _ => status_of e = 1%Z) s0);
              [| unfold wp in Hst;
                 destruct (run_verification_loop w cfg model gallery fuel s0)
                   as [[[|]|e] s'] ]
        end.
        { unfold run_verification_loop.
          apply wp_bind. unfold wp at 1, modify.
          apply wp_bind. unfold wp at 1, time_time.
          apply wp_bind. unfold wp at 1, set_fps_start_time, modify.
          apply wp_bind.
          apply (wp_conseq _ (fun _ _ => True) _ (fun e _ => status_of e = 1%Z));
            [| auto | apply loop_status].
          intros [|] s' _; exact I. }
        -- cbn. discriminate.
        -- cbn. intros [= <-]. repeat split; auto; discriminate.
        -- destruct e; cbn; intros [= <-]; cbn in Hst;
             repeat split; auto; try discriminate; lia.
      * cbn. rewrite (Hfail e eq_refl). cbn. intros [= <-].
        repeat split; auto; discriminate.
    + cbn. rewrite (load_gallery_status model _ e Hgallery). intros [= <-].
      repeat split; auto; discriminate.
  - cbn. rewrite (load_model_status _ _ _ e Hmodel). cbn. intros [= <-].
    repeat split; auto; discriminate.
Qed.

End Main.

Lemma main_startup_witness :
  App.exit_status (App.main (Sample.studio (fun _ => Missing) 2 5)
                            Sample.deployment 3) = Some 1%Z /\
  App.camera_opens (App.main (Sample.studio Sample.disk 2 5)
                             Sample.deployment 3) <> 0%nat.
Proof.
  split.
  - apply (proj2 (main_startup (Sample.studio (fun _ => Missing) 2 5)
                               Sample.deployment 3)).
    right. left. reflexivity.
  - intro Hzero.
    apply (proj1 (proj1 (main_startup (Sample.studio Sample.disk 2 5)
                                      Sample.deployment 3))) in Hzero.
    destruct Hzero as [Hbad | [Hbad | [Hbad | Hbad]]];
      [discriminate | discriminate | discriminate |].
    specialize (Hbad ["ann__1.jpg"; "readme.md"] eq_refl "ann__1.jpg"
                     (or_introl eq_refl)).
    discriminate.
Defined.

Lemma main_exit_witness :
  App.released (App.final (App.main (Sample.studio Sample.disk 2 5)
                                    Sample.deployment 3)) = true.
Proof.
  destruct (main_exit (Sample.studio Sample.disk 2 5) Sample.deployment 3 0)
    as (_ & Hclean & _).
  - vm_compute. reflexivity.
  - exact (proj1 (Hclean eq_refl)).
Defined.

(* ================================================================== *)
(** * main: a reload that fails *)
(* ================================================================== *)

Section ReloadExit.
Import App.
Context {vec : Type} `{NumPy vec} `{Cv2}.
Variable w : world vec.
Variable cfg : config.
Variable model : Model vec.

Hypothesis clock_increasing :
  forall i j, (i < j)%nat -> (clock w i < clock w j)%Q.

(** The turn in which 'r' is pressed and [load_gallery] raises: the frame
    is shown, "Reloading gallery..." is the last line, and the rest of the
    turn is not run. *)
Lemma loop_body_reload_raises (s : state vec) (e : exn) :
  clock_started w s ->
  cap_read w (reads s) <> None ->
  key_at w (keys s) = ord_r ->
  load_gallery cfg (fs_at w (loads s)) model = Raise e ->
  exists s',
    loop_body w cfg model s = (Raise e, s') /\
    released s' = released s /\
    count_shown (log s') = S (count_shown (log s)) /\
    exists l, log s' = (l ++ [Reloading])%list.
Proof.
  intros Hstart Hread Hr Hload.
  unfold loop_body, sbind at 1, read_frame. cbv beta iota.
  destruct (cap_read w (reads s)) as [frame|]; [clear Hread | congruence].
  match goal with
  | |- context [sbind (update_fps w) _ ?s1] =>
      destruct (update_fps_runs w clock_increasing s1)
        as (s2 & Hupd & Hstart2 & Hfc & Hrd & Hky & Hlg & Hg & Hld & Hrel & Hwin);
        [exact Hstart|]
  end.
  unfold sbind at 1. rewrite Hupd. cbv beta iota.
  destruct (annotate_runs w cfg model frame (copy frame) s2)
    as (display_frame & s3 & Hann & Hshown3 & Hfc3 & Ht03 & Htm3 & Hrd3 & Hky3
        & Hg3 & Hld3 & Hrel3 & Hwin3).
  unfold sbind at 1. rewrite Hann. cbv beta iota.
  cbn in Hfc, Hrd, Hky, Hlg, Hg, Hld, Hrel, Hwin. rewrite Hlg in Hshown3.
  unfold show_and_poll, sbind, gets, wait_key. cbn -[load_gallery].
  unfold key_at in Hr. rewrite <- Hky, <- Hky3 in Hr. rewrite Hr.
  cbn -[load_gallery]. unfold reload_gallery. cbn -[load_gallery].
  rewrite Hld3, Hld, Hload.
  eexists. split; [reflexivity|]. cbn.
  split; [congruence|]. split.
  - rewrite !count_shown_app. cbn. lia.
  - eexists. reflexivity.
Qed.

(** X21.  A reload that fails ends the program, not only the loop.  After a
    start that succeeded, under a clock that moves forward, let 'r' be
    pressed in a turn after [n] turns without 'q' or 'r', at a moment when
    the reference directory is no longer a directory.  If it is gone,
    [sys.exit(1)] passes through [except Exception] and the process ends
    with status 1; if a file has taken its place, the [NotADirectoryError]
    is caught and printed and the process ends with status 0.  Either way
    the frame of that turn was shown, "Reloading gallery..." is the last
    line of the loop, and the capture is released and the windows are
    closed. *)
Theorem main_reload_fails (gallery : PyDict.t vec) (cap : capture)
        (n fuel : nat) :
  makedirs w (OUTPUT_DIR cfg) = true ->
  load_model (fs_at w 0) (keras_load w) (MODEL_PATH cfg) = Ok model ->
  load_gallery cfg (fs_at w 0) model = Ok gallery ->
  outcome (initialize_camera (cam w) (CAMERA_INDEX cfg) None) = Ok cap ->
  (forall i, (i < n)%nat ->
             cap_read w i <> None /\
             key_at w i <> ord_q /\ key_at w i <> ord_r) ->
  cap_read w n <> None ->
  key_at w n = ord_r ->
  (forall listing, fs_at w 1 (REFERENCE_DIR cfg) <> Directory listing) ->
  (n < fuel)%nat ->
  exit_status (main w cfg fuel)
  = Some (if os_path_exists (fs_at w 1) (REFERENCE_DIR cfg) then 0 else 1)%Z /\
  released (final (main w cfg fuel)) = true /\
  windows_closed (final (main w cfg fuel)) = true /\
  count_shown (log (final (main w cfg fuel))) = S n /\
  exists l, log (final (main w cfg fuel)) = (l ++ [Reloading])%list.
Proof.
  intros Hmk Hmodel Hgallery Hcam Hquiet Hread Hr Hgone Hfuel.
  assert (Hload : exists e,
             load_gallery cfg (fs_at w 1) model = Raise e /\
             (match e with SystemExit code => Some code | _ => Some 0%Z end)
             = Some (if os_path_exists (fs_at w 1) (REFERENCE_DIR cfg)
                     then 0 else 1)%Z).
  { unfold load_gallery, Utils.index_images_by_person, os_path_exists, os_listdir.
    destruct (fs_at w 1 (REFERENCE_DIR cfg)) as [| |listing] eqn:Hfs.
    - eexists. split; reflexivity.
    - eexists. split; reflexivity.
    - destruct (Hgone listing). reflexivity. }
  destruct Hload as (e & Hload & Hstatus).
  assert (Hmain : exists code s2,
             main w cfg fuel
             = {| exit_status := code;
                  camera_opens :=
                    opens (initialize_camera (cam w) (CAMERA_INDEX cfg) None);
                  final := snd (cleanup s2) |} /\
             code = Some (if os_path_exists (fs_at w 1) (REFERENCE_DIR cfg)
                          then 0 else 1)%Z /\
             count_shown (log s2) = S n /\
             exists l, log s2 = (l ++ [Reloading])%list).
  { unfold main. rewrite Hmk. cbn [negb]. rewrite Hmodel.
    unfold reload_gallery. cbn [loads boot]. rewrite Hgallery. cbv zeta.
    rewrite Hcam.
    match goal with
    | |- context [run_verification_loop w cfg model gallery fuel ?s] =>
        set (s_in := s)
    end.
    destruct (enter_started w cfg model gallery s_in)
      as (s0 & Hrun & Hstart0 & Hfc0 & Hg0 & Hrd0 & Hky0 & Hlg0).
    assert (Hld0 : loads s0 = 1%nat).
    { specialize (Hrun 0%nat). unfold run_verification_loop, sbind, modify,
        time_time, set_fps_start_time, loop, ret in Hrun. cbn in Hrun.
      injection Hrun as Hs0. rewrite <- Hs0. reflexivity. }
    rewrite Hrun. clear Hrun.
    replace fuel with (n + S (fuel - S n))%nat by lia.
    destruct (loop_turns w cfg model clock_increasing n s0 (S (fuel - S n)) Hstart0)
      as (s1 & Hloop & Hstart1 & Hfc1 & Hrd1 & Hky1 & Hsh1 & Hg1 & Hld1 & Hrel1 & _).
    { intros i Hi. rewrite Hrd0, Hky0. exact (Hquiet i Hi). }
    rewrite Hlg0 in Hsh1. subst s_in. cbn in Hsh1.
    unfold sbind at 1. rewrite Hloop. cbn [loop].
    destruct (loop_body_reload_raises s1 e Hstart1)
      as (s2 & Hbody & Hrel2 & Hsh2 & l & Hlast).
    { rewrite Hrd1, Hrd0. exact Hread. }
    { rewrite Hky1, Hky0. exact Hr. }
    { rewrite Hld1, Hld0. exact Hload. }
    unfold sbind at 1. rewrite Hbody.
    exists (match e with SystemExit code => Some code | _ => Some 0%Z end), s2.
    split; [destruct e; reflexivity|].
    split; [exact Hstatus|]. split; [lia|].
    exists l. exact Hlast. }
  destruct Hmain as (code & s2 & -> & -> & Hshown & l & Hlast).
  cbn. repeat (split; [solve [reflexivity | lia]|]).
  exists l. exact Hlast.
Qed.

End ReloadExit.

Lemma main_reload_fails_witness :
  App.exit_status (App.main (Sample.operator (fun _ => Missing) 114)
                            Sample.deployment 1) = Some 1%Z.
Proof.
  refine (proj1 (main_reload_fails
                   (Sample.operator (fun _ => Missing) 114) Sample.deployment
                   Sample.model_line
                   ltac:(intros i j Hij;
                         change (inject_Z (Z.of_nat i) < inject_Z (Z.of_nat j))%Q;
                         rewrite <- Zlt_Qlt; lia)
                   [] {| App.cap_index := 0; App.cap_call := 2 |} 0 1
                   _ _ _ _ _ _ _ _ _)).
  - reflexivity.
  - reflexivity.
  - vm_compute. reflexivity.
  - reflexivity.
  - intros i Hi. lia.
  - discriminate.
  - reflexivity.
  - intros listing Hd. vm_compute in Hd. discriminate.
  - lia.
Defined.

(* ================================================================== *)
(** * test_setup.py: what the file checks accept *)
(* ================================================================== *)

Section FileChecks.
Import TestSetup.

Lemma check_file_exists (fs : filesystem) (filepath : string) :
  check_file fs filepath = true <-> fs filepath <> Missing.
Proof.
  unfold check_file, os_path_exists.
  destruct (fs filepath); split; congruence.
Qed.

(** The flag of the loop goes down at the first missing file and stays
    down. *)
Lemma check_each_spec (fs : filesystem) (files : list (string * string)) :
  forall all_exist,
    check_each fs files all_exist = true <->
    all_exist = true /\
    forall filename, In filename (map fst files) -> fs filename <> Missing.
Proof.
  induction files as [|[filename description] rest IH]; intro all_exist.
  - cbn. split; [intro Hall; split; [exact Hall | intros ? []] | tauto].
  - cbn [check_each map fst].
    destruct (check_file fs filename) eqn:Hfile; cbn [negb].
    + rewrite IH. apply check_file_exists in Hfile. split.
      * intros [Hall Hrest]. split; [exact Hall|].
        intros f [<- | Hin]; [exact Hfile | apply Hrest; exact Hin].
      * intros [Hall Hrest]. split; [exact Hall|].
        intros f Hin. apply Hrest. right. exact Hin.
    + rewrite IH. split; [intros [Hbad _]; discriminate|].
      intros [_ Hrest]. exfalso.
      assert (Hexists : check_file fs filename = true)
        by (apply check_file_exists; apply Hrest; left; reflexivity).
      congruence.
Qed.

(** X22.  [check_docker_files] passes exactly when each of the seven files
    it lists exists, whatever their order, and [check_model_files] exactly
    when the model file exists: a missing model_architecture.json is only
    warned about. *)
Theorem check_files_verdicts (fs : filesystem) :
  (check_docker_files fs = true <->
   forall filename,
     In filename (PyDict.keys docker_files) -> fs filename <> Missing) /\
  (check_model_files fs = true <->
   fs "face_embedding_model_CLEAN.h5" <> Missing).
Proof.
  split.
  - unfold check_docker_files, PyDict.items, PyDict.keys.
    rewrite check_each_spec. tauto.
  - unfold check_model_files. cbv zeta.
    rewrite <- check_file_exists.
    destruct (check_file fs "face_embedding_model_CLEAN.h5"); cbn;
      split; congruence.
Qed.

End FileChecks.

Section DataCheck.
Import TestSetup Utils.
Context {vec : Type} `{NumPy vec} `{Cv2}.
Variable cfg : App.config.
Variable model : Model vec.

(** What [check_directory] counts. *)
Lemma check_directory_listing (fs : filesystem) (dirpath : string)
      (listing : list string) (min_files : Z) :
  fs dirpath = Directory listing ->
  check_directory fs dirpath min_files
  = Ok (min_files <=? Z.of_nat (List.length (filter is_image listing)))%Z.
Proof.
  intro Hfs. unfold check_directory, os_path_exists, os_listdir.
  rewrite Hfs. cbn [negb bind].
  change (filter _ listing) with (filter is_image listing).
  rewrite Z.geb_leb.
  destruct (min_files <=? Z.of_nat (List.length (filter is_image listing)))%Z;
    reflexivity.
Qed.

(** X23.  [check_data_files] counts the files that [index_images_by_person]
    indexes: it passes exactly when the index of the reference directory
    (the one [run_integration_test] builds) holds at least two image paths.
    When the program is checked from its own directory, [load_gallery] then
    does not exit.  A regular file in the place of the directory is not
    reported as a failure: [os.listdir] raises out of the check. *)
Theorem check_data_files_index (fs : filesystem) :
  (check_data_files fs = Ok true <->
   exists d,
     index_images_by_person fs ref_dir "__" = Ok d /\
     (2 <= total_paths d)%nat) /\
  (fs (App.REFERENCE_DIR cfg) = fs ref_dir ->
   check_data_files fs = Ok true ->
   exists gallery, App.load_gallery cfg fs model = Ok gallery) /\
  (fs ref_dir = RegularFile ->
   check_data_files fs = Raise (NotADirectoryError ref_dir)).
Proof.
  assert (Hdir : forall listing,
             fs ref_dir = Directory listing ->
             check_data_files fs = Ok true <->
             (2 <= List.length (filter is_image listing))%nat).
  { intros listing Hfs. unfold check_data_files. cbv zeta.
    rewrite (check_directory_listing fs ref_dir listing 2 Hfs). cbn [bind].
    destruct (2 <=? Z.of_nat (List.length (filter is_image listing)))%Z eqn:Hle;
      cbn [negb].
    - apply Z.leb_le in Hle. split; [intros _; lia | reflexivity].
    - apply Z.leb_gt in Hle. split; [discriminate | lia]. }
  split; [|split].
  - destruct (fs ref_dir) as [| |listing] eqn:Hfs.
    + unfold check_data_files, check_directory, index_images_by_person,
        os_path_exists. rewrite Hfs. cbn. split; [discriminate|].
      intros (d & [= <-] & Hle). cbn in Hle. lia.
    + unfold check_data_files, check_directory, index_images_by_person,
        os_path_exists, os_listdir. rewrite Hfs. cbn.
      split; [discriminate | intros (d & Hbad & _); discriminate].
    + rewrite (Hdir listing eq_refl).
      destruct (index_directory fs ref_dir listing Hfs) as (d & Hindex & _).
      assert (Htotal : total_paths d = List.length (filter is_image listing)).
      { unfold index_images_by_person, os_path_exists, os_listdir in Hindex.
        rewrite Hfs in Hindex. cbn [negb bind] in Hindex.
        apply index_loop_total in Hindex. exact Hindex. }
      split.
      * intro Hle. exists d. split; [exact Hindex | lia].
      * intros (d' & Hindex' & Hle). rewrite Hindex in Hindex'.
        injection Hindex' as <-. lia.
  - intros Hsame Hcheck.
    destruct (fs ref_dir) as [| |listing] eqn:Hfs.
    + unfold check_data_files, check_directory, os_path_exists in Hcheck.
      rewrite Hfs in Hcheck. discriminate.
    + unfold check_data_files, check_directory, os_path_exists, os_listdir
        in Hcheck.
      rewrite Hfs in Hcheck. discriminate.
    + apply (Hdir listing eq_refl) in Hcheck.
      destruct (proj2 (load_gallery_directory cfg model fs listing Hsame))
        as (gallery & Hload & _).
      * destruct (filter is_image listing) as [|filename others] eqn:Hfilter;
          [cbn in Hcheck; lia|].
        exists filename. apply filter_In. rewrite Hfilter. left. reflexivity.
      * exists gallery. exact Hload.
  - intro Hfs. unfold check_data_files, check_directory, os_path_exists,
      os_listdir.
    rewrite Hfs. reflexivity.
Qed.

End DataCheck.

Lemma check_files_verdicts_witness :
  TestSetup.check_docker_files Sample.workdir = true /\
  TestSetup.check_model_files Sample.workdir = true /\
  TestSetup.check_docker_files Sample.disk = false.
Proof.
  split; [|split].
  - apply (proj1 (check_files_verdicts Sample.workdir)).
    intros filename Hin. cbn in Hin.
    repeat (destruct Hin as [<- | Hin]; [discriminate|]). destruct Hin.
  - apply (proj2 (check_files_verdicts Sample.workdir)). discriminate.
  - destruct (TestSetup.check_docker_files Sample.disk) eqn:Hcheck; [|reflexivity].
    apply (proj1 (check_files_verdicts Sample.disk)) with (filename := "app.py")
      in Hcheck.
    + destruct Hcheck. reflexivity.
    + cbn. auto.
Defined.

Lemma check_data_files_index_witness :
  exists gallery,
    App.load_gallery Sample.deployment Sample.workdir Sample.model_line
    = Ok gallery.
Proof.
  apply (proj1 (proj2 (check_data_files_index Sample.deployment
                                              Sample.model_line Sample.workdir))).
  - reflexivity.
  - reflexivity.
Defined.

(** A file that [cv2.imread] reads is not loaded at the size 0: the error of
    [cv2.resize] is caught and None returned. *)
Lemma load_image_normalized_witness :
  Utils.load_image "ref/ann__1.jpg" 0 = None /\
  cv2_imread "ref/ann__1.jpg" <> None /\
  Utils.load_image "ref/ann__2.jpg" 1 = Some [[[1; 1; 1]]].
Proof.
  split; [|split].
  - apply (proj1 (load_image_normalized 0 "ref/ann__1.jpg")).
    right. exists Sample.black. split; reflexivity.
  - discriminate.
  - destruct (Utils.load_image "ref/ann__2.jpg" 1) as [img|] eqn:Hload.
    + destruct (proj2 (load_image_normalized 1 "ref/ann__2.jpg") img Hload)
        as ((raw & Hraw & _ & Himg) & _).
      injection Hraw as <-. rewrite Himg. vm_compute. reflexivity.
    + apply (proj1 (load_image_normalized 1 "ref/ann__2.jpg")) in Hload.
      destruct Hload as [Hnone | (raw & Hraw & Hraises)]; [discriminate|].
      injection Hraw as <-. discriminate.
Defined.
